(** * BBSCAS: the microarchitecture simulation engine

    A shallow embedding of [js/cpuModel.js] (branch predictor, cache
    hierarchy, pipeline mapper, scalar clamp), [js/defence.js] (the
    mitigation toolkit) and [js/attack.js] (the scenario runner), with the
    properties the specification states about them.

    Conventions.
    - A JavaScript number is an IEEE-754 binary64 value: [number] is the
      Standard Library's [spec_float], and [+], [-], [*], [/] are its
      correctly rounded operations at precision 53.
    - A JavaScript value is a term of [value]; functions, symbols, getters
      and prototype chains are outside the model.  An object is the list of
      its own properties in enumeration order (no integer-like key is ever
      written by the program, so assignment appends).
    - A method is a computation [M S A]: it reads and writes a state [S],
      returns an [A] or throws, and emits the calls it makes to the console
      and to the renderer.  The state survives a throw, as in JavaScript. *)

From Stdlib Require Import ZArith List Bool String Ascii Lia.
From Stdlib Require Import Floats.SpecFloat.
From Stdlib Require Import DecimalString Decimal.
Import ListNotations.

Set Warnings "-register-all".

Local Open Scope string_scope.
Local Open Scope Z_scope.

(* ------------------------------------------------------------------ *)
(** ** Numbers *)

Module Num.

Definition number := spec_float.

Definition prec : Z := 53.
Definition emax : Z := 1024.

Definition NaN : number := S754_nan.
Definition Infinity : number := S754_infinity false.
Definition NegInfinity : number := S754_infinity true.

(** The number denoted by an integer literal. *)
Definition of_Z (z : Z) : number := binary_normalize prec emax z 0 false.

Definition add : number -> number -> number := SFadd prec emax.
Definition sub : number -> number -> number := SFsub prec emax.
Definition mul : number -> number -> number := SFmul prec emax.
Definition div : number -> number -> number := SFdiv prec emax.
Definition sqrt : number -> number := SFsqrt prec emax.

Definition isNaN (x : number) : bool :=
  match x with S754_nan => true | _ => false end.

(** [Number.isFinite]. *)
Definition isFinite (x : number) : bool :=
  match x with S754_zero _ | S754_finite _ _ _ => true | _ => false end.

(** [x > y] and [x <= y] on numbers: false when either is NaN. *)
Definition gtb (x y : number) : bool := SFltb y x.
Definition leb (x y : number) : bool := SFleb x y.

(** SameValueZero, the key equality of [Map]: NaN equals NaN and the two
    zeros are one key. *)
Definition same_value_zero (x y : number) : bool :=
  match x, y with
  | S754_nan, S754_nan => true
  | _, _ => SFeqb x y
  end.

(** [Math.max(x, y)] and [Math.min(x, y)]: NaN is contagious and
    [-0 < +0]. *)
Definition max (x y : number) : number :=
  match x, y with
  | S754_nan, _ | _, S754_nan => S754_nan
  | S754_zero sx, S754_zero sy => S754_zero (sx && sy)
  | _, _ => if SFltb x y then y else x
  end.

Definition min (x y : number) : number :=
  match x, y with
  | S754_nan, _ | _, S754_nan => S754_nan
  | S754_zero sx, S754_zero sy => S754_zero (sx || sy)
  | _, _ => if SFltb y x then y else x
  end.

(** [Math.max(...xs)]: the fold starts from [-Infinity]. *)
Definition max_list (xs : list number) : number :=
  fold_left max xs NegInfinity.

Definition signed (s : bool) (m : positive) : Z :=
  if s then Zneg m else Zpos m.

(** [Math.floor]. A finite number with a negative exponent is
    [m * 2^e]; its floor has fewer than 53 bits, so the conversion back
    is exact. *)
Definition floor (x : number) : number :=
  match x with
  | S754_finite s m e =>
      if 0 <=? e then x
      else
        let q := Z.shiftr (signed s m) (- e) in
        if q =? 0 then S754_zero false else of_Z q
  | _ => x
  end.

(** [Math.round]: the nearest integer, a tie going towards [+Infinity];
    a result of zero keeps the sign of the argument. *)
Definition round (x : number) : number :=
  match x with
  | S754_finite s m e =>
      if 0 <=? e then x
      else
        let t := Z.shiftr (2 * signed s m + Z.shiftl 1 (- e)) (1 - e) in
        if t =? 0 then S754_zero s else of_Z t
  | _ => x
  end.

(** The integer a number denotes, when it denotes one. *)
Definition to_Z (x : number) : option Z :=
  match x with
  | S754_zero _ => Some 0
  | S754_finite s m e =>
      if 0 <=? e then Some (Z.shiftl (signed s m) e)
      else if Z.land (Zpos m) (Z.ones (- e)) =? 0
           then Some (Z.shiftr (signed s m) (- e))
           else None
  | _ => None
  end.

Definition multiple_of (k : Z) (x : number) : bool :=
  match to_Z x with
  | Some z => z mod k =? 0
  | None => false
  end.

(** [lo <= x <= hi] for integer bounds. *)
Definition within (lo hi : Z) (x : number) : bool :=
  leb (of_Z lo) x && leb x (of_Z hi).

End Num.

Definition number : Type := Num.number.

(** Number literals used by the program. *)
Definition num (z : Z) : number := Num.of_Z z.

(* ------------------------------------------------------------------ *)
(** ** Values and objects *)

(** An array element is [None] at a hole: [forEach], [map], [filter] and
    [some] skip holes, [length] counts them. *)
Inductive value : Type :=
  | VUndefined
  | VNull
  | VBool (b : bool)
  | VNumber (x : number)
  | VString (s : string)
  | VArray (elems : list (option value))
  | VObject (props : list (string * value)).

Definition object : Type := list (string * value).

Inductive jstype := TUndefined | TObject | TBoolean | TNumber | TString.

Definition typeof (v : value) : jstype :=
  match v with
  | VUndefined => TUndefined
  | VNull | VArray _ | VObject _ => TObject
  | VBool _ => TBoolean
  | VNumber _ => TNumber
  | VString _ => TString
  end.

Definition is_boolean (v : value) : bool :=
  match v with VBool _ => true | _ => false end.

Definition is_string (v : value) : bool :=
  match v with VString _ => true | _ => false end.

(** [typeof v === 'number' && !Number.isNaN(v)]. *)
Definition is_numeric (v : value) : bool :=
  match v with VNumber x => negb (Num.isNaN x) | _ => false end.

(** ToBoolean. *)
Definition truthy (v : value) : bool :=
  match v with
  | VUndefined | VNull => false
  | VBool b => b
  | VNumber x =>
      match x with S754_zero _ | S754_nan => false | _ => true end
  | VString s => match s with EmptyString => false | _ => true end
  | VArray _ | VObject _ => true
  end.

(** [a && b]. *)
Definition js_and (a b : value) : value := if truthy a then b else a.

Module Obj.

Fixpoint get (k : string) (o : object) : option value :=
  match o with
  | [] => None
  | (k', v) :: o' => if String.eqb k k' then Some v else get k o'
  end.

(** [o[k] = v]: an existing property keeps its place, a new one goes
    last. *)
Fixpoint set (k : string) (v : value) (o : object) : object :=
  match o with
  | [] => [(k, v)]
  | (k', v') :: o' =>
      if String.eqb k k' then (k', v) :: o' else (k', v') :: set k v o'
  end.

Definition keys (o : object) : list string := map fst o.

(** [Object.fromEntries]. *)
Definition fromEntries (es : list (string * value)) : object :=
  fold_left (fun o e => set (fst e) (snd e) o) es [].

End Obj.

(** [v.k] for a [v] that is neither [null] nor [undefined]; a primitive
    or an array has none of the properties the program reads this way. *)
Definition prop (v : value) (k : string) : value :=
  match v with
  | VObject o => match Obj.get k o with Some x => x | None => VUndefined end
  | _ => VUndefined
  end.

(** The elements an array callback visits, with their indices. *)
Fixpoint present_from {A : Type} (i : nat) (xs : list (option A))
  : list (nat * A) :=
  match xs with
  | [] => []
  | Some x :: xs' => (i, x) :: present_from (S i) xs'
  | None :: xs' => present_from (S i) xs'
  end.

Definition present {A : Type} (xs : list (option A)) : list (nat * A) :=
  present_from 0 xs.

Definition string_of_nat (n : nat) : string :=
  NilEmpty.string_of_uint (Nat.to_uint n).

(** [Object.entries(v)] for a [v] whose [typeof] is ['object'] and that
    is not [null]. *)
Definition entries (v : value) : list (string * value) :=
  match v with
  | VObject o => o
  | VArray xs => map (fun ix => (string_of_nat (fst ix), snd ix)) (present xs)
  | _ => []
  end.

(* ------------------------------------------------------------------ *)
(** ** Data exchanged between the components *)

(** The [{level, hit, latency}] record of a cache access. *)
Module Access.
Record t : Type := mk { level : string; hit : bool; latency : Z }.
End Access.

(** One entry of the pipeline view. *)
Module Stage.
Record t : Type := mk { stage : string; instructions : list object }.
End Stage.

(** A validated timing record: phase name to number, in enumeration
    order. *)
Definition timing_record : Type := list (string * number).

Fixpoint timing_get (k : string) (t : timing_record) : option number :=
  match t with
  | [] => None
  | (k', v) :: t' => if String.eqb k k' then Some v else timing_get k t'
  end.

Fixpoint timing_set (k : string) (v : number) (t : timing_record) : timing_record :=
  match t with
  | [] => [(k, v)]
  | (k', v') :: t' =>
      if String.eqb k k' then (k', v) :: t' else (k', v') :: timing_set k v t'
  end.

(** [Object.fromEntries] on number-valued entries. *)
Definition timing_fromEntries (es : list (string * number)) : timing_record :=
  fold_left (fun t e => timing_set (fst e) (snd e) t) es [].

(** A timing record as the object handed to a method. *)
Definition timing_value (t : timing_record) : value :=
  VObject (map (fun kv => (fst kv, VNumber (snd kv))) t).

Module Anomaly.
Record t : Type := mk { avg : number; std : number; suspicious : bool }.
End Anomaly.

(* ------------------------------------------------------------------ *)
(** ** Errors, events and the method monad *)

(** One constructor per [throw new Error(...)] of the sources; the
    arguments are the values interpolated in the message. *)
Inductive error : Type :=
  | InvalidAddress (level : string) (address : value)
  | PipelineExpectsArray
  | PipelineInstructionShape (idx : nat)
  | PatternName
  | PatternTraining
  | PatternTrigger
  | DefendedFlag
  | ToggleNotBoolean (name : string)
  | FenceAddresses
  | TimingNotObject
  | TimingEmpty
  | TimingNotNumeric (key : string).

(** Calls made to the collaborators: the console, the renderer and the
    logger.  They are recorded, not interpreted. *)
Inductive event : Type :=
  | ConsoleWarn (msg : string)
  | RenderPipeline (view : list Stage.t)
  | RenderCache (snapshot : list (string * list number))
  | RenderTimings (measurements : timing_record) (detection : option Anomaly.t)
  | LoggerInfo (scenario : value) (mispredict : bool).

Inductive outcome (A : Type) : Type :=
  | Return (a : A)
  | Throw (e : error).
Arguments Return {A} a.
Arguments Throw {A} e.

Definition M (S A : Type) : Type := S -> outcome A * S * list event.

Definition ret {S A} (a : A) : M S A := fun s => (Return a, s, []).
Definition throw {S A} (e : error) : M S A := fun s => (Throw e, s, []).
Definition emit {S} (ev : event) : M S unit := fun s => (Return tt, s, [ev]).
Definition get {S} : M S S := fun s => (Return s, s, []).
Definition put {S} (s : S) : M S unit := fun _ => (Return tt, s, []).

Definition bind {S A B} (m : M S A) (k : A -> M S B) : M S B :=
  fun s =>
    match m s with
    | (Return a, s', evs) =>
        let '(r, s'', evs') := k a s' in (r, s'', (evs ++ evs')%list)
    | (Throw e, s', evs) => (Throw e, s', evs)
    end.

(** Runs a method of a component on the part of the state it owns. *)
Definition zoom {S T A} (proj : S -> T) (upd : T -> S -> S)
  (m : M T A) : M S A :=
  fun s => let '(r, t, evs) := m (proj s) in (r, upd t s, evs).

(** A step that reads nothing and may throw. *)
Definition lift {S A} (r : outcome A) : M S A := fun s => (r, s, []).

(** What a run threw, and the state it left. *)
Definition thrown {S A} (r : outcome A * S * list event) : option error :=
  match r with (Throw e, _, _) => Some e | _ => None end.

Definition final {S A} (r : outcome A * S * list event) : S := snd (fst r).

Declare Scope js_scope.
Delimit Scope js_scope with js.
Notation "x <- m ;; k" := (bind m (fun x => k))
  (at level 61, m at next level, right associativity) : js_scope.
Notation "m ;;; k" := (bind m (fun _ => k))
  (at level 61, right associativity) : js_scope.
Local Open Scope js_scope.

(** [xs.map(f)] for an effectful callback, left to right. *)
Fixpoint mapM {S A B} (f : A -> M S B) (xs : list A) : M S (list B) :=
  match xs with
  | [] => ret []
  | x :: xs' => y <- f x ;; ys <- mapM f xs' ;; ret (y :: ys)
  end.

(** The same over an array with holes: a hole stays a hole. *)
Fixpoint mapM_holes {S A B} (f : A -> M S B) (xs : list (option A))
  : M S (list (option B)) :=
  match xs with
  | [] => ret []
  | None :: xs' => ys <- mapM_holes f xs' ;; ret (None :: ys)
  | Some x :: xs' => y <- f x ;; ys <- mapM_holes f xs' ;; ret (Some y :: ys)
  end.

(** Pure steps that may throw, outside any state. *)
Definition obind {A B} (r : outcome A) (k : A -> outcome B) : outcome B :=
  match r with
  | Return a => k a
  | Throw e => Throw e
  end.

(* ------------------------------------------------------------------ *)
(** ** cpuModel.js *)

Definition STAGES : list string := ["fetch"; "decode"; "execute"; "retire"].

(** *** BranchPredictor

    The counter starts at 2 and moves by one inside [[0,3]], so it is
    always a small integer: it is kept as a [Z]. *)
Module BranchPredictor.

Record t : Type := mk { history : list bool; threshold : Z; counter : Z }.

Definition new : t := {| history := []; threshold := 2; counter := 2 |}.

Definition _update (outcome : bool) : M t unit :=
  fun this =>
    let counter' :=
      if outcome then Z.min 3 (counter this + 1)
      else Z.max 0 (counter this - 1) in
    let pushed := (history this ++ [outcome])%list in
    let history' :=
      if (16 <? List.length pushed)%nat then tl pushed else pushed in
    (Return tt,
     {| history := history'; threshold := threshold this;
        counter := counter' |},
     []).

Definition predict (outcome : value) : M t bool :=
  (if negb (is_boolean outcome)
   then emit (ConsoleWarn
     "BranchPredictor.predict called with non-boolean outcome, coercing to boolean")
   else ret tt) ;;;
  let normalizedOutcome := truthy outcome in
  this <- get ;;
  let prediction := threshold this <=? counter this in
  _update normalizedOutcome ;;;
  ret prediction.

Definition getConfidence (this : t) : number :=
  Num.div (num (counter this)) (num 3).

End BranchPredictor.

(** *** CacheLevel

    [lines] is a [Map] from address to the clock reading at insertion.
    No method reads the stored reading, and [snapshot] exports the keys
    only: the model keeps the keys, in insertion order. *)
Module CacheLevel.

Record t : Type :=
  mk { name : string; size : Z; latency : Z; lines : list number }.

Definition new (name : string) (size latency : Z) : t :=
  {| name := name; size := size; latency := latency; lines := [] |}.

(** [Map.prototype.has], [delete] and [set] on the key list.  A [Map]
    compares keys by SameValueZero and keeps the key [-0] as [+0]. *)
Definition has (k : number) (ks : list number) : bool :=
  existsb (Num.same_value_zero k) ks.

Definition key (k : number) : number :=
  match k with
  | S754_zero _ => S754_zero false
  | _ => k
  end.

Fixpoint delete (k : number) (ks : list number) : list number :=
  match ks with
  | [] => []
  | k' :: ks' => if Num.same_value_zero k k' then ks' else k' :: delete k ks'
  end.

Definition set (k : number) (ks : list number) : list number :=
  if has k ks then ks else (ks ++ [key k])%list.

Definition with_lines (this : t) (ks : list number) : t :=
  {| name := name this; size := size this; latency := latency this;
     lines := ks |}.

Definition _insert (address : number) : M t unit :=
  fun this =>
    let evicted :=
      if size this <=? Z.of_nat (List.length (lines this)) then
        match lines this with
        | oldest :: _ => delete oldest (lines this)
        | [] => lines this
        end
      else lines this in
    (Return tt, with_lines this (set address evicted), []).

Definition access (address : value) : M t Access.t :=
  this <- get ;;
  match address with
  | VNumber a =>
      if Num.isNaN a then throw (InvalidAddress (name this) address)
      else
        let hit := has a (lines this) in
        (if negb hit then _insert a else ret tt) ;;;
        this <- get ;;
        ret {| Access.level := name this; Access.hit := hit;
               Access.latency := latency this |}
  | _ => throw (InvalidAddress (name this) address)
  end.

Definition snapshot (this : t) : list number := lines this.

End CacheLevel.

(** *** CacheModel *)
Module CacheModel.

Record t : Type := mk { levels : list CacheLevel.t; missLatency : Z }.

Definition new : t :=
  {| levels := [CacheLevel.new "L1" 8 8; CacheLevel.new "L2" 16 16];
     missLatency := 42 |}.

(** The [for (const level of this.levels)] loop: the result of the first
    level that hits, or [None] when the loop runs to its end. *)
Fixpoint scan (address : value) (lvls : list CacheLevel.t)
  : outcome (option Access.t) * list CacheLevel.t * list event :=
  match lvls with
  | [] => (Return None, [], [])
  | level :: rest =>
      match CacheLevel.access address level with
      | (Return result, level', evs) =>
          if Access.hit result then
            (Return (Some {| Access.level := Access.level result;
                             Access.hit := true;
                             Access.latency := Access.latency result |}),
             level' :: rest, evs)
          else
            let '(r, rest', evs') := scan address rest in
            (r, level' :: rest', (evs ++ evs')%list)
      | (Throw e, level', evs) => (Throw e, level' :: rest, evs)
      end
  end.

Definition access (address : value) : M t Access.t :=
  found <- zoom levels (fun ls this =>
             {| levels := ls; missLatency := missLatency this |})
             (scan address) ;;
  match found with
  | Some result => ret result
  | None =>
      this <- get ;;
      ret {| Access.level := "memory"; Access.hit := false;
             Access.latency := missLatency this |}
  end.

Definition prime (addresses : list (option value))
  : M t (list (option Access.t)) :=
  mapM_holes access addresses.

Definition probe (addresses : list (option value))
  : M t (list (option Access.t)) :=
  mapM_holes access addresses.

Definition snapshot (this : t) : list (string * list number) :=
  map (fun level => (CacheLevel.name level, CacheLevel.snapshot level))
      (levels this).

End CacheModel.

(** *** Pipeline *)
Module Pipeline.

Record t : Type := mk { stages : list string }.

Definition new : t := {| stages := STAGES |}.

(** [v?.k]. *)
Definition opt_prop (v : value) (k : string) : value :=
  match v with
  | VUndefined | VNull => VUndefined
  | _ => prop v k
  end.

(** The validating [forEach]: the first ill-shaped entry throws. *)
Fixpoint check_shape (xs : list (nat * value)) : outcome unit :=
  match xs with
  | [] => Return tt
  | (idx, instruction) :: xs' =>
      if negb (is_string (opt_prop instruction "label"))
         || negb (is_boolean (opt_prop instruction "speculative"))
      then Throw (PipelineInstructionShape idx)
      else check_shape xs'
  end.

(** [{ ...instr, speculative: mispredict && instr.speculative }]. *)
Definition render (mispredict instr : value) : object :=
  Obj.set "speculative" (js_and mispredict (prop instr "speculative"))
          (entries instr).

Definition indexed {A : Type} (xs : list A) : list (nat * A) :=
  combine (seq 0 (List.length xs)) xs.

Definition simulate (instructions mispredict : value) : M t (list Stage.t) :=
  let mispredict :=
    match mispredict with VUndefined => VBool false | _ => mispredict end in
  match instructions with
  | VArray elems =>
      lift (check_shape (present elems)) ;;;
      this <- get ;;
      ret (map (fun '(index, stage) =>
                  {| Stage.stage := stage;
                     Stage.instructions :=
                       map (fun ix => render mispredict (snd ix))
                           (filter (fun ix => Nat.eqb (fst ix) index)
                                   (present elems)) |})
               (indexed (stages this)))
  | _ => throw PipelineExpectsArray
  end.

End Pipeline.

Definition clampTiming (value : number) : number :=
  Num.max (num 20) (Num.min value (num 180)).

Definition instruction (label : string) (speculative : bool) : value :=
  VObject [("label", VString label); ("speculative", VBool speculative)].

Definition buildSpeculativeSequence (branchTaken : value) : value :=
  VArray
    [ Some (instruction "branch" false);
      Some (instruction (if truthy branchTaken then "target load"
                         else "fallthrough")
                        (negb (truthy branchTaken)));
      Some (instruction "dependent read" (negb (truthy branchTaken)));
      Some (instruction "retire" false) ].

(* ------------------------------------------------------------------ *)
(** ** The random source

    [Math.random()] is an oracle: the state is the stream of the readings
    still to come. *)
Module Random.

Definition t : Type := nat -> number.

Definition next : M t number :=
  fun r => (Return (r 0%nat), fun n => r (S n), []).

End Random.

(* ------------------------------------------------------------------ *)
(** ** defence.js *)
Module DefenceToolkit.

Record t : Type := mk { state : object }.

Definition new : t :=
  {| state := [ ("constantTime", VBool true);
                ("jitter", VBool true);
                ("fence", VBool true);
                ("clampTimers", VBool true);
                ("detection", VBool true) ] |}.

Definition _assertBoolean (name : string) (value : value) : outcome unit :=
  if negb (is_boolean value) then Throw (ToggleNotBoolean name)
  else Return tt.

Definition assign (name : string) (value : value) : M t unit :=
  lift (_assertBoolean name value) ;;;
  this <- get ;;
  put {| state := Obj.set name value (state this) |}.

Definition setConstantTime : value -> M t unit := assign "constantTime".
Definition setJitter : value -> M t unit := assign "jitter".
Definition setFence : value -> M t unit := assign "fence".
Definition setClampTimers : value -> M t unit := assign "clampTimers".
Definition setDetection : value -> M t unit := assign "detection".

Definition getState (defended : value) : M t object :=
  this <- get ;;
  let enabled := state this in
  if truthy defended then ret enabled
  else ret (Obj.fromEntries
              (map (fun key => (key, VBool false)) (Obj.keys enabled))).

(** The [state = this.state] default of [applyFence] and
    [applyDefences]. *)
Definition state_or_default (st : option object) : M t object :=
  match st with
  | Some o => ret o
  | None => this <- get ;; ret (state this)
  end.

Definition flag (k : string) (st : object) : bool :=
  match Obj.get k st with Some v => truthy v | None => false end.

Definition _assertAddresses (addresses : value)
  : outcome (list (option value)) :=
  match addresses with
  | VArray elems =>
      if existsb (fun ix => negb (is_numeric (snd ix))) (present elems)
      then Throw FenceAddresses
      else Return elems
  | _ => Throw FenceAddresses
  end.

(** [[...addresses]] reads a hole as [undefined]. *)
Definition spread_array (elems : list (option value)) : list (option value) :=
  map (fun e => match e with
                | Some v => Some v
                | None => Some VUndefined
                end) elems.

Definition applyFence (addresses : value) (st : option object)
  : M t (list (option value)) :=
  st <- state_or_default st ;;
  elems <- lift (_assertAddresses addresses) ;;
  if negb (flag "fence" st) then ret elems
  else ret (spread_array elems).

Fixpoint numeric_entries (es : list (string * value)) : outcome timing_record :=
  match es with
  | [] => Return []
  | (key, VNumber x) :: es' =>
      if Num.isNaN x then Throw (TimingNotNumeric key)
      else obind (numeric_entries es') (fun t => Return ((key, x) :: t))
  | (key, _) :: _ => Throw (TimingNotNumeric key)
  end.

(** Returns the entries, known to be numbers, for the caller to use. *)
Definition _validateTimings (timings : value) : outcome timing_record :=
  if negb (truthy timings) then Throw TimingNotObject
  else
    match typeof timings with
    | TObject =>
        match entries timings with
        | [] => Throw TimingEmpty
        | es => numeric_entries es
        end
    | _ => Throw TimingNotObject
    end.

Definition applyConstantTime (timings : value) : outcome timing_record :=
  obind (_validateTimings timings) (fun es =>
  let max := Num.max_list (map snd es) in
  Return (timing_fromEntries (map (fun kv => (fst kv, clampTiming max)) es))).

Definition _jitter : M Random.t number :=
  r <- Random.next ;;
  ret (Num.sub (Num.floor (Num.mul r (num 10))) (num 5)).

(** [undefined / 2] is [NaN]: reading an absent phase gives
    [undefined]. *)
Definition read_number (v : option number) : number :=
  match v with Some x => x | None => Num.NaN end.

Definition applyDefences (timings : value) (mispredict : bool)
  (st : option object) : M (t * Random.t) timing_record :=
  st <- zoom fst (fun d s => (d, snd s)) (state_or_default st) ;;
  es <- lift (_validateTimings timings) ;;
  jittered <-
    (if flag "jitter" st then
       js <- zoom snd (fun r s => (fst s, r))
               (mapM (fun kv =>
                        j <- _jitter ;;
                        ret (fst kv, clampTiming (Num.add (snd kv) j)))
                     es) ;;
       ret (timing_fromEntries js)
     else ret (timing_fromEntries es)) ;;
  if flag "fence" st && mispredict then
    ret (timing_set "speculate"
           (clampTiming
              (Num.div (read_number (timing_get "speculate" jittered))
                       (num 2)))
           jittered)
  else ret jittered.

(** The toolkit's own [clampTiming]: a coarser timer, not a range. *)
Definition clampTiming (timings : value) : outcome timing_record :=
  obind (_validateTimings timings) (fun es =>
  Return (timing_fromEntries
            (map (fun kv =>
                    (fst kv,
                     Num.mul (Num.round (Num.div (snd kv) (num 5))) (num 5)))
                 es))).

(** [Math.pow(d, 2)] is taken as the product [d * d]. *)
Definition detectAnomaly (timings : value) : outcome Anomaly.t :=
  obind (_validateTimings timings) (fun es =>
  let values := map snd es in
  let n := num (Z.of_nat (List.length values)) in
  let avg := Num.div (fold_left Num.add values (num 0)) n in
  let variance :=
    Num.div (fold_left (fun sum v =>
                          Num.add sum (Num.mul (Num.sub v avg)
                                               (Num.sub v avg)))
                       values (num 0)) n in
  let std := Num.sqrt variance in
  Return {| Anomaly.avg := avg; Anomaly.std := std;
            Anomaly.suspicious := Num.gtb std (num 12) |}).

End DefenceToolkit.

(* ------------------------------------------------------------------ *)
(** ** attack.js *)

Definition branchTrain : value :=
  VObject
    [ ("name", VString "Branch training & mistrain");
      ("description",
       VString "Trains the predictor to take a branch, then flips outcome to model speculative load.");
      ("training",
       VArray [Some (VBool true); Some (VBool true);
               Some (VBool true); Some (VBool true)]);
      ("trigger", VBool false) ].

Definition MOCK_MEMORY : list number :=
  map (fun i => num (Z.of_nat i * 4)) (seq 0 32).

Definition artificialDelay (base jitter : number) : M Random.t number :=
  variance <-
    (if truthy (VNumber jitter) then
       r <- Random.next ;;
       ret (Num.sub (Num.floor (Num.mul r jitter)) (Num.div jitter (num 2)))
     else ret (num 0)) ;;
  ret (clampTiming (Num.add base variance)).

Module ScenarioResult.
Record t : Type := mk {
  summary : string;
  primeResults : list (option Access.t);
  trainingResults : list (option bool);
  mispredict : bool;
  speculativeAccess : Access.t;
  probeResults : list (option Access.t);
  measurements : timing_record;
  detection : option Anomaly.t
}.
End ScenarioResult.

(** The logger handed to the constructor, as far as [run] looks at it:
    [this.logger.info?.(...)] calls [info] when the logger has one and
    makes no call when it has none. *)
Module Logger.
Inductive t : Type := WithInfo | WithoutInfo.
End Logger.

Module AttackSimulator.

(** The simulator owns a cache, a predictor and a pipeline, shares the
    toolkit it was given, keeps the logger it was given, and draws from
    the global random source.  The calls to the renderer and to the
    logger appear as events. *)
Record t : Type := mk {
  defence : DefenceToolkit.t;
  cache : CacheModel.t;
  predictor : BranchPredictor.t;
  pipeline : Pipeline.t;
  random : Random.t;
  logger : Logger.t
}.

(** The constructor; [new] is the constructor with the default logger,
    [console], which has an [info]. *)
Definition construct (defence : DefenceToolkit.t) (logger : Logger.t)
  (random : Random.t) : t :=
  {| defence := defence; cache := CacheModel.new;
     predictor := BranchPredictor.new; pipeline := Pipeline.new;
     random := random; logger := logger |}.

Definition new (defence : DefenceToolkit.t) (random : Random.t) : t :=
  construct defence Logger.WithInfo random.

Definition on_defence {A} : M DefenceToolkit.t A -> M t A :=
  zoom defence (fun d this =>
    {| defence := d; cache := cache this; predictor := predictor this;
       pipeline := pipeline this; random := random this;
       logger := logger this |}).

Definition on_cache {A} : M CacheModel.t A -> M t A :=
  zoom cache (fun c this =>
    {| defence := defence this; cache := c; predictor := predictor this;
       pipeline := pipeline this; random := random this;
       logger := logger this |}).

Definition on_predictor {A} : M BranchPredictor.t A -> M t A :=
  zoom predictor (fun p this =>
    {| defence := defence this; cache := cache this; predictor := p;
       pipeline := pipeline this; random := random this;
       logger := logger this |}).

Definition on_pipeline {A} : M Pipeline.t A -> M t A :=
  zoom pipeline (fun p this =>
    {| defence := defence this; cache := cache this;
       predictor := predictor this; pipeline := p;
       random := random this; logger := logger this |}).

Definition on_random {A} : M Random.t A -> M t A :=
  zoom random (fun r this =>
    {| defence := defence this; cache := cache this;
       predictor := predictor this; pipeline := pipeline this;
       random := r; logger := logger this |}).

Definition on_defence_random {A}
  : M (DefenceToolkit.t * Random.t) A -> M t A :=
  zoom (fun this => (defence this, random this)) (fun dr this =>
    {| defence := fst dr; cache := cache this; predictor := predictor this;
       pipeline := pipeline this; random := snd dr;
       logger := logger this |}).

Definition _validatePattern (pattern : value) : outcome unit :=
  if negb (truthy pattern) || negb (is_string (prop pattern "name"))
  then Throw PatternName
  else
    match prop pattern "training" with
    | VArray elems =>
        if existsb (fun ix => negb (is_boolean (snd ix))) (present elems)
        then Throw PatternTraining
        else if negb (is_boolean (prop pattern "trigger"))
             then Throw PatternTrigger
             else Return tt
    | _ => Throw PatternTraining
    end.

Definition array_elems (v : value) : list (option value) :=
  match v with VArray elems => elems | _ => [] end.

(** [xs[i]]. *)
Definition array_at (xs : list (option value)) (i : nat) : value :=
  match nth_error xs i with
  | Some (Some v) => v
  | _ => VUndefined
  end.

Definition _selectAddresses (count : nat) (defenceState : object)
  : M t (list (option value)) :=
  let slice := firstn count MOCK_MEMORY in
  on_defence
    (DefenceToolkit.applyFence
       (VArray (map (fun a => Some (VNumber a)) slice))
       (Some defenceState)).

(** The body of [run] once the pattern and the flag are validated and
    the active defence state is resolved. *)
Definition scenario (pattern : value) (defenceState : object)
  : M t ScenarioResult.t :=
  let training := array_elems (prop pattern "training") in
  let trigger := prop pattern "trigger" in
  addresses <- _selectAddresses (List.length training + 2) defenceState ;;
  primeResults <- on_cache (CacheModel.prime addresses) ;;
  trainingResults <-
    on_predictor (mapM_holes BranchPredictor.predict training) ;;
  predicted <- on_predictor (BranchPredictor.predict trigger) ;;
  let mispredict :=
    match trigger with
    | VBool actual => negb (Bool.eqb predicted actual)
    | _ => true
    end in
  let speculativeSeq := buildSpeculativeSequence trigger in
  pipelineView <-
    on_pipeline
      (Pipeline.simulate speculativeSeq
         (VBool (mispredict
                 && negb (DefenceToolkit.flag "fence" defenceState)))) ;;
  speculativeAccess <- on_cache (CacheModel.access (array_at addresses 0)) ;;
  probeResults <- on_cache (CacheModel.probe (firstn 4 addresses)) ;;
  let jitter :=
    if DefenceToolkit.flag "jitter" defenceState then num 8 else num 0 in
  prime <- on_random (artificialDelay (num 60) jitter) ;;
  speculate <-
    on_random
      (artificialDelay
         (Num.mul (num (Access.latency speculativeAccess)) (num 2))
         jitter) ;;
  probe <-
    on_random
      (artificialDelay
         (Num.div
            (fold_left
               (fun sum p => Num.add sum (num (Access.latency (snd p))))
               (present probeResults) (num 0))
            (num (Z.of_nat (List.length probeResults))))
         jitter) ;;
  let baseTiming :=
    timing_value [("prime", prime); ("speculate", speculate);
                  ("probe", probe)] in
  timings <-
    (if DefenceToolkit.flag "constantTime" defenceState
     then lift (DefenceToolkit.applyConstantTime baseTiming)
     else on_defence_random
            (DefenceToolkit.applyDefences baseTiming mispredict
               (Some defenceState))) ;;
  measurements <-
    (if DefenceToolkit.flag "clampTimers" defenceState
     then lift (DefenceToolkit.clampTiming (timing_value timings))
     else ret timings) ;;
  detection <-
    (if DefenceToolkit.flag "detection" defenceState
     then d <- lift (DefenceToolkit.detectAnomaly (timing_value measurements)) ;;
          ret (Some d)
     else ret None) ;;
  emit (RenderPipeline pipelineView) ;;;
  this <- get ;;
  emit (RenderCache (CacheModel.snapshot (cache this))) ;;;
  emit (RenderTimings measurements detection) ;;;
  match logger this with
  | Logger.WithInfo => emit (LoggerInfo (prop pattern "name") mispredict)
  | Logger.WithoutInfo => ret tt
  end ;;;
  ret {| ScenarioResult.summary :=
           if mispredict then "Speculative path observed"
           else "No speculation observed";
         ScenarioResult.primeResults := primeResults;
         ScenarioResult.trainingResults := trainingResults;
         ScenarioResult.mispredict := mispredict;
         ScenarioResult.speculativeAccess := speculativeAccess;
         ScenarioResult.probeResults := probeResults;
         ScenarioResult.measurements := measurements;
         ScenarioResult.detection := detection |}.

(** [run]: a [Return] is the resolved promise, a [Throw] the rejected
    one.  An omitted or [undefined] [defended] takes the default
    [false]. *)
Definition run (pattern defended : value) : M t ScenarioResult.t :=
  lift (_validatePattern pattern) ;;;
  let defended :=
    match defended with VUndefined => VBool false | _ => defended end in
  if negb (is_boolean defended) then throw DefendedFlag
  else
    defenceState <- on_defence (DefenceToolkit.getState defended) ;;
    scenario pattern defenceState.

End AttackSimulator.

(* ------------------------------------------------------------------ *)
(** * The vocabulary of the statements

    The states, histories and readings the theorems speak about.  Where
    the code departs from a sentence of the specification, the sentence
    is kept as a named proposition (a reading), refuted at an input, and
    followed by the statement that holds. *)

(** ** BranchPredictor *)

Section PredictorTerms.

Import BranchPredictor.

(** The history after one more outcome: the outcome goes last, and the
    oldest entry leaves once there are more than sixteen. *)
Definition remembered (h : list bool) (b : bool) : list bool :=
  if (List.length h <? 16)%nat then (h ++ [b])%list
  else (tl h ++ [b])%list.

(** What [predict] tells the console. *)
Definition coercion_warning (outcome : value) : list event :=
  if is_boolean outcome then []
  else [ConsoleWarn
     "BranchPredictor.predict called with non-boolean outcome, coercing to boolean"].

(** The invariant of the predictor. *)
Definition predictor_ok (this : t) : Prop :=
  threshold this = 2 /\ 0 <= counter this <= 3
  /\ (List.length (history this) <= 16)%nat.

End PredictorTerms.

(** ** DefenceToolkit: toggles *)

Section ToggleTerms.

Import DefenceToolkit.

Inductive toggle : Type :=
  | ConstantTime | Jitter | Fence | ClampTimers | Detection.

Definition setter (g : toggle) : value -> M t unit :=
  match g with
  | ConstantTime => setConstantTime
  | Jitter => setJitter
  | Fence => setFence
  | ClampTimers => setClampTimers
  | Detection => setDetection
  end.

Definition toggle_eqb (g h : toggle) : bool :=
  match g, h with
  | ConstantTime, ConstantTime | Jitter, Jitter | Fence, Fence
  | ClampTimers, ClampTimers | Detection, Detection => true
  | _, _ => false
  end.

(** A history of setter calls with arbitrary arguments; a call that
    throws is survived by the toolkit, which goes on from the state the
    call left. *)
Fixpoint after (calls : list (toggle * value)) (this : t) : t :=
  match calls with
  | [] => this
  | (g, v) :: rest => after rest (final (setter g v this))
  end.

(** What the history leaves in a toggle: the last boolean it was given,
    or its initial value. *)
Fixpoint setting (g : toggle) (calls : list (toggle * value)) (init : bool)
  : bool :=
  match calls with
  | [] => init
  | (h, VBool b) :: rest =>
      setting g rest (if toggle_eqb g h then b else init)
  | _ :: rest => setting g rest init
  end.

(** The state object with the five recognised keys. *)
Definition toggles (c j f k d : bool) : object :=
  [ ("constantTime", VBool c); ("jitter", VBool j); ("fence", VBool f);
    ("clampTimers", VBool k); ("detection", VBool d) ].

End ToggleTerms.

(** ** Pipeline *)

Section PipelineTerms.

Import Pipeline.

(** An entry of a valid instruction list: present, with a string label
    and a boolean speculative flag. *)
Definition well_shaped (e : option value) : Prop :=
  exists v label speculative,
    e = Some v /\ prop v "label" = VString label
    /\ prop v "speculative" = VBool speculative.

Definition speculative_flag (v : value) : bool :=
  match prop v "speculative" with VBool b => b | _ => false end.

(** What a stage shows: the instruction at its index, if any, with the
    flag recomputed. *)
Definition slot (elems : list (option value)) (mispredict : bool) (i : nat)
  : list object :=
  match nth_error elems i with
  | Some (Some v) =>
      [Obj.set "speculative" (VBool (mispredict && speculative_flag v))
               (entries v)]
  | _ => []
  end.

End PipelineTerms.

(** ** Cache hierarchy *)

Section CacheTerms.

Import CacheLevel.

(** The key list of a level after a miss on [a]: the oldest key leaves
    first when the level is full, and [a] goes last, as the key the
    [Map] keeps for it ([+0] for [-0]). *)
Definition installed (size : Z) (a : number) (ks : list number)
  : list number :=
  ((if size <=? Z.of_nat (List.length ks) then tl ks else ks)
   ++ [key a])%list.

(** A hierarchy as the constructor builds it, holding the given keys.
    Accesses change the key lists and nothing else, so every state of a
    [CacheModel] has this form. *)
Definition hierarchy (l1 l2 : list number) : CacheModel.t :=
  {| CacheModel.levels := [ mk "L1" 8 8 l1; mk "L2" 16 16 l2 ];
     CacheModel.missLatency := 42 |}.

Definition memory_miss : Access.t := Access.mk "memory" false 42.

(** The hit of the first level, L1 before L2, that holds [a]. *)
Definition first_hit (l1 : list number) (a : number) : Access.t :=
  if has a l1 then Access.mk "L1" true 8 else Access.mk "L2" true 16.

Definition finite_number (v : value) : bool :=
  match v with VNumber x => Num.isFinite x | _ => false end.

(** The reading under which a full miss writes to L1 alone. *)
Definition miss_installs_in_L1_only (l1 l2 : list number) (a : number)
  : Prop :=
  Num.isFinite a = true -> has a l1 = false -> has a l2 = false ->
  CacheModel.access (VNumber a) (hierarchy l1 l2) =
    (Return memory_miss, hierarchy (installed 8 a l1) l2, []).

(** The reading under which a hit changes no level. *)
Definition hit_changes_no_level (l1 l2 : list number) (a : number) : Prop :=
  Num.isFinite a = true -> has a l1 || has a l2 = true ->
  CacheModel.access (VNumber a) (hierarchy l1 l2) =
    (Return (first_hit l1 a), hierarchy l1 l2, []).

(** The reading under which exactly the finite numbers are accepted. *)
Definition rejects_all_but_finite (l1 l2 : list number) (v : value) : Prop :=
  (thrown (CacheModel.access v (hierarchy l1 l2)) <> None
   <-> finite_number v = false)
  /\ (thrown (CacheModel.access v (hierarchy l1 l2)) <> None ->
      final (CacheModel.access v (hierarchy l1 l2)) = hierarchy l1 l2).

End CacheTerms.

(** ** AttackSimulator *)

Section RunnerTerms.

Import AttackSimulator.

(** Reading a field of the pattern, whatever the pattern is. *)
Definition field (pattern : value) (k : string) : value :=
  Pipeline.opt_prop pattern k.

Definition nonempty_string (v : value) : bool :=
  match v with
  | VString s => negb (String.eqb s "")
  | _ => false
  end.

Definition array_of_booleans (v : value) : bool :=
  match v with
  | VArray elems =>
      forallb (fun e => match e with
                        | Some (VBool _) => true
                        | _ => false
                        end) elems
  | _ => false
  end.

(** The malformed patterns as the specification lists them. *)
Definition malformed_as_stated (pattern : value) : bool :=
  negb (nonempty_string (field pattern "name"))
  || negb (array_of_booleans (field pattern "training"))
  || negb (is_boolean (field pattern "trigger")).

(** The promise is rejected and nothing has moved: neither the cache nor
    the predictor, nor any other part of the simulator, and no
    collaborator was called. *)
Definition rejected_untouched (pattern defended : value) (sim : t) : Prop :=
  exists e, run pattern defended sim = (Throw e, sim, []).

(** The reading under which every such pattern, and every flag that is
    not a boolean, is rejected with the simulator untouched. *)
Definition rejects_as_stated (pattern defended : value) (sim : t) : Prop :=
  malformed_as_stated pattern || negb (is_boolean defended) = true ->
  rejected_untouched pattern defended sim.

(** A simulator as its constructor leaves it, around a new toolkit. *)
Definition fresh : t := new DefenceToolkit.new (fun _ => num 0).

Definition booleans_where_present (v : value) : bool :=
  match v with
  | VArray elems =>
      forallb (fun e => match e with
                        | Some x => is_boolean x
                        | None => true
                        end) elems
  | _ => false
  end.

(** The malformed patterns as the code sees them. *)
Definition malformed (pattern : value) : bool :=
  negb (is_string (field pattern "name"))
  || negb (booleans_where_present (field pattern "training"))
  || negb (is_boolean (field pattern "trigger")).

(** A [defended] that is neither a boolean nor left out. *)
Definition bad_flag (defended : value) : bool :=
  match defended with
  | VBool _ | VUndefined => false
  | _ => true
  end.

End RunnerTerms.

(** ** Timing records *)

(** The mantissa of 5 as a binary64 number. *)
Definition five_mantissa : positive := 5629499534213120.

(** A record with no [speculate] phase, and a state with the one toggle
    the fence adjustment needs. *)
Definition prime_only : timing_record := [("prime", num 50)].
Definition fence_on : object := toggles false false true false false.

(** [Math.round(v / 5) * 5]. *)
Definition coarsened (v : number) : number :=
  Num.mul (Num.round (Num.div v (num 5))) (num 5).

Definition all_finite (t : timing_record) : Prop :=
  Forall (fun kv => Num.isFinite (snd kv) = true) t.

(** A valid timing record: at least one entry, every value finite. *)
Definition valid_record (es : timing_record) : Prop :=
  es <> [] /\ all_finite es.

(** The reading under which the toolkit's [clampTiming] both coarsens
    and bounds. *)
Definition coarsens_into_range (es : timing_record) : Prop :=
  valid_record es ->
  exists out,
    DefenceToolkit.clampTiming (timing_value es) = Return out
    /\ Forall (fun kv => Num.multiple_of 5 (snd kv) = true
                         /\ Num.within 20 180 (snd kv) = true) out.

(** A random source none of whose readings is NaN. *)
Definition never_NaN (rnd : Random.t) : Prop :=
  forall n, Num.isNaN (rnd n) = false.

(** The nearest multiple of 5 of a whole number; a tie cannot occur. *)
Definition nearest5 (z : Z) : Z := 5 * ((z + 2) / 5).

(** Bit-for-bit equality of two numbers. *)
Definition identical (x y : number) : bool :=
  match x, y with
  | S754_zero s, S754_zero s' => Bool.eqb s s'
  | S754_infinity s, S754_infinity s' => Bool.eqb s s'
  | S754_nan, S754_nan => true
  | S754_finite s m e, S754_finite s' m' e' =>
      Bool.eqb s s' && Pos.eqb m m' && Z.eqb e e'
  | _, _ => false
  end.

(** Checked for each whole number of [[4,36]]: its product by 5 is
    exact, a multiple of 5, and within [[20,180]]. *)
Definition five_times_exact (t : Z) : bool :=
  identical (Num.mul (num t) (num 5)) (num (5 * t))
  && Num.multiple_of 5 (num (5 * t))
  && Num.within 20 180 (num (5 * t)).

(** Checked for each whole number from 0 to 1000: the binary64 result
    is exactly the nearest multiple of 5. *)
Definition coarsens_exactly (z : Z) : bool :=
  identical (coarsened (num z)) (num (nearest5 z)).

(** Evaluates the powers of two that have a literal exponent. *)
Ltac literal_powers :=
  repeat match goal with
         | |- context [2 ^ ?k] =>
             let k' := eval vm_compute in k in
             lazymatch k' with
             | Zpos _ =>
                 let v := eval vm_compute in (2 ^ k') in
                 change (2 ^ k) with v
             end
         end.

(** Bounds a quotient by a literal power of two from bounds on its
    numerator. *)
Ltac whole_between :=
  literal_powers;
  split;
  [ apply Z.div_le_lower_bound; lia
  | apply Z.lt_succ_r; apply Z.div_lt_upper_bound; lia ].

(* ------------------------------------------------------------------ *)
(** * The vocabulary of the further properties *)

(** The last [n] elements of a list. *)
Definition lastn {A : Type} (n : nat) (l : list A) : list A :=
  skipn (List.length l - n) l.

(** ** BranchPredictor *)

(** What the predictor would answer now: [counter >= threshold]. *)
Definition predicts (this : BranchPredictor.t) : bool :=
  BranchPredictor.threshold this <=? BranchPredictor.counter this.

(** The predictor after one more call of [predict], and after a
    sequence of calls. *)
Definition learn (this : BranchPredictor.t) (outcome : value)
  : BranchPredictor.t :=
  final (BranchPredictor.predict outcome this).

Definition trained (outcomes : list value) (this : BranchPredictor.t)
  : BranchPredictor.t :=
  fold_left learn outcomes this.

(** ** Cache hierarchy *)

(** An array of numeric addresses, without holes. *)
Definition numeric_addresses (addresses : list number) : list (option value) :=
  map (fun a => Some (VNumber a)) addresses.

(** The cache after a sequence of [access] calls, whether a call
    returns or throws. *)
Definition touched (addresses : list value) (this : CacheModel.t)
  : CacheModel.t :=
  fold_left (fun m v => final (CacheModel.access v m)) addresses this.

(** No key of the list is the key of a later entry. *)
Fixpoint duplicate_free (ks : list number) : Prop :=
  match ks with
  | [] => True
  | k :: rest => CacheLevel.has k rest = false /\ duplicate_free rest
  end.

(** Each address is new when its turn comes: it is neither among the
    addresses seen before nor among the earlier ones of the list. *)
Fixpoint fresh_in (seen addresses : list number) : Prop :=
  match addresses with
  | [] => True
  | a :: rest =>
      CacheLevel.has a seen = false /\ fresh_in (seen ++ [a]) rest
  end.

(** An element of an address array that [access] accepts, or a hole. *)
Definition numeric_or_hole (e : option value) : Prop :=
  match e with
  | Some v => is_numeric v = true
  | None => True
  end.

(** ** Pipeline *)

(** An entry that the validating loop passes: a hole, which [forEach]
    does not visit, or a well-shaped instruction. *)
Definition hole_or_shaped (e : option value) : Prop :=
  e = None \/ well_shaped e.

(** The test that makes [simulate] throw. *)
Definition ill_shaped (v : value) : bool :=
  negb (is_string (Pipeline.opt_prop v "label"))
  || negb (is_boolean (Pipeline.opt_prop v "speculative")).

(** An instruction as a stage shows it. *)
Definition shown (label : string) (speculative : bool) : object :=
  [("label", VString label); ("speculative", VBool speculative)].

(** ** Timing records *)

(** The keys of a record are pairwise different, as the keys of an
    object are. *)
Definition distinct_keys (es : timing_record) : Prop :=
  NoDup (map fst es).

Definition in_range (t : timing_record) : Prop :=
  Forall (fun kv => Num.within 20 180 (snd kv) = true) t.

(** The random source after [n] readings. *)
Fixpoint drained (n : nat) (rnd : Random.t) : Random.t :=
  match n with
  | O => rnd
  | S n' => drained n' (fun i => rnd (S i))
  end.

(** A record of whole numbers. *)
Definition whole_record (zs : list (string * Z)) : timing_record :=
  map (fun kz => (fst kz, num (snd kz))) zs.

(** An object some of whose entries is not a number: [good] are
    numbers, [bad] is the first value that is not. *)
Definition first_bad_entry (good : timing_record) (key : string)
  (bad : value) (rest : object) : value :=
  VObject (map (fun kv => (fst kv, VNumber (snd kv))) good
           ++ (key, bad) :: rest)%list.

(** ** AttackSimulator *)

(** The elements of an array that a callback visits, in order. *)
Fixpoint visited (elems : list (option value)) : list value :=
  match elems with
  | [] => []
  | Some v :: rest => v :: visited rest
  | None :: rest => visited rest
  end.

(** A simulator in a state that its constructor and its methods
    produce: the cache is a two-level hierarchy, the predictor keeps its
    invariant, the toolkit holds its five toggles, and the random source
    never yields NaN. *)
Definition usable (sim : AttackSimulator.t) : Prop :=
  (exists l1 l2, AttackSimulator.cache sim = hierarchy l1 l2)
  /\ predictor_ok (AttackSimulator.predictor sim)
  /\ (exists c j f k d,
        AttackSimulator.defence sim
        = DefenceToolkit.mk (toggles c j f k d))
  /\ never_NaN (AttackSimulator.random sim).

(** The training outcomes and the trigger of a pattern. *)
Definition training_of (pattern : value) : list value :=
  visited (AttackSimulator.array_elems (prop pattern "training")).

Definition trigger_of (pattern : value) : value := prop pattern "trigger".

(** The calls a completed run makes to its collaborators, in order. *)
Definition rendering (pattern : value) (result : ScenarioResult.t)
  (sim : AttackSimulator.t) (events : list event) : Prop :=
  exists view,
    events =
    ([ RenderPipeline view;
       RenderCache (CacheModel.snapshot (AttackSimulator.cache sim));
       RenderTimings (ScenarioResult.measurements result)
                     (ScenarioResult.detection result) ]
     ++ match AttackSimulator.logger sim with
        | Logger.WithInfo =>
            [ LoggerInfo (prop pattern "name")
                         (ScenarioResult.mispredict result) ]
        | Logger.WithoutInfo => []
        end)%list.

(** A cache result as [access] produces them on a valid address. *)
Definition served (e : option Access.t) : Prop :=
  exists r, e = Some r /\ In (Access.latency r) [8; 16; 42].

(** Checked for each partial sum of at most three latencies: adding one
    more latency is exact. *)
Definition sums_exactly (s : Z) : bool :=
  forallb (fun l => identical (Num.add (num s) (num l)) (num (s + l)))
          [8; 16; 42].

(** Checked for each sum of at most four latencies: its average over
    one to four probes is finite. *)
Definition average_is_finite (s : Z) : bool :=
  forallb (fun n => Num.isFinite (Num.div (num s) (num n))) [1; 2; 3; 4].

(** What a run measures before any defence is applied. *)
Definition baseTiming (result : ScenarioResult.t) : timing_record :=
  [ ("prime", num 60);
    ("speculate",
     clampTiming
       (Num.mul (num (Access.latency
                        (ScenarioResult.speculativeAccess result)))
                (num 2)));
    ("probe",
     clampTiming
       (Num.div
          (fold_left
             (fun sum p => Num.add sum (num (Access.latency (snd p))))
             (present (ScenarioResult.probeResults result)) (num 0))
          (num (Z.of_nat
                  (List.length (ScenarioResult.probeResults result)))))) ].

(** Whether a run is asked to apply the defences, and the toggles it
    then works with: those of the toolkit when defended, all off
    otherwise. *)
Definition defended_on (defended : value) : bool :=
  match defended with VBool true => true | _ => false end.

Definition active (defended : value) (sim : AttackSimulator.t)
  (key : string) : bool :=
  defended_on defended
  && DefenceToolkit.flag key
       (DefenceToolkit.state (AttackSimulator.defence sim)).

(** What a completed run leaves and reports. *)
Definition completes (pattern defended : value) (sim : AttackSimulator.t)
  (result : ScenarioResult.t) (sim' : AttackSimulator.t)
  (events : list event) : Prop :=
  AttackSimulator.run pattern defended sim = (Return result, sim', events)
  /\ rendering pattern result sim' events
  /\ AttackSimulator.defence sim' = AttackSimulator.defence sim
  /\ (AttackSimulator.pipeline sim' = AttackSimulator.pipeline sim
      /\ AttackSimulator.logger sim' = AttackSimulator.logger sim)
  /\ (exists l1' l2', AttackSimulator.cache sim' = hierarchy l1' l2')
  /\ AttackSimulator.predictor sim'
     = trained (training_of pattern ++ [trigger_of pattern])
               (AttackSimulator.predictor sim)
  /\ AttackSimulator.random sim'
     = drained (if active defended sim "jitter"
                then (if active defended sim "constantTime" then 3 else 6)
                else 0)%nat
               (AttackSimulator.random sim)
  /\ ScenarioResult.mispredict result
     = negb (Bool.eqb
               (predicts (trained (training_of pattern)
                                  (AttackSimulator.predictor sim)))
               (truthy (trigger_of pattern)))
  /\ ScenarioResult.summary result
     = (if ScenarioResult.mispredict result
        then "Speculative path observed" else "No speculation observed")
  /\ List.length (ScenarioResult.primeResults result)
     = Nat.min (List.length (AttackSimulator.array_elems
                               (prop pattern "training")) + 2) 32
  /\ List.length (ScenarioResult.trainingResults result)
     = List.length (AttackSimulator.array_elems (prop pattern "training"))
  /\ map fst (ScenarioResult.measurements result)
     = ["prime"; "speculate"; "probe"]
  /\ Forall (fun kv => Num.isNaN (snd kv) = false)
            (ScenarioResult.measurements result)
  /\ (ScenarioResult.detection result = None
      <-> active defended sim "detection" = false)
  /\ (active defended sim "constantTime" = false ->
      active defended sim "jitter" = false ->
      active defended sim "clampTimers" = false ->
      active defended sim "fence" && ScenarioResult.mispredict result
      = false ->
      ScenarioResult.measurements result = baseTiming result).

(** ** Whole numbers in binary64 *)

(** The number [m * 2^e] is the whole number [z]. *)
Definition denotes (m e z : Z) : Prop :=
  (0 <= e /\ z = m * 2 ^ e) \/ (e < 0 /\ m = z * 2 ^ (- e)).

Definition with_sign (s : bool) (z : Z) : Z := if s then - z else z.

(** A binary64 number between [-2^50] and [2^50]. *)
Definition moderate (v : number) : Prop :=
  valid_binary Num.prec Num.emax v = true
  /\ Num.within (- 2 ^ 50) (2 ^ 50) v = true.

(* ------------------------------------------------------------------ *)
(** * Properties *)

(** ** The repository's tests, replayed on the model

    Each case of [tests/simulator.test.js] as an evaluation. *)

Section Tests.

Example test_increases_confidence :
  let run :=
    (p1 <- BranchPredictor.predict (VBool true) ;;
     p2 <- BranchPredictor.predict (VBool true) ;;
     p3 <- BranchPredictor.predict (VBool true) ;;
     ret [p1; p2; p3]) BranchPredictor.new in
  run = (Return [true; true; true],
         BranchPredictor.mk [true; true; true] 2 3, [])
  /\ Num.leb (Num.div (num 66) (num 100))
             (BranchPredictor.getConfidence (final run)) = true.
Proof. vm_compute. repeat split. Qed.

Example test_throws_when_not_an_array :
  Pipeline.simulate (VString "bad input") VUndefined Pipeline.new
  = (Throw PipelineExpectsArray, Pipeline.new, []).
Proof. vm_compute. reflexivity. Qed.

Example test_rejects_instructions_missing_shape :
  Pipeline.simulate (VArray [Some (VObject [])]) VUndefined Pipeline.new
  = (Throw (PipelineInstructionShape 0), Pipeline.new, []).
Proof. vm_compute. reflexivity. Qed.

Example test_records_hits_after_first_access :
  (miss <- CacheModel.access (VNumber (num 1)) ;;
   hit <- CacheModel.access (VNumber (num 1)) ;;
   ret (Access.hit miss, Access.hit hit)) CacheModel.new
  = (Return (false, true),
     CacheModel.mk [ CacheLevel.mk "L1" 8 8 [num 1];
                     CacheLevel.mk "L2" 16 16 [num 1] ] 42, []).
Proof. vm_compute. reflexivity. Qed.

Example test_rejects_invalid_addresses :
  CacheModel.access (VString "invalid") CacheModel.new
  = (Throw (InvalidAddress "L1" (VString "invalid")), CacheModel.new, []).
Proof. vm_compute. reflexivity. Qed.

Example test_disables_all_protections_in_baseline_mode :
  (DefenceToolkit.setDetection (VBool true) ;;;
   DefenceToolkit.getState (VBool false)) DefenceToolkit.new
  = (Return [ ("constantTime", VBool false); ("jitter", VBool false);
              ("fence", VBool false); ("clampTimers", VBool false);
              ("detection", VBool false) ],
     DefenceToolkit.new, []).
Proof. vm_compute. reflexivity. Qed.

Example test_validates_addresses_for_fences :
  (st <- DefenceToolkit.getState (VBool true) ;;
   DefenceToolkit.applyFence (VArray [Some (VString "bad")]) (Some st))
    DefenceToolkit.new
  = (Throw FenceAddresses, DefenceToolkit.new, []).
Proof. vm_compute. reflexivity. Qed.

Example test_respects_state_when_applying_defences (rnd : Random.t) :
  let timings := [("prime", num 50); ("speculate", num 70);
                  ("probe", num 55)] in
  let noJitterState :=
    Obj.set "fence" (VBool false)
      (Obj.set "jitter" (VBool false)
         (DefenceToolkit.state DefenceToolkit.new)) in
  DefenceToolkit.applyDefences (timing_value timings) true
    (Some noJitterState) (DefenceToolkit.new, rnd)
  = (Return timings, (DefenceToolkit.new, rnd), []).
Proof. vm_compute. reflexivity. Qed.

Example test_applies_constant_time_timing :
  DefenceToolkit.applyConstantTime
    (timing_value [("a", num 10); ("b", num 40); ("c", num 30)])
  = Return [("a", num 40); ("b", num 40); ("c", num 40)].
Proof. vm_compute. reflexivity. Qed.

Example test_clamps_timing_to_safe_bounds :
  clampTiming (num 10) = num 20 /\ clampTiming (num 400) = num 180.
Proof. vm_compute. split; reflexivity. Qed.

Example test_rejects_non_boolean_toggle_input :
  DefenceToolkit.setFence (VString "nope") DefenceToolkit.new
  = (Throw (ToggleNotBoolean "fence"), DefenceToolkit.new, []).
Proof. vm_compute. reflexivity. Qed.

Example test_rejects_malformed_patterns :
  AttackSimulator.run
    (VObject [("name", VString "oops"); ("training", VString "bad");
              ("trigger", VBool true)])
    VUndefined fresh
  = (Throw PatternTraining, fresh, []).
Proof. vm_compute. reflexivity. Qed.

(** [Math.random = () => 0.4]. *)
Example test_disables_detection_for_baseline_runs :
  let source : Random.t := fun _ => Num.div (num 4) (num 10) in
  let result :=
    AttackSimulator.run branchTrain (VBool false)
      (AttackSimulator.new DefenceToolkit.new source) in
  thrown result = None
  /\ match result with
     | (Return r, _, _) => ScenarioResult.detection r = None
     | _ => False
     end.
Proof. vm_compute. split; reflexivity. Qed.

End Tests.

(** ** Objects and arrays *)

Lemma get_set_same (k : string) (v : value) (o : object) :
  Obj.get k (Obj.set k v o) = Some v.
Proof.
  induction o as [|[k' v'] o IH]; simpl.
  - now rewrite String.eqb_refl.
  - destruct (String.eqb k k') eqn:E; simpl; rewrite E; auto.
Qed.

Lemma get_set_other (k k' : string) (v : value) (o : object) :
  k <> k' -> Obj.get k (Obj.set k' v o) = Obj.get k o.
Proof.
  intros Hne. induction o as [|[k0 v0] o IH]; simpl.
  - destruct (String.eqb k k') eqn:E; auto.
    apply String.eqb_eq in E. contradiction.
  - destruct (String.eqb k' k0) eqn:E'; simpl.
    + apply String.eqb_eq in E'. subst k0.
      destruct (String.eqb k k') eqn:E; auto.
      apply String.eqb_eq in E. contradiction.
    + now rewrite IH.
Qed.

(** The callback of [filter((_, idx) => idx === index)] keeps the element
    at [index], if the array has one there. *)
Lemma filter_index {A : Type} (xs : list (option A)) (k index : nat) :
  (k <= index)%nat ->
  filter (fun ix => Nat.eqb (fst ix) index) (present_from k xs) =
  match nth_error xs (index - k) with
  | Some (Some x) => [(index, x)]
  | _ => []
  end.
Proof.
  revert k. induction xs as [|x xs IH]; intros k Hk.
  - simpl. now destruct (index - k)%nat.
  - destruct (Nat.eq_dec k index) as [->|Hne].
    + rewrite Nat.sub_diag. simpl.
      assert (Hlater : forall (ys : list (option A)) (j : nat),
                 (index < j)%nat ->
                 filter (fun ix => Nat.eqb (fst ix) index)
                        (present_from j ys) = []).
      { induction ys as [|y ys IHy]; intros j Hj; simpl; auto.
        destruct y; simpl; auto.
        destruct (Nat.eqb_spec j index); [lia|]. apply IHy. lia. }
      destruct x; simpl.
      * rewrite Nat.eqb_refl. now rewrite Hlater by lia.
      * apply Hlater. lia.
    + replace (index - k)%nat with (S (index - S k)) by lia. simpl.
      destruct x; simpl.
      * destruct (Nat.eqb_spec k index); [contradiction|].
        apply IH. lia.
      * apply IH. lia.
Qed.

(* ------------------------------------------------------------------ *)
(** ** BranchPredictor *)

Section Predictor.

Import BranchPredictor.

Lemma remembered_last (h : list bool) (b : bool) :
  last (remembered h b) (negb b) = b.
Proof.
  unfold remembered. destruct (List.length h <? 16)%nat; apply last_last.
Qed.

Lemma push_shift (h : list bool) (b : bool) :
  (if (16 <? List.length (h ++ [b]))%nat then tl (h ++ [b]) else (h ++ [b])%list)
  = remembered h b.
Proof.
  unfold remembered. rewrite length_app. simpl.
  destruct (Nat.ltb_spec (List.length h) 16);
    destruct (Nat.ltb_spec 16 (List.length h + 1)); try lia; auto.
  destruct h; simpl in *; [lia | reflexivity].
Qed.

Lemma predict_eq (this : t) (outcome : value) :
  predict outcome this =
    (Return (threshold this <=? counter this),
     {| history := remembered (history this) (truthy outcome);
        threshold := threshold this;
        counter := if truthy outcome then Z.min 3 (counter this + 1)
                   else Z.max 0 (counter this - 1) |},
     coercion_warning outcome).
Proof.
  unfold predict, bind, get, ret, emit, _update, coercion_warning.
  destruct (is_boolean outcome); simpl; rewrite push_shift; reflexivity.
Qed.

(** C7. For every input value and every predictor state (with the
    threshold 2 the constructor sets), [predict] returns, without
    throwing, whether the counter before the call was at least 2; the
    counter then goes up by one, capped at 3, when the outcome is truthy
    and down by one, floored at 0, otherwise; the outcome normalised to a
    boolean is appended to the bounded history. *)
Theorem predict_reports_prior_counter (this : t) (outcome : value) :
  threshold this = 2 ->
  exists warnings,
    predict outcome this =
      (Return (2 <=? counter this),
       {| history := remembered (history this) (truthy outcome);
          threshold := 2;
          counter := if truthy outcome then Z.min 3 (counter this + 1)
                     else Z.max 0 (counter this - 1) |},
       warnings)
    /\ last (history (final (predict outcome this))) (negb (truthy outcome))
       = truthy outcome.
Proof.
  intros Hthr. exists (coercion_warning outcome).
  rewrite predict_eq, Hthr. split; [reflexivity|].
  unfold final. simpl. apply remembered_last.
Qed.

Lemma predict_reports_prior_counter_witness :
  threshold new = 2 /\
  exists warnings,
    predict (VString "taken") new =
      (Return true, {| history := [true]; threshold := 2; counter := 3 |},
       warnings).
Proof.
  split; [reflexivity|].
  destruct (predict_reports_prior_counter new (VString "taken") eq_refl)
    as [w [E _]].
  exists w. exact E.
Defined.

Lemma predictor_ok_new : predictor_ok new.
Proof. unfold predictor_ok; simpl; lia. Qed.

Lemma predictor_ok_step (this : t) (outcome : value) :
  predictor_ok this -> predictor_ok (final (predict outcome this)).
Proof.
  intros (Ht & Hc & Hh).
  rewrite predict_eq. unfold final, predictor_ok; simpl.
  split; [exact Ht|]. split.
  - destruct (truthy outcome); lia.
  - unfold remembered.
    destruct (Nat.ltb_spec (List.length (history this)) 16);
      rewrite length_app; simpl; [lia|].
    destruct (history this); simpl in *; lia.
Qed.

End Predictor.

(* ------------------------------------------------------------------ *)
(** ** DefenceToolkit: toggles and the baseline view *)

Section Toggles.

Import DefenceToolkit.

Lemma after_toggles (calls : list (toggle * value)) (c j f k d : bool) :
  after calls {| state := toggles c j f k d |} =
  {| state := toggles (setting ConstantTime calls c) (setting Jitter calls j)
                      (setting Fence calls f) (setting ClampTimers calls k)
                      (setting Detection calls d) |}.
Proof.
  revert c j f k d.
  induction calls as [|[g v] calls IH]; intros c j f k d; [reflexivity|].
  destruct v; destruct g; simpl; apply IH.
Qed.

Lemma after_new (calls : list (toggle * value)) :
  after calls new =
  {| state := toggles (setting ConstantTime calls true)
                      (setting Jitter calls true)
                      (setting Fence calls true)
                      (setting ClampTimers calls true)
                      (setting Detection calls true) |}.
Proof. apply (after_toggles calls true true true true true). Qed.

(** C8. After any history of setter calls, [getState(false)] returns the
    five recognised keys all false and leaves the toolkit as it was: a
    [getState(true)] that follows returns the toggles as the history set
    them. *)
Theorem baseline_view_is_all_off (calls : list (toggle * value)) :
  let this := after calls new in
  getState (VBool false) this =
    (Return (toggles false false false false false), this, [])
  /\ (baseline <- getState (VBool false) ;;
      enabled <- getState (VBool true) ;;
      ret (baseline, enabled)) this =
     (Return (toggles false false false false false,
              toggles (setting ConstantTime calls true)
                      (setting Jitter calls true)
                      (setting Fence calls true)
                      (setting ClampTimers calls true)
                      (setting Detection calls true)),
      this, []).
Proof.
  cbv zeta. rewrite after_new. split; reflexivity.
Qed.

End Toggles.

(* ------------------------------------------------------------------ *)
(** ** Pipeline *)

Section PipelineMapping.

Import Pipeline.

Lemma check_shape_ok (elems : list (option value)) (k : nat) :
  Forall well_shaped elems -> check_shape (present_from k elems) = Return tt.
Proof.
  intros H. revert k. induction H as [|e es He _ IH]; intros k; simpl; auto.
  destruct He as (v & l & s & -> & Hl & Hs). simpl.
  assert (Hv : opt_prop v "label" = VString l
               /\ opt_prop v "speculative" = VBool s).
  { destruct v; simpl in *; try discriminate; auto. }
  destruct Hv as [-> ->]. simpl. apply IH.
Qed.

Lemma stage_contents (elems : list (option value)) (m : bool) (i : nat) :
  Forall well_shaped elems ->
  map (fun ix => render (VBool m) (snd ix))
      (filter (fun ix => Nat.eqb (fst ix) i) (present elems))
  = slot elems m i.
Proof.
  intros H. unfold present, slot. rewrite filter_index by lia.
  rewrite Nat.sub_0_r.
  destruct (nth_error elems i) as [[v|]|] eqn:E; simpl; auto.
  apply nth_error_In in E.
  rewrite Forall_forall in H. destruct (H _ E) as (v' & l & s & Hv & _ & Hs).
  inversion Hv; subst v'.
  unfold render, js_and, speculative_flag. rewrite Hs. simpl.
  now destruct m.
Qed.

(** C9. For a valid instruction list and a boolean mispredict flag,
    [simulate] returns the stages fetch, decode, execute, retire in that
    order; stage [i] holds the instruction at index [i] and nothing else
    (nothing when the list is shorter, and an instruction past index 3 is
    in no stage), with its speculative flag replaced by
    [mispredict && speculative]. *)
Theorem simulate_maps_by_index (elems : list (option value)) (m : bool) :
  Forall well_shaped elems ->
  simulate (VArray elems) (VBool m) new =
    (Return [ Stage.mk "fetch" (slot elems m 0);
              Stage.mk "decode" (slot elems m 1);
              Stage.mk "execute" (slot elems m 2);
              Stage.mk "retire" (slot elems m 3) ],
     new, []).
Proof.
  intros H. unfold simulate, bind, lift, get, ret, present.
  rewrite (check_shape_ok elems 0 H). fold (present elems). simpl.
  now rewrite !stage_contents by assumption.
Qed.

Lemma simulate_maps_by_index_witness :
  Forall well_shaped
    [ Some (instruction "branch" false);
      Some (instruction "fallthrough" true);
      Some (instruction "dependent read" true);
      Some (instruction "retire" false) ] /\
  simulate (buildSpeculativeSequence (VBool false)) (VBool true) new =
    (Return [ Stage.mk "fetch"
                [[("label", VString "branch"); ("speculative", VBool false)]];
              Stage.mk "decode"
                [[("label", VString "fallthrough");
                  ("speculative", VBool true)]];
              Stage.mk "execute"
                [[("label", VString "dependent read");
                  ("speculative", VBool true)]];
              Stage.mk "retire"
                [[("label", VString "retire"); ("speculative", VBool false)]] ],
     new, []).
Proof.
  assert (H : Forall well_shaped
                [ Some (instruction "branch" false);
                  Some (instruction "fallthrough" true);
                  Some (instruction "dependent read" true);
                  Some (instruction "retire" false) ]).
  { repeat (apply Forall_cons || apply Forall_nil);
      (do 3 eexists; repeat split; reflexivity). }
  split; [exact H | exact (simulate_maps_by_index _ true H)].
Defined.

(** The instruction a stage shows has the recomputed flag and, under
    every other key, what the given instruction has. *)
Lemma shown_instruction (v : value) (m : bool) (k : string) :
  Obj.get k (Obj.set "speculative" (VBool (m && speculative_flag v))
                     (entries v)) =
  if String.eqb k "speculative"
  then Some (VBool (m && speculative_flag v))
  else Obj.get k (entries v).
Proof.
  destruct (String.eqb k "speculative") eqn:E.
  - apply String.eqb_eq in E. subst k. apply get_set_same.
  - apply get_set_other. intros ->. now rewrite String.eqb_refl in E.
Qed.

End PipelineMapping.

(* ------------------------------------------------------------------ *)
(** ** Cache hierarchy *)

Section Cache.

Import CacheLevel.

Lemma same_value_zero_refl (x : number) : Num.same_value_zero x x = true.
Proof.
  destruct x as [s|s| |s m e]; simpl; auto; unfold SFeqb; simpl.
  - now destruct s.
  - rewrite Z.compare_refl, Pos.compare_cont_refl. now destruct s.
Qed.

Lemma delete_oldest (k : number) (ks : list number) :
  delete k (k :: ks) = ks.
Proof. simpl. now rewrite same_value_zero_refl. Qed.

Lemma has_tl (a : number) (ks : list number) :
  has a ks = false -> has a (tl ks) = false.
Proof.
  destruct ks as [|k ks]; simpl; auto.
  intros H. now apply orb_false_elim in H.
Qed.

Lemma evict_then_set (size : Z) (a : number) (ks : list number) :
  has a ks = false ->
  set a (if size <=? Z.of_nat (List.length ks)
         then match ks with
              | [] => ks
              | oldest :: _ => delete oldest ks
              end
         else ks)
  = installed size a ks.
Proof.
  intros Hmiss. unfold installed.
  destruct (size <=? Z.of_nat (List.length ks)).
  - destruct ks as [|k ks].
    + reflexivity.
    + rewrite delete_oldest. unfold set.
      apply has_tl in Hmiss. simpl in Hmiss. now rewrite Hmiss.
  - unfold set. now rewrite Hmiss.
Qed.

Lemma level_hit (this : t) (a : number) :
  Num.isNaN a = false -> has a (lines this) = true ->
  access (VNumber a) this =
    (Return (Access.mk (name this) true (latency this)), this, []).
Proof.
  intros Hnum Hhit. unfold access, bind, get, ret. simpl.
  rewrite Hnum, Hhit. reflexivity.
Qed.

Lemma level_miss (this : t) (a : number) :
  Num.isNaN a = false -> has a (lines this) = false ->
  access (VNumber a) this =
    (Return (Access.mk (name this) false (latency this)),
     with_lines this (installed (size this) a (lines this)), []).
Proof.
  intros Hnum Hmiss. unfold access, bind, get, ret. simpl.
  rewrite Hnum, Hmiss. simpl. now rewrite evict_then_set.
Qed.

Lemma level_reject (this : t) (v : value) :
  is_numeric v = false ->
  access v this = (Throw (InvalidAddress (name this) v), this, []).
Proof.
  intros Hbad. unfold access, bind, get, throw.
  destruct v; simpl in *; try reflexivity.
  apply negb_false_iff in Hbad. now rewrite Hbad.
Qed.

Lemma new_hierarchy : CacheModel.new = hierarchy [] [].
Proof. reflexivity. Qed.

Lemma full_miss (l1 l2 : list number) (a : number) :
  Num.isNaN a = false -> has a l1 = false -> has a l2 = false ->
  CacheModel.access (VNumber a) (hierarchy l1 l2) =
    (Return memory_miss,
     hierarchy (installed 8 a l1) (installed 16 a l2), []).
Proof.
  intros Hnum H1 H2.
  unfold CacheModel.access, bind, zoom, hierarchy. simpl.
  rewrite (level_miss (mk "L1" 8 8 l1) a Hnum H1). simpl.
  rewrite (level_miss (mk "L2" 16 16 l2) a Hnum H2). reflexivity.
Qed.

Lemma hit_in_L1 (l1 l2 : list number) (a : number) :
  Num.isNaN a = false -> has a l1 = true ->
  CacheModel.access (VNumber a) (hierarchy l1 l2) =
    (Return (Access.mk "L1" true 8), hierarchy l1 l2, []).
Proof.
  intros Hnum H1.
  unfold CacheModel.access, bind, zoom, hierarchy. simpl.
  rewrite (level_hit (mk "L1" 8 8 l1) a Hnum H1). reflexivity.
Qed.

Lemma hit_in_L2 (l1 l2 : list number) (a : number) :
  Num.isNaN a = false -> has a l1 = false -> has a l2 = true ->
  CacheModel.access (VNumber a) (hierarchy l1 l2) =
    (Return (Access.mk "L2" true 16),
     hierarchy (installed 8 a l1) l2, []).
Proof.
  intros Hnum H1 H2.
  unfold CacheModel.access, bind, zoom, hierarchy. simpl.
  rewrite (level_miss (mk "L1" 8 8 l1) a Hnum H1). simpl.
  rewrite (level_hit (mk "L2" 16 16 l2) a Hnum H2). reflexivity.
Qed.

Lemma rejected (l1 l2 : list number) (v : value) :
  is_numeric v = false ->
  CacheModel.access v (hierarchy l1 l2) =
    (Throw (InvalidAddress "L1" v), hierarchy l1 l2, []).
Proof.
  intros Hbad.
  unfold CacheModel.access, bind, zoom, hierarchy. simpl.
  rewrite (level_reject (mk "L1" 8 8 l1) v Hbad). reflexivity.
Qed.

Lemma finite_not_NaN (a : number) :
  Num.isFinite a = true -> Num.isNaN a = false.
Proof. now destruct a. Qed.

(** Every access leaves a hierarchy of the same form. *)
Lemma access_keeps_form (l1 l2 : list number) (v : value) :
  exists l1' l2',
    final (CacheModel.access v (hierarchy l1 l2)) = hierarchy l1' l2'.
Proof.
  destruct (is_numeric v) eqn:Hv.
  - destruct v; try discriminate. simpl in Hv.
    apply negb_true_iff in Hv.
    destruct (has x l1) eqn:H1; [|destruct (has x l2) eqn:H2].
    + rewrite hit_in_L1 by assumption. now exists l1, l2.
    + rewrite hit_in_L2 by assumption. now exists (installed 8 x l1), l2.
    + rewrite full_miss by assumption.
      now exists (installed 8 x l1), (installed 16 x l2).
  - rewrite rejected by assumption. now exists l1, l2.
Qed.

End Cache.

Section CacheClaims.

Import CacheLevel.

(** *** A full miss *)

(** On an empty hierarchy, an access to address 1 leaves the address in
    L2 as well: the loop asks every level, and a level that misses
    installs. *)
Lemma miss_installs_in_L1_only_fails :
  ~ miss_installs_in_L1_only [] [] (num 1).
Proof.
  intros H. specialize (H eq_refl eq_refl eq_refl).
  vm_compute in H. discriminate H.
Qed.

(** C1 (amended). For every finite number that no level holds,
    [access] returns [{level: "memory", hit: false, latency: 42}] and
    installs the address in every level, L1 and L2, each level evicting
    its oldest address first if it was full.  The address is held as
    the key the [Map] keeps for it: [-0] is held as [+0]. *)
Theorem miss_installs_in_every_level (l1 l2 : list number) (a : number) :
  Num.isFinite a = true -> has a l1 = false -> has a l2 = false ->
  CacheModel.access (VNumber a) (hierarchy l1 l2) =
    (Return memory_miss,
     hierarchy (installed 8 a l1) (installed 16 a l2), []).
Proof.
  intros Hfin. apply full_miss. now apply finite_not_NaN.
Qed.

Lemma miss_installs_in_every_level_witness :
  let l := map num [0; 4; 8; 12; 16; 20; 24; 28] in
  (Num.isFinite (num 32) = true /\ has (num 32) l = false
   /\ has (num 32) l = false) /\
  CacheModel.access (VNumber (num 32)) (hierarchy l l) =
    (Return memory_miss,
     hierarchy (map num [4; 8; 12; 16; 20; 24; 28; 32])
               (map num [0; 4; 8; 12; 16; 20; 24; 28; 32]), [])
  /\ CacheModel.access (VNumber (S754_zero true)) (hierarchy [] []) =
       (Return memory_miss,
        hierarchy [S754_zero false] [S754_zero false], []).
Proof.
  split; [repeat split; reflexivity|]. split.
  - exact (miss_installs_in_every_level
             (map num [0; 4; 8; 12; 16; 20; 24; 28])
             (map num [0; 4; 8; 12; 16; 20; 24; 28]) (num 32)
             eq_refl eq_refl eq_refl).
  - exact (miss_installs_in_every_level [] [] (S754_zero true)
             eq_refl eq_refl eq_refl).
Defined.

(** *** A hit *)

(** Nine distinct addresses overflow L1, whose capacity is eight:
    address 0 stays in L2 only.  Reading it back hits in L2, after L1
    has missed, evicted address 4 and installed address 0. *)
Lemma hit_changes_no_level_fails :
  let l1 := map num [4; 8; 12; 16; 20; 24; 28; 32] in
  let l2 := map num [0; 4; 8; 12; 16; 20; 24; 28; 32] in
  final (CacheModel.prime
           (map (fun a => Some (VNumber a)) (firstn 9 MOCK_MEMORY))
           CacheModel.new) = hierarchy l1 l2
  /\ ~ hit_changes_no_level l1 l2 (num 0).
Proof.
  split; [reflexivity|].
  intros H. specialize (H eq_refl eq_refl).
  vm_compute in H. discriminate H.
Qed.

(** C2 (amended). For every finite number that some level holds,
    [access] returns a hit with the name and latency of the first
    level, in the order L1 then L2, that holds it.  That level and the
    levels after it are unchanged; a level before it has missed, and
    holds the address afterwards, its oldest address evicted first if it
    was full.  The address is held as the key the [Map] keeps for it:
    [-0] is held as [+0]. *)
Theorem hit_installs_above_the_hit (l1 l2 : list number) (a : number) :
  Num.isFinite a = true -> has a l1 || has a l2 = true ->
  CacheModel.access (VNumber a) (hierarchy l1 l2) =
    (Return (first_hit l1 a),
     hierarchy (if has a l1 then l1 else installed 8 a l1) l2, []).
Proof.
  intros Hfin Hres. apply finite_not_NaN in Hfin. unfold first_hit.
  destruct (has a l1) eqn:H1.
  - now apply hit_in_L1.
  - simpl in Hres. now apply hit_in_L2.
Qed.

Lemma hit_installs_above_the_hit_witness :
  let l1 := map num [4; 8; 12; 16; 20; 24; 28; 32] in
  let l2 := map num [0; 4; 8; 12; 16; 20; 24; 28; 32] in
  (Num.isFinite (num 0) = true /\ has (num 0) l1 || has (num 0) l2 = true)
  /\ CacheModel.access (VNumber (num 0)) (hierarchy l1 l2) =
       (Return (Access.mk "L2" true 16),
        hierarchy (map num [8; 12; 16; 20; 24; 28; 32; 0]) l2, [])
  /\ CacheModel.access (VNumber (num 4)) (hierarchy l1 l2) =
       (Return (Access.mk "L1" true 8), hierarchy l1 l2, [])
  /\ CacheModel.access (VNumber (S754_zero true))
                       (hierarchy [] [S754_zero false]) =
       (Return (Access.mk "L2" true 16),
        hierarchy [S754_zero false] [S754_zero false], []).
Proof.
  split; [split; reflexivity|]. split; [|split].
  - exact (hit_installs_above_the_hit
             (map num [4; 8; 12; 16; 20; 24; 28; 32])
             (map num [0; 4; 8; 12; 16; 20; 24; 28; 32]) (num 0)
             eq_refl eq_refl).
  - exact (hit_installs_above_the_hit
             (map num [4; 8; 12; 16; 20; 24; 28; 32])
             (map num [0; 4; 8; 12; 16; 20; 24; 28; 32]) (num 4)
             eq_refl eq_refl).
  - exact (hit_installs_above_the_hit [] [S754_zero false]
             (S754_zero true) eq_refl eq_refl).
Defined.

(** *** An invalid address *)

(** [Infinity] is a number and is not NaN: the guard lets it through,
    and it becomes a key of both levels. *)
Lemma rejects_all_but_finite_fails :
  ~ rejects_all_but_finite [] [] (VNumber Num.Infinity)
  /\ CacheModel.access (VNumber Num.Infinity) (hierarchy [] []) =
       (Return memory_miss, hierarchy [Num.Infinity] [Num.Infinity], []).
Proof.
  split; [|reflexivity].
  intros [[_ H] _]. apply (H eq_refl). reflexivity.
Qed.

(** C3 (amended). [access] throws the address-validation error exactly
    when the address is not a number or is NaN (an infinity is accepted),
    and when it throws no level has changed. *)
Theorem access_rejects_non_numbers (l1 l2 : list number) (v : value) :
  if is_numeric v
  then exists r m,
         CacheModel.access v (hierarchy l1 l2) = (Return r, m, [])
  else CacheModel.access v (hierarchy l1 l2) =
         (Throw (InvalidAddress "L1" v), hierarchy l1 l2, []).
Proof.
  destruct (is_numeric v) eqn:Hv.
  - destruct v; try discriminate. simpl in Hv. apply negb_true_iff in Hv.
    destruct (has x l1) eqn:H1; [|destruct (has x l2) eqn:H2].
    + rewrite hit_in_L1 by assumption. eauto.
    + rewrite hit_in_L2 by assumption. eauto.
    + rewrite full_miss by assumption. eauto.
  - now apply rejected.
Qed.

End CacheClaims.

(* ------------------------------------------------------------------ *)
(** ** AttackSimulator *)

Section Runner.

Import AttackSimulator.

(** Three inputs the claim calls malformed and the code runs: a pattern
    whose name is the empty string, a flag left [undefined] (it takes the
    default [false]), and a training array with a hole (the validating
    [some] skips holes). *)
Lemma rejects_as_stated_fails :
  ~ rejects_as_stated
      (VObject [("name", VString ""); ("training", VArray []);
                ("trigger", VBool true)])
      (VBool false) fresh
  /\ ~ rejects_as_stated branchTrain VUndefined fresh
  /\ ~ rejects_as_stated
        (VObject [("name", VString "sparse");
                  ("training", VArray [None; Some (VBool true)]);
                  ("trigger", VBool true)])
        (VBool false) fresh.
Proof.
  repeat split; intros H; destruct (H eq_refl) as [e He];
    vm_compute in He; discriminate He.
Qed.

Lemma some_not_boolean (elems : list (option value)) (k : nat) :
  existsb (fun ix => negb (is_boolean (snd ix))) (present_from k elems) =
  negb (forallb (fun e => match e with
                          | Some x => is_boolean x
                          | None => true
                          end) elems).
Proof.
  revert k. induction elems as [|[x|] elems IH]; intros k; simpl; auto.
  rewrite IH. now destruct (is_boolean x).
Qed.

Lemma validatePattern_malformed (pattern : value) :
  _validatePattern pattern =
  if malformed pattern
  then Throw (if negb (is_string (field pattern "name")) then PatternName
              else if negb (booleans_where_present (field pattern "training"))
                   then PatternTraining
                   else PatternTrigger)
  else Return tt.
Proof.
  unfold _validatePattern, malformed, field.
  destruct pattern as [| |b|x|s|elems|props]; try reflexivity.
  - now destruct b.
  - destruct x as [s|s| |s m e]; reflexivity.
  - now destruct s.
  - unfold Pipeline.opt_prop. change (truthy (VObject props)) with true.
    cbv beta iota. change (negb true) with false. rewrite orb_false_l.
    generalize (prop (VObject props) "name") as name.
    generalize (prop (VObject props) "training") as training.
    generalize (prop (VObject props) "trigger") as trigger.
    intros trigger training name.
    destruct (is_string name); simpl; auto.
    destruct training as [| | | | |elems|]; simpl; auto.
    unfold present. rewrite some_not_boolean.
    destruct (forallb _ elems); simpl; auto.
Qed.

(** C4 (amended). [run] rejects, with the cache, the predictor and the
    rest of the simulator untouched, whenever the pattern's name is not a
    string, its training is not an array or has an element that is not a
    boolean, its trigger is not a boolean, or [defended] is neither a
    boolean nor [undefined]. *)
Theorem run_rejects_malformed (pattern defended : value) (sim : t) :
  malformed pattern || bad_flag defended = true ->
  exists e, run pattern defended sim = (Throw e, sim, []).
Proof.
  intros H. unfold run, bind, lift.
  rewrite validatePattern_malformed.
  destruct (malformed pattern); [eauto|].
  simpl in H.
  destruct defended; simpl in H; try discriminate; unfold throw; simpl; eauto.
Qed.

Lemma run_rejects_malformed_witness :
  let pattern := VObject [("name", VString "oops");
                          ("training", VString "bad");
                          ("trigger", VBool true)] in
  malformed pattern || bad_flag VUndefined = true
  /\ exists e, run pattern VUndefined fresh = (Throw e, fresh, []).
Proof.
  split; [reflexivity|].
  exact (run_rejects_malformed
           (VObject [("name", VString "oops");
                     ("training", VString "bad");
                     ("trigger", VBool true)])
           VUndefined fresh eq_refl).
Defined.

(** C10. On a freshly constructed simulator, whatever the toggles of the
    toolkit it was given and whatever the random source, [run] on the
    [branchTrain] pattern with [defended = false] resolves, and with
    [mispredict] true: the four taken outcomes leave the counter at 3, so
    the predictor says taken on the trigger, which is not taken. *)
Theorem branchTrain_baseline_mispredicts
  (calls : list (toggle * value)) (rnd : Random.t) :
  exists result sim events,
    run branchTrain (VBool false) (new (after calls DefenceToolkit.new) rnd)
      = (Return result, sim, events)
    /\ ScenarioResult.mispredict result = true
    /\ ScenarioResult.trainingResults result
       = [Some true; Some true; Some true; Some true]
    /\ ScenarioResult.detection result = None
    /\ random sim = rnd.
Proof.
  rewrite after_new.
  destruct (run branchTrain (VBool false) _) as [[o sim] events] eqn:E.
  vm_compute in E. inversion E; subst.
  do 3 eexists. repeat split; reflexivity.
Qed.

End Runner.

(* ------------------------------------------------------------------ *)
(** ** Binary64 arithmetic

    What the timing claims need of the rounded operations: a mantissa of
    53 or 54 bits is rounded to 53 bits with an error below one unit, so
    the fifth of a number of [[20,180]] rounds to a whole number of
    [[4,36]]. *)

Section Binary64.

Lemma digits2_size (p : positive) : digits2_pos p = Pos.size p.
Proof. induction p; simpl; congruence. Qed.

Lemma digits2_bounds (p : positive) :
  2 ^ (Zpos (digits2_pos p) - 1) <= Zpos p < 2 ^ Zpos (digits2_pos p).
Proof.
  rewrite digits2_size.
  pose proof (Pos.size_gt p) as Hgt. pose proof (Pos.size_le p) as Hle.
  split.
  - assert (H : 2 ^ Zpos (Pos.size p) <= 2 * Zpos p).
    { change 2 with (Zpos 2) at 1. rewrite <- Pos2Z.inj_pow.
      change (2 * Zpos p) with (Zpos (p~0)). now apply Pos2Z.pos_le_pos. }
    replace (Zpos (Pos.size p)) with (Z.succ (Zpos (Pos.size p) - 1)) in H by lia.
    rewrite Z.pow_succ_r in H by lia. lia.
  - change 2 with (Zpos 2). rewrite <- Pos2Z.inj_pow. now apply Pos2Z.pos_lt_pos.
Qed.

Lemma digits2_unique (p : positive) (d : Z) :
  2 ^ (d - 1) <= Zpos p < 2 ^ d -> Zpos (digits2_pos p) = d.
Proof.
  intros [Hlo Hhi]. pose proof (digits2_bounds p) as [Blo Bhi].
  set (s := Zpos (digits2_pos p)) in *.
  assert (Hs : 0 < s) by (unfold s; lia).
  destruct (Z.lt_trichotomy s d) as [Hlt|[Heq|Hgt]]; auto.
  - assert (2 ^ s <= 2 ^ (d - 1)) by (apply Z.pow_le_mono_r; lia). lia.
  - assert (0 < d \/ d <= 0) as [Hd|Hd] by lia.
    + assert (2 ^ d <= 2 ^ (s - 1)) by (apply Z.pow_le_mono_r; lia). lia.
    + assert (2 ^ d <= 2 ^ (s - 1)).
      { destruct (Z.eq_dec d 0) as [->|]. { simpl. assert (0 < 2 ^ (s-1)) by (apply Z.pow_pos_nonneg; lia). lia. }
        rewrite (Z.pow_neg_r 2 d) by lia. apply Z.pow_nonneg. lia. }
      lia.
Qed.

Lemma shr_m_of_loc (m : Z) (l : location) : shr_m (shr_record_of_loc m l) = m.
Proof. destruct l as [|[ | | ]]; reflexivity. Qed.

Lemma loc_of_loc (m : Z) (l : location) :
  loc_of_shr_record (shr_record_of_loc m l) = l.
Proof. destruct l as [|[ | | ]]; reflexivity. Qed.

Lemma shr_1_m (mrs : shr_record) :
  0 <= shr_m mrs -> shr_m (shr_1 mrs) = shr_m mrs / 2.
Proof.
  destruct mrs as [m r s]. simpl. intros Hm.
  destruct m as [|p|p]; [reflexivity| |lia].
  destruct p as [p|p|]; simpl.
  - apply Z.div_unique with 1; lia.
  - apply Z.div_unique with 0; lia.
  - reflexivity.
Qed.

Lemma round_nearest_even_bounds (m : Z) (l : location) :
  m <= round_nearest_even m l <= m + 1.
Proof.
  destruct l as [|[ | | ]]; simpl; try lia.
  destruct (Z.even m); lia.
Qed.

Lemma fexp_normal (e : Z) : -1021 <= e -> fexp Num.prec Num.emax e = e - 53.
Proof. intros H. unfold fexp, emin, Num.prec, Num.emax. lia. Qed.

(** Rounding a 53-bit mantissa that cannot carry into a 54th bit. *)
Lemma round_aux_53 (q ex : Z) (l : location) :
  2 ^ 52 <= q <= 2 ^ 53 - 2 -> -1074 <= ex <= 971 ->
  exists m, binary_round_aux Num.prec Num.emax false q ex l = S754_finite false m ex
            /\ q <= Zpos m <= q + 1.
Proof.
  intros Hq Hex.
  assert (Hd : forall x, 2 ^ 52 <= x < 2 ^ 53 ->
                 fexp Num.prec Num.emax (Zdigits2 x + ex) - ex = 0).
  { intros x Hx. destruct x as [|p|p]; try lia.
    simpl Zdigits2. rewrite (digits2_unique p 53) by (simpl; lia).
    rewrite fexp_normal by lia. lia. }
  unfold binary_round_aux, shr_fexp.
  rewrite (Hd q) by lia. simpl shr. cbv beta iota.
  rewrite shr_m_of_loc, loc_of_loc.
  pose proof (round_nearest_even_bounds q l) as Hr.
  set (mr := round_nearest_even q l) in *.
  rewrite (Hd mr) by lia. simpl shr. cbv beta iota. simpl shr_m.
  destruct mr as [|p|p]; try lia.
  replace (ex <=? Num.emax - Num.prec) with true
    by (symmetry; apply Z.leb_le; unfold Num.emax, Num.prec; lia).
  exists p. split; [reflexivity|lia].
Qed.

(** Rounding a 54-bit mantissa that, halved, cannot carry. *)
Lemma round_aux_54 (q ex : Z) (l : location) :
  2 ^ 53 <= q <= 2 ^ 54 - 4 -> -1075 <= ex <= 970 ->
  exists m, binary_round_aux Num.prec Num.emax false q ex l
              = S754_finite false m (ex + 1)
            /\ q / 2 <= Zpos m <= q / 2 + 1.
Proof.
  intros Hq Hex.
  assert (Hd1 : fexp Num.prec Num.emax (Zdigits2 q + ex) - ex = 1).
  { destruct q as [|p|p]; try lia.
    simpl Zdigits2. rewrite (digits2_unique p 54) by (simpl; lia).
    rewrite fexp_normal by lia. lia. }
  assert (Hd : forall x, 2 ^ 52 <= x < 2 ^ 53 ->
                 fexp Num.prec Num.emax (Zdigits2 x + (ex + 1)) - (ex + 1) = 0).
  { intros x Hx. destruct x as [|p|p]; try lia.
    simpl Zdigits2. rewrite (digits2_unique p 53) by (simpl; lia).
    rewrite fexp_normal by lia. lia. }
  unfold binary_round_aux, shr_fexp.
  rewrite Hd1. unfold shr at 1. simpl iter_pos. cbv beta iota.
  pose proof (shr_1_m (shr_record_of_loc q l)) as Hm.
  rewrite shr_m_of_loc in Hm. specialize (Hm ltac:(lia)).
  set (mrs := shr_1 (shr_record_of_loc q l)) in *.
  pose proof (round_nearest_even_bounds (shr_m mrs) (loc_of_shr_record mrs)) as Hr.
  set (mr := round_nearest_even (shr_m mrs) (loc_of_shr_record mrs)) in *.
  rewrite Hm in Hr.
  assert (Hhalf : 2 ^ 52 <= q / 2 <= 2 ^ 53 - 2).
  { split.
    - apply Z.div_le_lower_bound; lia.
    - apply Z.lt_succ_r. apply Z.div_lt_upper_bound; lia. }
  rewrite (Hd mr) by lia. simpl shr. cbv beta iota. simpl shr_m.
  destruct mr as [|p|p]; try lia.
  replace (ex + 1 <=? Num.emax - Num.prec) with true
    by (symmetry; apply Z.leb_le; unfold Num.emax, Num.prec; lia).
  exists p. split; [reflexivity|lia].
Qed.

Lemma leb_finite (m1 m2 : positive) (e1 e2 : Z) :
  SFleb (S754_finite false m1 e1) (S754_finite false m2 e2) = true ->
  e1 < e2 \/ (e1 = e2 /\ Zpos m1 <= Zpos m2).
Proof.
  unfold SFleb, SFcompare.
  destruct (Z.compare_spec e1 e2) as [E|E|E]; try discriminate; auto.
  change (Pos.compare_cont Eq m1 m2) with (Pos.compare m1 m2).
  destruct (Pos.compare_spec m1 m2) as [M|M|M]; try discriminate;
    intros _; right; split; auto; lia.
Qed.

Lemma five_finite : num 5 = S754_finite false five_mantissa (-50).
Proof. reflexivity. Qed.

(** The division by 5 of a positive normal number: the quotient of the
    mantissas, carried to 53 more bits, then rounded. *)
Lemma div_by_five (m : positive) (e : Z) :
  Zpos (digits2_pos m) = 53 -> -1000 <= e <= 1000 ->
  exists l,
    Num.div (S754_finite false m e) (num 5) =
    binary_round_aux Num.prec Num.emax false
      (Zpos m * 2 ^ 53 / Zpos five_mantissa) (e - 3) l.
Proof.
  intros Hd He. rewrite five_finite.
  unfold Num.div, SFdiv, SFdiv_core_binary.
  change (Zdigits2 (Zpos m)) with (Zpos (digits2_pos m)). rewrite Hd.
  change (Zdigits2 (Zpos five_mantissa)) with 53.
  rewrite fexp_normal by lia.
  replace (Z.min (53 + e - (53 + -50) - 53) (e - -50)) with (e - 3) by lia.
  replace (e - -50 - (e - 3)) with 53 by lia.
  cbv beta iota zeta.
  rewrite Z.shiftl_mul_pow2 by lia.
  unfold Z.div.
  destruct (Z.div_eucl (Zpos m * 2 ^ 53) (Zpos five_mantissa)) as [q r].
  eexists. reflexivity.
Qed.

Lemma normal_mantissa (m : positive) (e : Z) :
  valid_binary Num.prec Num.emax (S754_finite false m e) = true ->
  -1074 < e ->
  Zpos (digits2_pos m) = 53 /\ 2 ^ 52 <= Zpos m < 2 ^ 53.
Proof.
  intros Hv He. unfold valid_binary, bounded, canonical_mantissa in Hv.
  apply andb_prop in Hv as [Hc _]. apply Z.eqb_eq in Hc.
  unfold fexp, emin, Num.prec, Num.emax in Hc.
  assert (Hd : Zpos (digits2_pos m) = 53) by lia.
  split; [exact Hd|]. pose proof (digits2_bounds m) as Hb.
  rewrite Hd in Hb. exact Hb.
Qed.

(** [Math.round] of a positive number with a negative exponent. *)
Lemma round_finite (m : positive) (e : Z) :
  e < 0 ->
  Num.round (S754_finite false m e) =
  let t := (2 * Zpos m + 2 ^ (- e)) / 2 ^ (1 - e) in
  if t =? 0 then S754_zero false else num t.
Proof.
  intros He. unfold Num.round.
  replace (0 <=? e) with false by (symmetry; apply Z.leb_gt; lia).
  rewrite Z.shiftr_div_pow2 by lia. rewrite Z.shiftl_mul_pow2 by lia.
  rewrite Z.mul_1_l. reflexivity.
Qed.

Lemma fifth_rounds_to_whole (m : positive) (e : Z) :
  valid_binary Num.prec Num.emax (S754_finite false m e) = true ->
  Num.within 20 180 (S754_finite false m e) = true ->
  exists t, 4 <= t <= 36
            /\ Num.round (Num.div (S754_finite false m e) (num 5)) = num t.
Proof.
  intros Hv Hw. unfold Num.within, Num.leb in Hw.
  apply andb_prop in Hw as [H20 H180].
  change (Num.of_Z 20) with (S754_finite false 5629499534213120 (-48)) in H20.
  change (Num.of_Z 180) with (S754_finite false 6333186975989760 (-45))
    in H180.
  apply leb_finite in H20. apply leb_finite in H180.
  destruct (normal_mantissa m e Hv ltac:(lia)) as [Hd Hm].
  destruct (div_by_five m e Hd ltac:(lia)) as [l Hdiv]. rewrite Hdiv.
  clear Hdiv Hv Hd.
  change (2 ^ 52) with 4503599627370496 in Hm.
  change (2 ^ 53) with 9007199254740992 in *.
  unfold five_mantissa.
  set (q := Zpos m * 9007199254740992 / 5629499534213120).
  assert (Hq : 5629499534213120 * q <= Zpos m * 9007199254740992
               < 5629499534213120 * q + 5629499534213120).
  { unfold q. generalize (Zpos m * 9007199254740992). intros a.
    pose proof (Z.mul_div_le a 5629499534213120 ltac:(lia)).
    pose proof (Z.mul_succ_div_gt a 5629499534213120 ltac:(lia)). lia. }
  clearbody q.
  assert (Hcase : e = -48 \/ e = -47 \/ e = -46 \/ e = -45) by lia.
  destruct (Z_lt_le_dec (Zpos m) 5629499534213120) as [Hlow|Hhigh].
  - destruct (round_aux_53 q (e - 3) l) as (r & -> & Hr);
      [change (2 ^ 52) with 4503599627370496;
       change (2 ^ 53) with 9007199254740992; lia | lia |].
    rewrite round_finite by lia. cbv zeta.
    set (t := (2 * Zpos r + 2 ^ (- (e - 3))) / 2 ^ (1 - (e - 3))).
    assert (Ht : 4 <= t <= 36).
    { unfold t. destruct Hcase as [-> | [-> | [-> | ->]]]; whole_between. }
    exists t. split; [exact Ht|].
    replace (t =? 0) with false by (symmetry; apply Z.eqb_neq; lia).
    reflexivity.
  - destruct (round_aux_54 q (e - 3) l) as (r & -> & Hr);
      [change (2 ^ 54) with 18014398509481984;
       change (2 ^ 53) with 9007199254740992; lia | lia |].
    assert (Hhalf : 2 * (q / 2) <= q < 2 * (q / 2) + 2).
    { pose proof (Z.mul_div_le q 2 ltac:(lia)).
      pose proof (Z.mul_succ_div_gt q 2 ltac:(lia)). lia. }
    revert Hr Hhalf. generalize (q / 2). intros h Hr Hhalf.
    rewrite round_finite by lia. cbv zeta.
    set (t := (2 * Zpos r + 2 ^ (- (e - 3 + 1))) / 2 ^ (1 - (e - 3 + 1))).
    assert (Ht : 4 <= t <= 36).
    { unfold t. destruct Hcase as [-> | [-> | [-> | ->]]]; whole_between. }
    exists t. split; [exact Ht|].
    replace (t =? 0) with false by (symmetry; apply Z.eqb_neq; lia).
    reflexivity.
Qed.

(** *** No operation on numbers that are not NaN invents a NaN here *)

Lemma iter_pos_invariant {A : Type} (P : A -> Prop) (f : A -> A) :
  (forall x, P x -> P (f x)) ->
  forall (p : positive) (x : A), P x -> P (iter_pos f p x).
Proof.
  intros Hf. induction p as [p IH|p IH|]; intros x Hx; simpl; auto.
Qed.

Lemma shr_fexp_nonneg (m e : Z) (l : location) :
  0 <= m -> 0 <= shr_m (fst (shr_fexp Num.prec Num.emax m e l)).
Proof.
  intros Hm. unfold shr_fexp, shr.
  assert (H0 : 0 <= shr_m (shr_record_of_loc m l))
    by now rewrite shr_m_of_loc.
  destruct (fexp Num.prec Num.emax (Zdigits2 m + e) - e); simpl; auto.
  apply (iter_pos_invariant (fun mrs => 0 <= shr_m mrs)); auto.
  intros x Hx. rewrite shr_1_m by assumption. now apply Z.div_pos.
Qed.

Lemma round_aux_not_NaN (sx : bool) (mx ex : Z) (lx : location) :
  0 <= mx ->
  Num.isNaN (binary_round_aux Num.prec Num.emax sx mx ex lx) = false.
Proof.
  intros Hm. unfold binary_round_aux.
  pose proof (shr_fexp_nonneg mx ex lx Hm) as H1.
  destruct (shr_fexp Num.prec Num.emax mx ex lx) as [mrs' e']. simpl in H1.
  pose proof (round_nearest_even_bounds (shr_m mrs') (loc_of_shr_record mrs'))
    as Hr.
  pose proof (shr_fexp_nonneg
                (round_nearest_even (shr_m mrs') (loc_of_shr_record mrs'))
                e' loc_Exact ltac:(lia)) as H2.
  destruct (shr_fexp Num.prec Num.emax _ e' loc_Exact) as [mrs'' e''].
  simpl in H2.
  destruct (shr_m mrs'') as [|p|p]; try reflexivity; [|lia].
  now destruct (e'' <=? Num.emax - Num.prec).
Qed.

Lemma normalize_not_NaN (z e : Z) (s : bool) :
  Num.isNaN (binary_normalize Num.prec Num.emax z e s) = false.
Proof.
  unfold binary_normalize, binary_round.
  destruct z as [|p|p]; try reflexivity;
    destruct (shl_align _ _ _); apply round_aux_not_NaN; lia.
Qed.

Lemma add_not_NaN (x y : number) :
  Num.isFinite x = true -> Num.isNaN y = false ->
  Num.isNaN (Num.add x y) = false.
Proof.
  destruct x as [sx|sx| |sx mx ex], y as [sy|sy| |sy my ey];
    try discriminate; intros _ _; simpl; try reflexivity.
  - now destruct sx, sy.
  - apply normalize_not_NaN.
Qed.

Lemma sub_five_not_NaN (x : number) :
  Num.isNaN x = false -> Num.isNaN (Num.sub x (num 5)) = false.
Proof.
  rewrite five_finite.
  destruct x as [sx|sx| |sx mx ex]; try discriminate; intros _; simpl;
    try reflexivity.
  apply normalize_not_NaN.
Qed.

Lemma times_ten_not_NaN (x : number) :
  Num.isNaN x = false -> Num.isNaN (Num.mul x (num 10)) = false.
Proof.
  change (num 10) with (S754_finite false 5629499534213120 (-49)).
  destruct x as [sx|sx| |sx mx ex]; try discriminate; intros _; simpl;
    try reflexivity.
  apply round_aux_not_NaN. lia.
Qed.

Lemma floor_not_NaN (x : number) :
  Num.isNaN x = false -> Num.isNaN (Num.floor x) = false.
Proof.
  destruct x as [sx|sx| |sx mx ex]; try discriminate; intros _; simpl;
    try reflexivity.
  destruct (0 <=? ex); [reflexivity|].
  destruct (_ =? 0); [reflexivity|]. apply normalize_not_NaN.
Qed.

Lemma half_not_NaN (x : number) :
  Num.isNaN x = false -> Num.isNaN (Num.div x (num 2)) = false.
Proof.
  change (num 2) with (S754_finite false 4503599627370496 (-51)).
  destruct x as [sx|sx| |sx mx ex]; try discriminate; intros _;
    try reflexivity.
  unfold Num.div, SFdiv, SFdiv_core_binary.
  set (m' := match _ with Z.pos _ => _ | _ => _ end).
  assert (Hm' : 0 <= m').
  { unfold m'. destruct (_ - _ - _); try lia.
    rewrite Z.shiftl_mul_pow2 by lia. apply Z.mul_nonneg_nonneg; [lia|].
    apply Z.pow_nonneg. lia. }
  pose proof (Z.div_pos m' 4503599627370496 Hm' ltac:(lia)) as Hq.
  unfold Z.div in Hq. destruct (Z.div_eucl m' 4503599627370496) as [q r].
  now apply round_aux_not_NaN.
Qed.

(** The scalar clamp sends every number that is not NaN to a finite
    one. *)
Lemma clampTiming_finite (x : number) :
  Num.isNaN x = false -> Num.isFinite (clampTiming x) = true.
Proof.
  unfold clampTiming.
  change (num 20) with (S754_finite false 5629499534213120 (-48)).
  change (num 180) with (S754_finite false 6333186975989760 (-45)).
  destruct x as [sx|sx| |sx mx ex]; try discriminate; intros _.
  - now destruct sx.
  - now destruct sx.
  - unfold Num.min.
    destruct (SFltb _ (S754_finite sx mx ex)); [reflexivity|].
    unfold Num.max. now destruct (SFltb _ (S754_finite sx mx ex)).
Qed.

End Binary64.

(* ------------------------------------------------------------------ *)
(** ** DefenceToolkit: timing records *)

Section TimingRecords.

(** C5. [applyDefences] on the valid record [{prime: 50}] with
    [mispredict] true and the fence enabled returns
    [{prime: 50, speculate: NaN}]: the fence adjustment reads the absent
    [speculate] phase, halves [undefined] and stores the NaN.  The
    toolkit's own validation rejects the record it has just returned. *)
Theorem applyDefences_invents_NaN (this : DefenceToolkit.t) (rnd : Random.t) :
  DefenceToolkit._validateTimings (timing_value prime_only) = Return prime_only
  /\ forallb Num.isFinite (map snd prime_only) = true
  /\ DefenceToolkit.applyDefences (timing_value prime_only) true (Some fence_on) (this, rnd)
     = (Return [("prime", num 50); ("speculate", Num.NaN)], (this, rnd), [])
  /\ forallb Num.isFinite
       (map snd [("prime", num 50); ("speculate", Num.NaN)]) = false
  /\ DefenceToolkit._validateTimings
       (timing_value [("prime", num 50); ("speculate", Num.NaN)])
     = Throw (TimingNotNumeric "speculate").
Proof.
  repeat split; reflexivity.
Qed.

(** *** The toolkit's [clampTiming] *)

(** The method rounds and does not bound: 1000 stays 1000, and 3
    becomes 5. *)
Lemma coarsens_into_range_fails :
  ~ coarsens_into_range [("probe", num 1000)]
  /\ DefenceToolkit.clampTiming (timing_value [("probe", num 1000)])
     = Return [("probe", num 1000)]
  /\ ~ coarsens_into_range [("probe", num 3)]
  /\ DefenceToolkit.clampTiming (timing_value [("probe", num 3)])
     = Return [("probe", num 5)].
Proof.
  assert (Hv : forall z, Num.isFinite (num z) = true ->
                         valid_record [("probe", num z)]).
  { intros z Hz. split; [discriminate|]. repeat constructor. exact Hz. }
  repeat split; try reflexivity.
  - intros H. destruct (H (Hv 1000 eq_refl)) as (out & E & Hall).
    vm_compute in E. injection E as <-.
    inversion Hall as [|? ? [_ Hr] _]; subst. vm_compute in Hr. discriminate.
  - intros H. destruct (H (Hv 3 eq_refl)) as (out & E & Hall).
    vm_compute in E. injection E as <-.
    inversion Hall as [|? ? [_ Hr] _]; subst. vm_compute in Hr. discriminate.
Qed.

(** In binary64 the product by 5 is itself rounded: beyond 2^53 the
    result need not be a multiple of 5. *)
Lemma coarsened_huge :
  coarsened (num (2 ^ 55 + 8)) = num (2 ^ 55 + 8)
  /\ Num.multiple_of 5 (num (2 ^ 55 + 8)) = false.
Proof. split; reflexivity. Qed.

(** Validation returns the entries of a record free of NaN. *)
Lemma numeric_entries_ok (es : timing_record) :
  Forall (fun kv => Num.isNaN (snd kv) = false) es ->
  DefenceToolkit.numeric_entries (map (fun kv => (fst kv, VNumber (snd kv))) es) = Return es.
Proof.
  induction 1 as [|[k x] es Hx _ IH]; simpl; auto.
  simpl in Hx. now rewrite Hx, IH.
Qed.

Lemma validateTimings_ok (es : timing_record) :
  es <> [] -> Forall (fun kv => Num.isNaN (snd kv) = false) es ->
  DefenceToolkit._validateTimings (timing_value es) = Return es.
Proof.
  intros Hne Hall. pose proof (numeric_entries_ok es Hall) as E.
  destruct es as [|e es]; [contradiction|].
  unfold DefenceToolkit._validateTimings, timing_value. exact E.
Qed.

(** A property of the values carries over to the record built by
    [Object.fromEntries]. *)
Lemma timing_set_Forall (P : number -> Prop) (k : string) (v : number)
  (t : timing_record) :
  P v -> Forall (fun kv => P (snd kv)) t ->
  Forall (fun kv => P (snd kv)) (timing_set k v t).
Proof.
  intros Hv. induction 1 as [|[k' v'] t Hx Ht IH]; simpl.
  - now repeat constructor.
  - destruct (String.eqb k k'); constructor; auto.
Qed.

Lemma fromEntries_Forall (P : number -> Prop) (es : list (string * number)) :
  Forall (fun kv => P (snd kv)) es ->
  Forall (fun kv => P (snd kv)) (timing_fromEntries es).
Proof.
  unfold timing_fromEntries.
  assert (G : forall acc, Forall (fun kv => P (snd kv)) acc ->
                Forall (fun kv => P (snd kv)) es ->
                Forall (fun kv => P (snd kv))
                  (fold_left (fun t e => timing_set (fst e) (snd e) t) es acc)).
  { induction es as [|e es IH]; intros acc Hacc Hes; simpl; auto.
    inversion Hes; subst. apply IH; auto. now apply timing_set_Forall. }
  now apply G.
Qed.

(** *** Where [applyDefences] keeps its values finite *)

Lemma timing_get_set (k k' : string) (v : number) (t : timing_record) :
  timing_get k (timing_set k' v t) =
  if String.eqb k k' then Some v else timing_get k t.
Proof.
  induction t as [|[k0 v0] t IH]; simpl.
  - reflexivity.
  - destruct (String.eqb k' k0) eqn:E'; simpl.
    + apply String.eqb_eq in E'. subst k0.
      now destruct (String.eqb k k').
    + rewrite IH. destruct (String.eqb k k') eqn:E; auto.
      apply String.eqb_eq in E. subst k'. now rewrite E'.
Qed.

Lemma timing_get_Forall (P : number -> Prop) (k : string) (x : number)
  (t : timing_record) :
  Forall (fun kv => P (snd kv)) t -> timing_get k t = Some x -> P x.
Proof.
  induction 1 as [|[k' v] t Hv _ IH]; simpl; [discriminate|].
  destruct (String.eqb k k'); auto. intros E. now inversion E; subst.
Qed.

Lemma fromEntries_has (k : string) (es : list (string * number)) :
  In k (map fst es) -> exists x, timing_get k (timing_fromEntries es) = Some x.
Proof.
  unfold timing_fromEntries.
  assert (G : forall acc,
             In k (map fst es) \/ (exists x, timing_get k acc = Some x) ->
             exists x,
               timing_get k
                 (fold_left (fun t e => timing_set (fst e) (snd e) t) es acc)
               = Some x).
  { induction es as [|[k' v] es IH]; intros acc H; simpl in *.
    - destruct H as [[]|H]; exact H.
    - apply IH. rewrite timing_get_set. simpl.
      destruct (String.eqb k k') eqn:E; [right; eauto|].
      destruct H as [[H|H]|H]; auto.
      subst k'. now rewrite String.eqb_refl in E. }
  intros H. apply G. now left.
Qed.

Lemma jitter_not_NaN (rnd : Random.t) :
  never_NaN rnd ->
  exists j, DefenceToolkit._jitter rnd = (Return j, fun n => rnd (S n), [])
            /\ Num.isNaN j = false.
Proof.
  intros Hr. eexists. split; [reflexivity|].
  apply sub_five_not_NaN, floor_not_NaN, times_ten_not_NaN, Hr.
Qed.

Lemma jittered_finite (es : timing_record) (rnd : Random.t) :
  all_finite es -> never_NaN rnd ->
  exists js rnd',
    mapM (fun kv => j <- DefenceToolkit._jitter ;;
                    ret (fst kv, clampTiming (Num.add (snd kv) j))) es rnd
      = (Return js, rnd', [])
    /\ map fst js = map fst es /\ all_finite js /\ never_NaN rnd'.
Proof.
  intros Hes. revert rnd.
  induction Hes as [|[k v] es Hv _ IH]; intros rnd Hr.
  - exists [], rnd. repeat split; auto. constructor.
  - destruct (jitter_not_NaN rnd Hr) as (j & Ej & Hj).
    destruct (IH (fun n => rnd (S n)) (fun n => Hr (S n)))
      as (js & rnd' & E & Hk & Hf & Hr').
    exists ((k, clampTiming (Num.add v j)) :: js), rnd'.
    split; [|repeat split].
    + simpl mapM. unfold bind at 1. unfold bind at 1. rewrite Ej.
      unfold ret at 1. cbv beta iota zeta. unfold bind in E |- *.
      rewrite E. reflexivity.
    + simpl. now rewrite Hk.
    + constructor; auto. simpl.
      apply clampTiming_finite, add_not_NaN; auto.
    + exact Hr'.
Qed.

(** The values stay finite whenever the fence adjustment finds the
    phase it halves: for every record of finite values, every state and
    every random source free of NaN, provided the record has a
    [speculate] phase when the fence and the misprediction are both
    set. *)
Lemma applyDefences_finite (es : timing_record) (mispredict : bool)
  (st : object) (this : DefenceToolkit.t) (rnd : Random.t) :
  es <> [] -> all_finite es -> never_NaN rnd ->
  (DefenceToolkit.flag "fence" st && mispredict = true -> In "speculate" (map fst es)) ->
  exists out rnd',
    DefenceToolkit.applyDefences (timing_value es) mispredict (Some st) (this, rnd)
      = (Return out, (this, rnd'), [])
    /\ all_finite out.
Proof.
  intros Hne Hfin Hrnd Hspec.
  assert (Hnan : Forall (fun kv => Num.isNaN (snd kv) = false) es).
  { revert Hfin. apply Forall_impl. intros [k v] H. simpl in *.
    now destruct v. }
  assert (Hadjust : forall jittered,
             all_finite jittered ->
             In "speculate" (map fst es) ->
             (In "speculate" (map fst es) ->
              exists x, timing_get "speculate" jittered = Some x) ->
             all_finite
               (timing_set "speculate"
                  (clampTiming
                     (Num.div (DefenceToolkit.read_number (timing_get "speculate" jittered))
                              (num 2)))
                  jittered)).
  { intros jittered Hj Hin Hget. destruct (Hget Hin) as [x Ex]. rewrite Ex.
    apply (timing_set_Forall (fun v => Num.isFinite v = true)); auto.
    apply clampTiming_finite, half_not_NaN. simpl.
    pose proof (timing_get_Forall (fun v => Num.isFinite v = true)
                  _ _ _ Hj Ex) as Hx.
    now destruct x. }
  unfold DefenceToolkit.applyDefences.
  unfold bind, zoom, DefenceToolkit.state_or_default, ret, lift.
  cbn [fst snd]. rewrite (validateTimings_ok es Hne Hnan).
  destruct (DefenceToolkit.flag "jitter" st).
  - destruct (jittered_finite es rnd Hfin Hrnd)
      as (js & rnd' & E & Hk & Hf & _).
    unfold bind, ret in E. cbn [fst snd]. rewrite E. cbn [fst snd app].
    assert (Hj : all_finite (timing_fromEntries js)).
    { now apply (fromEntries_Forall (fun v => Num.isFinite v = true)). }
    destruct (DefenceToolkit.flag "fence" st && mispredict) eqn:Hfence.
    + do 2 eexists. split; [reflexivity|].
      apply Hadjust; auto. intros Hin. apply fromEntries_has.
      now rewrite Hk.
    + do 2 eexists. split; [reflexivity|exact Hj].
  - assert (Hj : all_finite (timing_fromEntries es)).
    { now apply (fromEntries_Forall (fun v => Num.isFinite v = true)). }
    destruct (DefenceToolkit.flag "fence" st && mispredict) eqn:Hfence.
    + do 2 eexists. split; [reflexivity|].
      apply Hadjust; auto. intros Hin. now apply fromEntries_has.
    + do 2 eexists. split; [reflexivity|exact Hj].
Qed.

Lemma identical_eq (x y : number) : identical x y = true -> x = y.
Proof.
  destruct x as [s|s| |s m e], y as [s'|s'| |s' m' e']; simpl;
    try discriminate; auto.
  - intros H. apply Bool.eqb_prop in H. now subst.
  - intros H. apply Bool.eqb_prop in H. now subst.
  - intros H. apply andb_prop in H as [H He]. apply andb_prop in H as [Hs Hm].
    apply Bool.eqb_prop in Hs. apply Pos.eqb_eq in Hm. apply Z.eqb_eq in He.
    now subst.
Qed.

Lemma five_times_table :
  forallb five_times_exact (map Z.of_nat (seq 4 33)) = true.
Proof. vm_compute. reflexivity. Qed.

Lemma five_times_upto_36 (t : Z) :
  4 <= t <= 36 -> five_times_exact t = true.
Proof.
  intros Ht.
  apply (proj1 (forallb_forall _ _) five_times_table).
  replace t with (Z.of_nat (Z.to_nat t)) by lia.
  apply in_map, in_seq. lia.
Qed.

(** A binary64 number of [[20,180]] is coarsened to a multiple of 5 of
    [[20,180]]. *)
Lemma coarsened_in_range (v : number) :
  valid_binary Num.prec Num.emax v = true ->
  Num.within 20 180 v = true ->
  Num.multiple_of 5 (coarsened v) = true
  /\ Num.within 20 180 (coarsened v) = true.
Proof.
  intros Hv Hw.
  destruct v as [s|s| |s m e];
    try discriminate Hw; try (destruct s; discriminate Hw).
  destruct s; [discriminate Hw|].
  destruct (fifth_rounds_to_whole m e Hv Hw) as (t & Ht & Hround).
  unfold coarsened. rewrite Hround.
  pose proof (five_times_upto_36 t Ht) as Hok. unfold five_times_exact in Hok.
  apply andb_prop in Hok as [Hok Hrange]. apply andb_prop in Hok as [Hid Hmul].
  apply identical_eq in Hid. rewrite Hid. split; assumption.
Qed.

(** *** Whole numbers in binary64

    What the toolkit's [clampTiming] needs beyond [[20,180]]: the
    quotient by 5 of a number of magnitude at most [2^50] is rounded to
    a whole number [t] of magnitude at most [2^50], and [5 * t], being
    below [2^53], is computed exactly. *)

(** *** Shifts *)

Lemma iter_pos_nat {A : Type} (f : A -> A) (p : positive) (x : A) :
  iter_pos f p x = Nat.iter (Pos.to_nat p) f x.
Proof.
  revert x. induction p as [p IH|p IH|]; intros x; simpl iter_pos.
  - rewrite !IH. rewrite Pos2Nat.inj_xI.
    replace (S (2 * Pos.to_nat p)) with (Pos.to_nat p + (Pos.to_nat p + 1))%nat
      by lia.
    rewrite !Nat.iter_add. reflexivity.
  - rewrite !IH. rewrite Pos2Nat.inj_xO.
    replace (2 * Pos.to_nat p)%nat with (Pos.to_nat p + Pos.to_nat p)%nat
      by lia.
    rewrite Nat.iter_add. reflexivity.
  - reflexivity.
Qed.

Lemma shr_iter_m (n : nat) (mrs : shr_record) :
  0 <= shr_m mrs ->
  shr_m (Nat.iter n shr_1 mrs) = shr_m mrs / 2 ^ Z.of_nat n.
Proof.
  intros Hm. induction n as [|n IH].
  - simpl. now rewrite Z.div_1_r.
  - rewrite Nat2Z.inj_succ, Z.pow_succ_r by lia.
    change (Nat.iter (S n) shr_1 mrs) with (shr_1 (Nat.iter n shr_1 mrs)).
    rewrite shr_1_m.
    + rewrite IH. rewrite Z.div_div by (try apply Z.pow_pos_nonneg; lia).
      f_equal. lia.
    + rewrite IH. apply Z.div_pos; [lia|]. apply Z.pow_pos_nonneg; lia.
Qed.

(** The mantissa and the exponent after [shr_fexp]. *)
Lemma shr_fexp_m (m e : Z) (l : location) :
  0 <= m ->
  let n := fexp Num.prec Num.emax (Zdigits2 m + e) - e in
  shr_m (fst (shr_fexp Num.prec Num.emax m e l))
  = (if 0 <? n then m / 2 ^ n else m)
  /\ snd (shr_fexp Num.prec Num.emax m e l) = (if 0 <? n then e + n else e).
Proof.
  intros Hm n. unfold shr_fexp. fold n. unfold shr.
  destruct n as [|p|p] eqn:En; simpl fst; simpl snd.
  - now rewrite shr_m_of_loc.
  - rewrite iter_pos_nat, shr_iter_m by now rewrite shr_m_of_loc.
    rewrite shr_m_of_loc, positive_nat_Z. split; reflexivity.
  - now rewrite shr_m_of_loc.
Qed.


Lemma digits2_below (m j : Z) : 0 <= m < 2 ^ j -> 0 <= j -> Zdigits2 m <= j.
Proof.
  intros [Hm Hlt] Hj. destruct m as [|p|p]; simpl; try lia.
  pose proof (digits2_bounds p) as [Hlo _].
  destruct (Z_le_gt_dec (Zpos (digits2_pos p)) j) as [H|H]; [exact H|].
  assert (2 ^ j <= 2 ^ (Zpos (digits2_pos p) - 1))
    by (apply Z.pow_le_mono_r; lia).
  lia.
Qed.

Lemma fexp_below (x k : Z) :
  x <= k -> -1074 <= k -> fexp Num.prec Num.emax x <= k.
Proof. unfold fexp, emin, Num.prec, Num.emax. lia. Qed.

(** The result of rounding stays below the power of two that bounds
    its argument. *)
Lemma round_aux_below (s : bool) (M E k : Z) (l : location) :
  0 <= M < 2 ^ (k - E) -> E <= k -> -1074 <= k <= 971 ->
  binary_round_aux Num.prec Num.emax s M E l = S754_zero s
  \/ exists m e,
       binary_round_aux Num.prec Num.emax s M E l = S754_finite s m e
       /\ Zpos m <= 2 ^ (k - e) /\ e <= k.
Proof.
  intros [HM Hlt] HE Hk. unfold binary_round_aux.
  pose proof (shr_fexp_m M E l HM) as [Hm1 He1]. cbv zeta in Hm1, He1.
  destruct (shr_fexp Num.prec Num.emax M E l) as [mrs1 e1].
  simpl fst in Hm1. simpl snd in He1.
  set (n1 := fexp Num.prec Num.emax (Zdigits2 M + E) - E) in *.
  assert (H1 : 0 <= shr_m mrs1 < 2 ^ (k - e1) /\ e1 <= k).
  { rewrite Hm1, He1. destruct (Z.ltb_spec 0 n1) as [Hn|Hn].
    - assert (Hf : fexp Num.prec Num.emax (Zdigits2 M + E) <= k).
      { apply fexp_below; [|lia].
        pose proof (digits2_below M (k - E) ltac:(lia) ltac:(lia)). lia. }
      assert (He : E + n1 <= k) by (unfold n1; lia).
      split; [|exact He]. split.
      + apply Z.div_pos; [lia|]. apply Z.pow_pos_nonneg; lia.
      + apply Z.div_lt_upper_bound; [apply Z.pow_pos_nonneg; lia|].
        rewrite <- Z.pow_add_r by lia.
        now replace (n1 + (k - (E + n1))) with (k - E) by lia.
    - split; [split|]; lia. }
  destruct H1 as [[Hm1lo Hm1hi] He1k].
  pose proof (round_nearest_even_bounds (shr_m mrs1)
                (loc_of_shr_record mrs1)) as Hr.
  set (m2 := round_nearest_even (shr_m mrs1) (loc_of_shr_record mrs1)) in *.
  assert (Hm2 : 0 <= m2 <= 2 ^ (k - e1)) by lia.
  pose proof (shr_fexp_m m2 e1 loc_Exact ltac:(lia)) as [Hm3 He3].
  cbv zeta in Hm3, He3.
  destruct (shr_fexp Num.prec Num.emax m2 e1 loc_Exact) as [mrs3 e3].
  simpl fst in Hm3. simpl snd in He3.
  set (n2 := fexp Num.prec Num.emax (Zdigits2 m2 + e1) - e1) in *.
  assert (H3 : 0 <= shr_m mrs3 <= 2 ^ (k - e3) /\ e3 <= k).
  { rewrite Hm3, He3. destruct (Z.ltb_spec 0 n2) as [Hn|Hn].
    - assert (Hf : fexp Num.prec Num.emax (Zdigits2 m2 + e1) <= k).
      { assert (Hlt2 : m2 < 2 ^ (k - e1 + 1)).
        { rewrite Z.pow_add_r by lia.
          assert (0 < 2 ^ (k - e1)) by (apply Z.pow_pos_nonneg; lia).
          lia. }
        pose proof (digits2_below m2 (k - e1 + 1) ltac:(lia) ltac:(lia)).
        unfold fexp, emin, Num.prec, Num.emax. lia. }
      assert (He : e1 + n2 <= k) by (unfold n2; lia).
      split; [|exact He]. split.
      + apply Z.div_pos; [lia|]. apply Z.pow_pos_nonneg; lia.
      + apply Z.div_le_upper_bound; [apply Z.pow_pos_nonneg; lia|].
        rewrite <- Z.pow_add_r by lia.
        now replace (n2 + (k - (e1 + n2))) with (k - e1) by lia.
    - split; [split|]; lia. }
  destruct H3 as [[Hm3lo Hm3hi] He3k].
  destruct (shr_m mrs3) as [|m|m]; [now left| |lia].
  right. exists m, e3.
  replace (e3 <=? Num.emax - Num.prec) with true
    by (symmetry; apply Z.leb_le; unfold Num.emax, Num.prec; lia).
  repeat split; assumption.
Qed.


(** *** Whole numbers are rounded to themselves *)

Lemma to_Z_denotes (s : bool) (p : positive) (e z : Z) :
  denotes (Zpos p) e z ->
  Num.to_Z (S754_finite s p e) = Some (with_sign s z).
Proof.
  intros [[He ->] | [He Hp]]; unfold Num.to_Z.
  - replace (0 <=? e) with true by (symmetry; now apply Z.leb_le).
    rewrite Z.shiftl_mul_pow2 by lia. f_equal.
    destruct s; unfold with_sign; simpl Num.signed; [|reflexivity].
    change (Z.neg p) with (- Zpos p). lia.
  - replace (0 <=? e) with false by (symmetry; apply Z.leb_gt; lia).
    assert (Hpow : 0 < 2 ^ (- e)) by (apply Z.pow_pos_nonneg; lia).
    rewrite Z.land_ones by lia. rewrite Hp, Z.mod_mul by lia.
    rewrite Z.eqb_refl. rewrite Z.shiftr_div_pow2 by lia.
    f_equal. destruct s; simpl Num.signed; unfold with_sign.
    + change (Z.neg p) with (- Zpos p). rewrite Hp.
      rewrite <- Z.mul_opp_l. apply Z.div_mul. lia.
    + rewrite Hp. apply Z.div_mul. lia.
Qed.

Lemma shr_1_even (a : Z) :
  0 <= a ->
  shr_1 {| shr_m := 2 * a; shr_r := false; shr_s := false |}
  = {| shr_m := a; shr_r := false; shr_s := false |}.
Proof. intros Ha. destruct a as [|p|p]; [reflexivity|reflexivity|lia]. Qed.

Lemma shr_iter_exact (n : nat) (a : Z) :
  0 <= a ->
  Nat.iter n shr_1
    {| shr_m := a * 2 ^ Z.of_nat n; shr_r := false; shr_s := false |}
  = {| shr_m := a; shr_r := false; shr_s := false |}.
Proof.
  intros Ha. revert a Ha. induction n as [|n IH]; intros a Ha.
  - simpl. now rewrite Z.mul_1_r.
  - change (Nat.iter (S n) shr_1 ?x) with (shr_1 (Nat.iter n shr_1 x)).
    rewrite Nat2Z.inj_succ, Z.pow_succ_r by lia.
    replace (a * (2 * 2 ^ Z.of_nat n)) with ((2 * a) * 2 ^ Z.of_nat n) by lia.
    rewrite IH by lia. now apply shr_1_even.
Qed.

Lemma digits2_shift (a n : Z) :
  0 < a -> 0 <= n -> Zdigits2 (a * 2 ^ n) = Zdigits2 a + n.
Proof.
  intros Ha Hn.
  assert (Hpos : 0 < a * 2 ^ n)
    by (apply Z.mul_pos_pos; [lia|apply Z.pow_pos_nonneg; lia]).
  destruct a as [|p|p]; try lia.
  destruct (Zpos p * 2 ^ n) as [|q|q] eqn:E; try lia.
  simpl Zdigits2. pose proof (digits2_bounds p) as [Hlo Hhi].
  apply digits2_unique. rewrite <- E.
  replace (Zpos (digits2_pos p) + n - 1)
    with ((Zpos (digits2_pos p) - 1) + n) by lia.
  rewrite !Z.pow_add_r by lia.
  assert (0 < 2 ^ n) by (apply Z.pow_pos_nonneg; lia).
  split; nia.
Qed.

Lemma round_aux_exact (s : bool) (M E z : Z) :
  0 < M -> 0 < z < 2 ^ 53 -> denotes M E z ->
  Num.to_Z (binary_round_aux Num.prec Num.emax s M E loc_Exact)
  = Some (with_sign s z).
Proof.
  intros HM Hz Hden.
  assert (Hlt : M < 2 ^ (53 - E) /\ E < 53).
  { destruct Hden as [[He ->] | [He ->]].
    - assert (HE : E < 53).
      { destruct (Z_lt_ge_dec E 53) as [H|H]; [exact H|].
        assert (2 ^ 53 <= 2 ^ E) by (apply Z.pow_le_mono_r; lia).
        assert (0 < 2 ^ E) by (apply Z.pow_pos_nonneg; lia). nia. }
      split; [|exact HE].
      assert (0 < 2 ^ E) by (apply Z.pow_pos_nonneg; lia).
      assert (2 ^ 53 = 2 ^ (53 - E) * 2 ^ E).
      { rewrite <- Z.pow_add_r by lia. f_equal. lia. }
      nia.
    - split; [|lia].
      replace (53 - E) with (53 + - E) by lia.
      rewrite Z.pow_add_r by lia.
      assert (0 < 2 ^ (- E)) by (apply Z.pow_pos_nonneg; lia). nia. }
  destruct Hlt as [Hlt HE].
  pose proof (digits2_below M (53 - E) ltac:(lia) ltac:(lia)) as Hd.
  set (f := fexp Num.prec Num.emax (Zdigits2 M + E)).
  assert (Hf : f <= 0 /\ -1074 <= f /\ Zdigits2 M + E - 53 <= f)
    by (unfold f, fexp, emin, Num.prec, Num.emax; lia).
  assert (Hfinal : forall p e,
             denotes (Zpos p) e z -> e <= 971 ->
             Num.to_Z (if e <=? Num.emax - Num.prec
                       then S754_finite s p e else S754_infinity s)
             = Some (with_sign s z)).
  { intros p e Hp He.
    replace (e <=? Num.emax - Num.prec) with true
      by (symmetry; apply Z.leb_le; unfold Num.emax, Num.prec; lia).
    now apply to_Z_denotes. }
  unfold binary_round_aux, shr_fexp. fold f.
  destruct (Z_le_gt_dec (f - E) 0) as [Hn|Hn].
  - assert (Hshr : forall mrs, shr mrs E (f - E) = (mrs, E)).
    { intros mrs. unfold shr. destruct (f - E); try reflexivity. lia. }
    rewrite Hshr. cbv beta iota. rewrite shr_m_of_loc, loc_of_loc.
    simpl round_nearest_even. fold f. rewrite Hshr. cbv beta iota.
    rewrite shr_m_of_loc. destruct M as [|p|p]; try lia.
    apply Hfinal; [exact Hden|lia].
  - destruct Hden as [[He _] | [He HMz]]; [lia|].
    set (a := z * 2 ^ (- f)).
    assert (Ha : 0 < a)
      by (apply Z.mul_pos_pos; [lia|apply Z.pow_pos_nonneg; lia]).
    assert (HMa : M = a * 2 ^ (f - E)).
    { unfold a. rewrite <- Z.mul_assoc, <- Z.pow_add_r by lia.
      rewrite HMz. f_equal. f_equal. lia. }
    assert (Hshr : shr (shr_record_of_loc M loc_Exact) E (f - E)
                   = ({| shr_m := a; shr_r := false; shr_s := false |}, f)).
    { unfold shr. destruct (f - E) as [|n|n] eqn:En; try lia.
      rewrite iter_pos_nat. simpl shr_record_of_loc. rewrite HMa.
      rewrite <- (positive_nat_Z n).
      rewrite shr_iter_exact by lia. f_equal. lia. }
    rewrite Hshr. cbv beta iota. simpl shr_m. simpl loc_of_shr_record.
    simpl round_nearest_even.
    assert (Hda : fexp Num.prec Num.emax (Zdigits2 a + f) = f).
    { unfold f at 2. f_equal. rewrite HMa.
      rewrite digits2_shift by lia. lia. }
    rewrite Hda. replace (f - f) with 0 by lia. simpl shr.
    cbv beta iota. simpl shr_m.
    assert (Haz : a = z * 2 ^ (- f)) by reflexivity.
    clearbody a. clear Hshr Hda HMa. clearbody f.
    destruct a as [|p|p]; try lia.
    apply Hfinal; [|lia].
    destruct (Z.eq_dec f 0) as [Hf0|Hf0].
    + left. split; [lia|]. subst f. simpl in Haz. simpl. lia.
    + right. split; [lia|exact Haz].
Qed.


Lemma iter_xO (m d : positive) :
  Zpos (Pos.iter xO m d) = Zpos m * 2 ^ Zpos d.
Proof.
  induction d as [|d IH] using Pos.peano_ind.
  - simpl. lia.
  - rewrite Pos.iter_succ, Pos2Z.inj_succ, Z.pow_succ_r by lia.
    rewrite Pos2Z.inj_xO, IH. lia.
Qed.

Lemma of_Z_whole (t : Z) :
  - 2 ^ 53 < t < 2 ^ 53 -> Num.to_Z (num t) = Some t.
Proof.
  intros Ht. unfold num, Num.of_Z, binary_normalize.
  assert (G : forall s p, Zpos p < 2 ^ 53 ->
              Num.to_Z (binary_round Num.prec Num.emax s p 0)
              = Some (with_sign s (Zpos p))).
  { intros s p Hp. unfold binary_round, shl_align.
    destruct (fexp Num.prec Num.emax (Zpos (digits2_pos p) + 0) - 0)
      as [|d|d] eqn:E.
    - apply round_aux_exact; [lia|lia|]. left. split; [lia|]. simpl. lia.
    - apply round_aux_exact; [lia|lia|]. left. split; [lia|]. simpl. lia.
    - apply round_aux_exact; [lia|lia|].
      right. split.
      + lia.
      + rewrite iter_xO. f_equal. f_equal. lia. }
  destruct t as [|p|p].
  - reflexivity.
  - apply (G false p). lia.
  - apply (G true p). lia.
Qed.

Lemma to_Z_finite (s : bool) (m : positive) (e z : Z) :
  Num.to_Z (S754_finite s m e) = Some z ->
  exists z0, 0 < z0 /\ denotes (Zpos m) e z0 /\ z = with_sign s z0.
Proof.
  intros H.
  assert (G : exists z0, 0 < z0 /\ denotes (Zpos m) e z0).
  { unfold Num.to_Z in H. destruct (Z.leb_spec 0 e) as [He|He].
    - exists (Zpos m * 2 ^ e). split.
      + apply Z.mul_pos_pos; [lia|apply Z.pow_pos_nonneg; lia].
      + left. split; [exact He|reflexivity].
    - destruct (Z.eqb_spec (Z.land (Zpos m) (Z.ones (- e))) 0) as [Hl|Hl];
        [|discriminate].
      rewrite Z.land_ones in Hl by lia.
      assert (Hpow : 0 < 2 ^ (- e)) by (apply Z.pow_pos_nonneg; lia).
      pose proof (Z.div_mod (Zpos m) (2 ^ (- e)) ltac:(lia)) as Hdm.
      rewrite Hl, Z.add_0_r in Hdm.
      exists (Zpos m / 2 ^ (- e)). split.
      + assert (0 <= Zpos m / 2 ^ (- e)) by (apply Z.div_pos; lia). nia.
      + right. split; [exact He|]. lia. }
  destruct G as (z0 & Hz0 & Hden). exists z0.
  rewrite (to_Z_denotes s m e z0 Hden) in H. injection H as <-. auto.
Qed.

(** A whole number below [2^50] times 5 is computed exactly. *)
Lemma times_five_whole (x : number) (z : Z) :
  Num.to_Z x = Some z -> - 2 ^ 50 <= z <= 2 ^ 50 ->
  Num.to_Z (Num.mul x (num 5)) = Some (5 * z).
Proof.
  intros Hx Hz. rewrite five_finite.
  destruct x as [s|s| |s m e]; try discriminate.
  - injection Hx as <-. reflexivity.
  - destruct (to_Z_finite s m e z Hx) as (z0 & Hz0 & Hden & ->).
    assert (Hz0' : z0 <= 2 ^ 50) by (destruct s; unfold with_sign in Hz; lia).
    unfold Num.mul, SFmul. rewrite xorb_false_r.
    rewrite (round_aux_exact s _ _ (5 * z0)).
    + f_equal. destruct s; unfold with_sign; lia.
    + lia.
    + change (2 ^ 53) with (8 * 2 ^ 50). lia.
    + rewrite Pos2Z.inj_mul.
      change (Zpos five_mantissa) with (5 * 2 ^ 50).
      destruct Hden as [[He ->] | [He Hm]].
      * destruct (Z_le_gt_dec 50 e) as [H50|H50].
        -- left. split; [lia|].
           replace e with (50 + (e - 50)) at 1 by lia.
           rewrite Z.pow_add_r by lia.
           replace (e + -50) with (e - 50) by lia. lia.
        -- right. split; [lia|].
           replace (- (e + -50)) with (50 - e) by lia.
           assert (H : 2 ^ 50 = 2 ^ e * 2 ^ (50 - e)).
           { rewrite <- Z.pow_add_r by lia. f_equal. lia. }
           rewrite H. lia.
      * right. split; [lia|].
        replace (- (e + -50)) with (- e + 50) by lia.
        rewrite Z.pow_add_r by lia. rewrite Hm. lia.
Qed.


(** [Math.round] of a number of magnitude at most [2^k] is a whole
    number of magnitude at most [2^k]. *)
Lemma round_whole (q : number) (s : bool) (k : Z) :
  0 <= k <= 52 ->
  q = S754_zero s
  \/ (exists m e, q = S754_finite s m e /\ Zpos m <= 2 ^ (k - e) /\ e <= k) ->
  exists t, Num.to_Z (Num.round q) = Some t /\ - 2 ^ k <= t <= 2 ^ k.
Proof.
  intros Hk [-> | (m & e & -> & Hm & He)].
  - exists 0. split; [reflexivity|].
    assert (0 < 2 ^ k) by (apply Z.pow_pos_nonneg; lia). lia.
  - assert (Hk0 : 0 < 2 ^ k) by (apply Z.pow_pos_nonneg; lia).
    unfold Num.round. destruct (Z.leb_spec 0 e) as [He0|He0].
    + exists (with_sign s (Zpos m * 2 ^ e)). split.
      * apply to_Z_denotes. left. split; [exact He0|reflexivity].
      * assert (Hb : Zpos m * 2 ^ e <= 2 ^ k).
        { replace k with ((k - e) + e) at 1 by lia.
          rewrite Z.pow_add_r by lia.
          apply Z.mul_le_mono_nonneg_r; [apply Z.pow_nonneg; lia|exact Hm]. }
        assert (0 < Zpos m * 2 ^ e)
          by (apply Z.mul_pos_pos; [lia|apply Z.pow_pos_nonneg; lia]).
        destruct s; unfold with_sign; lia.
    + rewrite Z.shiftr_div_pow2 by lia. rewrite Z.shiftl_mul_pow2 by lia.
      rewrite Z.mul_1_l.
      set (P := 2 ^ (- e)).
      assert (HP : 0 < P) by (apply Z.pow_pos_nonneg; lia).
      assert (H2P : 2 ^ (1 - e) = 2 * P).
      { unfold P. replace (1 - e) with (Z.succ (- e)) by lia.
        rewrite Z.pow_succ_r by lia. reflexivity. }
      rewrite H2P.
      assert (HmP : Zpos m <= 2 ^ k * P).
      { unfold P. rewrite <- Z.pow_add_r by lia.
        now replace (k + - e) with (k - e) by lia. }
      assert (Hsm : - (2 ^ k * P) <= Num.signed s m <= 2 ^ k * P).
      { destruct s; simpl Num.signed; [change (Z.neg m) with (- Zpos m)|];
          lia. }
      set (t := (2 * Num.signed s m + P) / (2 * P)).
      assert (Ht : - 2 ^ k <= t <= 2 ^ k).
      { unfold t. split.
        - apply Z.div_le_lower_bound; [lia|]. nia.
        - apply Z.lt_succ_r. apply Z.div_lt_upper_bound; [lia|]. nia. }
      exists t. split; [|exact Ht].
      destruct (Z.eqb_spec t 0) as [->|Hne]; [reflexivity|].
      apply of_Z_whole.
      assert (2 ^ k <= 2 ^ 52) by (apply Z.pow_le_mono_r; lia).
      change (2 ^ 53) with (2 * 2 ^ 52). lia.
Qed.

(** The fifth of a number of magnitude at most [2^50]: a rounding of a
    quotient below [2^50]. *)
Lemma fifth_below (s : bool) (m : positive) (e : Z) :
  Zpos m <= 2 ^ (50 - e) -> e <= -2 ->
  exists M E l,
    Num.div (S754_finite s m e) (num 5)
    = binary_round_aux Num.prec Num.emax s M E l
    /\ 0 <= M < 2 ^ (50 - E) /\ E <= 50.
Proof.
  intros Hm He. rewrite five_finite.
  unfold Num.div, SFdiv, SFdiv_core_binary. rewrite xorb_false_r.
  set (E := Z.min (fexp Num.prec Num.emax
                     (Zdigits2 (Zpos m) + e
                      - (Zdigits2 (Zpos five_mantissa) + -50)))
                  (e - -50)).
  assert (HE : E <= e + 50) by (unfold E; lia).
  set (m' := match e - -50 - E with
             | 0 => Zpos m
             | Zpos _ => Z.shiftl (Zpos m) (e - -50 - E)
             | Zneg _ => 0
             end).
  assert (Hm' : m' = Zpos m * 2 ^ (e + 50 - E)).
  { unfold m'. replace (e - -50 - E) with (e + 50 - E) by lia.
    destruct (e + 50 - E) as [|p|p] eqn:Es.
    - now rewrite Z.pow_0_r, Z.mul_1_r.
    - now rewrite Z.shiftl_mul_pow2 by lia.
    - lia. }
  assert (Hbound : 0 <= m' < Zpos five_mantissa * 2 ^ (50 - E)).
  { rewrite Hm'.
    assert (Hp : 0 < 2 ^ (e + 50 - E)) by (apply Z.pow_pos_nonneg; lia).
    split; [lia|].
    change (Zpos five_mantissa) with (5 * 2 ^ 50).
    assert (Hle : Zpos m * 2 ^ (e + 50 - E)
                  <= 2 ^ (50 - e) * 2 ^ (e + 50 - E))
      by (apply Z.mul_le_mono_nonneg_r; lia).
    rewrite <- Z.pow_add_r in Hle by lia.
    replace (50 - e + (e + 50 - E)) with (50 + (50 - E)) in Hle by lia.
    rewrite Z.pow_add_r in Hle by lia.
    assert (0 < 2 ^ 50 * 2 ^ (50 - E))
      by (apply Z.mul_pos_pos; apply Z.pow_pos_nonneg; lia).
    lia. }
  assert (Hq : 0 <= m' / Zpos five_mantissa < 2 ^ (50 - E)).
  { split.
    - apply Z.div_pos; lia.
    - apply Z.div_lt_upper_bound; lia. }
  unfold Z.div in Hq.
  destruct (Z.div_eucl m' (Zpos five_mantissa)) as [q r].
  exists q, E, (new_location (Zpos five_mantissa) r).
  split; [reflexivity|]. split; [exact Hq|lia].
Qed.

Lemma leb_finite_neg (m1 m2 : positive) (e1 e2 : Z) :
  SFleb (S754_finite true m1 e1) (S754_finite true m2 e2) = true ->
  e2 < e1 \/ (e1 = e2 /\ Zpos m2 <= Zpos m1).
Proof.
  unfold SFleb, SFcompare.
  destruct (Z.compare_spec e1 e2) as [E|E|E]; try discriminate; auto.
  change (Pos.compare_cont Eq m1 m2) with (Pos.compare m1 m2).
  destruct (Pos.compare_spec m1 m2) as [M|M|M]; try discriminate;
    intros _; right; split; auto; lia.
Qed.

Lemma moderate_finite (s : bool) (m : positive) (e : Z) :
  moderate (S754_finite s m e) -> Zpos m <= 2 ^ (50 - e) /\ e <= -2.
Proof.
  intros [Hv Hw].
  assert (Hd : Zpos (digits2_pos m) <= 53).
  { unfold valid_binary, bounded, canonical_mantissa in Hv.
    apply andb_prop in Hv as [Hc _]. apply Z.eqb_eq in Hc.
    unfold fexp, emin, Num.prec, Num.emax in Hc. lia. }
  assert (Hm : Zpos m < 2 ^ 53).
  { pose proof (digits2_bounds m) as [_ Hhi].
    assert (2 ^ Zpos (digits2_pos m) <= 2 ^ 53)
      by (apply Z.pow_le_mono_r; lia).
    lia. }
  assert (Hcase : e < -2 \/ (e = -2 /\ Zpos m <= 2 ^ 52)).
  { unfold Num.within, Num.leb in Hw. apply andb_prop in Hw as [Hlo Hhi].
    destruct s.
    - change (Num.of_Z (- 2 ^ 50))
        with (S754_finite true 4503599627370496 (-2)) in Hlo.
      apply leb_finite_neg in Hlo.
      change (Zpos 4503599627370496) with (2 ^ 52) in Hlo. lia.
    - change (Num.of_Z (2 ^ 50))
        with (S754_finite false 4503599627370496 (-2)) in Hhi.
      apply leb_finite in Hhi.
      change (Zpos 4503599627370496) with (2 ^ 52) in Hhi. lia. }
  destruct Hcase as [He | [-> Hm2]].
  - split; [|lia].
    assert (2 ^ 53 <= 2 ^ (50 - e)) by (apply Z.pow_le_mono_r; lia). lia.
  - split; [exact Hm2|lia].
Qed.

(** Between [-2^50] and [2^50] the toolkit's rounding yields a
    multiple of 5: the quotient is rounded to a whole number [t], and
    [5 * t] is computed exactly. *)
Lemma coarsened_multiple (v : number) :
  moderate v -> Num.multiple_of 5 (coarsened v) = true.
Proof.
  intros Hv. destruct v as [s|s| |s m e].
  - now destruct s.
  - destruct Hv as [_ Hw]. now destruct s.
  - destruct Hv as [_ Hw]. discriminate Hw.
  - destruct (moderate_finite s m e Hv) as [Hm He].
    destruct (fifth_below s m e Hm He) as (M & E & l & Hdiv & HM & HE).
    pose proof (round_aux_below s M E 50 l HM HE ltac:(lia)) as Hq.
    rewrite <- Hdiv in Hq.
    destruct (round_whole _ s 50 ltac:(lia) Hq) as (t & Ht & Hb).
    unfold coarsened, Num.multiple_of.
    rewrite (times_five_whole _ t Ht Hb).
    apply Z.eqb_eq. rewrite Z.mul_comm. apply Z.mod_mul. lia.
Qed.

(** C6 (amended). For every non-empty timing record whose values are
    numbers between [-2^50] and [2^50], every value of the record
    returned by the toolkit's [clampTiming] is a multiple of 5: the
    method rounds each value to the nearest multiple of 5,
    [Math.round(v / 5) * 5].  It does not bound the values: those of a
    record within [[20,180]] stay within it, and a value outside is
    only rounded (1000 stays 1000). *)
Theorem toolkit_clampTiming_coarsens (es : timing_record) :
  es <> [] -> Forall (fun kv => moderate (snd kv)) es ->
  exists out,
    DefenceToolkit.clampTiming (timing_value es) = Return out
    /\ out = timing_fromEntries
               (map (fun kv => (fst kv, coarsened (snd kv))) es)
    /\ Forall (fun kv => Num.multiple_of 5 (snd kv) = true) out
    /\ (Forall (fun kv => Num.within 20 180 (snd kv) = true) es ->
        Forall (fun kv => Num.within 20 180 (snd kv) = true) out).
Proof.
  intros Hne Hall.
  exists (timing_fromEntries
            (map (fun kv => (fst kv, coarsened (snd kv))) es)).
  split; [|split; [reflexivity|split]].
  - unfold DefenceToolkit.clampTiming. rewrite validateTimings_ok; auto.
    revert Hall. apply Forall_impl. intros [k v] [_ Hw]. simpl in *.
    destruct v as [s|s| |s m e]; try reflexivity. discriminate Hw.
  - apply (fromEntries_Forall (fun x => Num.multiple_of 5 x = true)).
    apply Forall_map. revert Hall. apply Forall_impl.
    intros [k v] Hv. simpl in *. now apply coarsened_multiple.
  - intros Hrange.
    apply (fromEntries_Forall (fun x => Num.within 20 180 x = true)).
    apply Forall_map. rewrite Forall_forall in *.
    intros [k v] Hin. simpl.
    destruct (Hall _ Hin) as [Hv _]. pose proof (Hrange _ Hin) as Hw.
    simpl in *. now apply coarsened_in_range.
Qed.

Lemma toolkit_clampTiming_coarsens_witness :
  let es := [("prime", num 1000); ("speculate", num (-7));
             ("probe", Num.div (num 25) (num 2))] in
  (es <> [] /\ Forall (fun kv => moderate (snd kv)) es)
  /\ exists out,
       DefenceToolkit.clampTiming (timing_value es) = Return out
       /\ out = [("prime", num 1000); ("speculate", num (-5));
                 ("probe", num 15)]
       /\ Forall (fun kv => Num.multiple_of 5 (snd kv) = true) out.
Proof.
  assert (Hne : [("prime", num 1000); ("speculate", num (-7));
                 ("probe", Num.div (num 25) (num 2))] <> []).
  { discriminate. }
  assert (Hall : Forall (fun kv : string * number => moderate (snd kv))
                   [("prime", num 1000); ("speculate", num (-7));
                    ("probe", Num.div (num 25) (num 2))]).
  { repeat constructor. }
  split; [split; assumption|].
  destruct (toolkit_clampTiming_coarsens _ Hne Hall)
    as (out & E & Hout & Hmul & _).
  exists out. split; [exact E|]. split; [|exact Hmul].
  rewrite Hout. reflexivity.
Defined.

Lemma coarsens_exactly_table :
  forallb coarsens_exactly (map Z.of_nat (seq 0 1001)) = true.
Proof. vm_compute. reflexivity. Qed.

Lemma coarsened_whole (z : Z) :
  0 <= z <= 1000 -> coarsened (num z) = num (nearest5 z).
Proof.
  intros Hz. apply identical_eq.
  apply (proj1 (forallb_forall _ _) coarsens_exactly_table).
  replace z with (Z.of_nat (Z.to_nat z)) by lia.
  apply in_map, in_seq. lia.
Qed.

End TimingRecords.

(* ------------------------------------------------------------------ *)
(** * Further properties *)

(** ** Lists *)

Lemma lastn_all {A : Type} (n : nat) (l : list A) :
  (List.length l <= n)%nat -> lastn n l = l.
Proof.
  intros H. unfold lastn. now replace (List.length l - n)%nat with 0%nat by lia.
Qed.

Lemma lastn_length {A : Type} (n : nat) (l : list A) :
  List.length (lastn n l) = Nat.min n (List.length l).
Proof. unfold lastn. rewrite length_skipn. lia. Qed.

Lemma lastn_app_lastn {A : Type} (n : nat) (l r : list A) :
  lastn n (lastn n l ++ r) = lastn n (l ++ r).
Proof.
  destruct (Nat.le_gt_cases (List.length l) n) as [Hle|Hgt].
  - now rewrite (lastn_all n l Hle).
  - unfold lastn at 1 3. rewrite !length_app, lastn_length.
    unfold lastn. set (k := (List.length l - n)%nat).
    replace (Nat.min n (List.length l) + List.length r - n)%nat
      with (List.length r) by lia.
    replace (List.length l + List.length r - n)%nat
      with (List.length r + k)%nat by (unfold k; lia).
    rewrite <- skipn_skipn. f_equal.
    rewrite skipn_app.
    replace (k - List.length l)%nat with 0%nat by (unfold k; lia).
    reflexivity.
Qed.

Lemma lastn_snoc {A : Type} (n : nat) (l : list A) (x : A) :
  lastn (S n) (l ++ [x]) = (lastn n l ++ [x])%list.
Proof.
  unfold lastn. rewrite length_app. simpl.
  replace (List.length l + 1 - S n)%nat with (List.length l - n)%nat by lia.
  rewrite skipn_app.
  replace (List.length l - n - List.length l)%nat with 0%nat by lia.
  reflexivity.
Qed.

(* ------------------------------------------------------------------ *)
(** ** BranchPredictor: sequences of predictions *)

Section PredictorSequences.

Import BranchPredictor.

Lemma learn_eq (this : t) (outcome : value) :
  learn this outcome =
  {| history := remembered (history this) (truthy outcome);
     threshold := threshold this;
     counter := if truthy outcome then Z.min 3 (counter this + 1)
                else Z.max 0 (counter this - 1) |}.
Proof. unfold learn. now rewrite predict_eq. Qed.

Lemma learn_ok (this : t) (outcome : value) :
  predictor_ok this -> predictor_ok (learn this outcome).
Proof. apply predictor_ok_step. Qed.

Lemma trained_ok (outcomes : list value) (this : t) :
  predictor_ok this -> predictor_ok (trained outcomes this).
Proof.
  revert this. induction outcomes as [|v vs IH]; intros this H; simpl; auto.
  apply IH. now apply learn_ok.
Qed.

(** A sequence of calls returns one prediction per outcome, each made
    before its own update, and never throws. *)
Lemma feed_returns (outcomes : list value) (this : t) :
  exists predictions warnings,
    mapM predict outcomes this =
      (Return predictions, trained outcomes this, warnings)
    /\ List.length predictions = List.length outcomes.
Proof.
  revert this. induction outcomes as [|v vs IH]; intros this.
  - exists [], []. split; reflexivity.
  - destruct (IH (learn this v)) as (ps & ws & E & Hlen).
    exists (predicts this :: ps), (coercion_warning v ++ ws ++ [])%list.
    split; [|simpl; now rewrite Hlen].
    simpl mapM. unfold bind at 1. rewrite predict_eq.
    rewrite learn_eq in E. unfold bind at 1. rewrite E.
    change (trained (v :: vs) this) with (trained vs (learn this v)).
    rewrite learn_eq. reflexivity.
Qed.

Lemma confidence_in_unit_interval (this : t) :
  predictor_ok this -> Num.within 0 1 (getConfidence this) = true.
Proof.
  intros (_ & Hc & _). unfold getConfidence.
  assert (H : counter this = 0 \/ counter this = 1
              \/ counter this = 2 \/ counter this = 3) by lia.
  destruct H as [-> | [-> | [-> | ->]]]; vm_compute; reflexivity.
Qed.

(** X1. Whatever values a new predictor is fed, no call throws, and
    afterwards the counter is within [[0,3]], the threshold is still 2,
    the history holds at most sixteen outcomes and the confidence
    [counter / 3] is within [[0,1]]. *)
Theorem predictor_stays_bounded (outcomes : list value) :
  exists predictions warnings this,
    mapM predict outcomes new = (Return predictions, this, warnings)
    /\ List.length predictions = List.length outcomes
    /\ threshold this = 2 /\ 0 <= counter this <= 3
    /\ (List.length (history this) <= 16)%nat
    /\ Num.within 0 1 (getConfidence this) = true.
Proof.
  destruct (feed_returns outcomes new) as (ps & ws & E & Hlen).
  pose proof (trained_ok outcomes new predictor_ok_new) as Hok.
  exists ps, ws, (trained outcomes new).
  split; [exact E|]. split; [exact Hlen|].
  pose proof (confidence_in_unit_interval _ Hok) as Hconf.
  destruct Hok as (Ht & Hc & Hh). auto.
Qed.

Lemma remembered_lastn (h : list bool) (b : bool) :
  (List.length h <= 16)%nat -> remembered h b = lastn 16 (h ++ [b]).
Proof.
  intros Hh. unfold remembered.
  destruct (Nat.ltb_spec (List.length h) 16) as [Hlt|Hge].
  - rewrite lastn_all; [reflexivity|]. rewrite length_app. simpl. lia.
  - rewrite lastn_snoc. f_equal. unfold lastn.
    replace (List.length h - 15)%nat with 1%nat by lia.
    now destruct h.
Qed.

Lemma trained_history (outcomes : list value) (this : t) :
  (List.length (history this) <= 16)%nat ->
  history (trained outcomes this) =
  lastn 16 (history this ++ map truthy outcomes).
Proof.
  revert this. induction outcomes as [|v vs IH]; intros this Hh; simpl.
  - rewrite app_nil_r. now rewrite lastn_all.
  - rewrite IH.
    + rewrite learn_eq. simpl. rewrite remembered_lastn by assumption.
      rewrite lastn_app_lastn. now rewrite <- app_assoc.
    + rewrite learn_eq. simpl. rewrite remembered_lastn by assumption.
      rewrite lastn_length. lia.
Qed.

(** X2. The history of a predictor is the last sixteen outcomes it was
    given, each normalised to a boolean, oldest first. *)
Theorem history_is_last_sixteen (outcomes : list value) :
  history (final (mapM predict outcomes new)) =
  lastn 16 (map truthy outcomes).
Proof.
  destruct (feed_returns outcomes new) as (ps & ws & E & _).
  rewrite E. unfold final. simpl.
  now rewrite trained_history by (simpl; lia).
Qed.

(** X3. Two consecutive outcomes with the same truth value decide the
    next prediction, whatever the counter was before: the third call
    returns that value. *)
Theorem two_equal_outcomes_teach (this : t) (first second third : value) :
  predictor_ok this -> truthy first = truthy second ->
  exists warnings,
    (_ <- predict first ;; _ <- predict second ;; predict third) this
    = (Return (truthy first),
       learn (learn (learn this first) second) third, warnings).
Proof.
  intros (Ht & Hc & _) Heq.
  assert (Hsays : predicts (learn (learn this first) second) = truthy first).
  { unfold predicts. rewrite !learn_eq. simpl. rewrite Ht, <- Heq.
    destruct (truthy first); [apply Z.leb_le | apply Z.leb_gt]; lia. }
  eexists. unfold bind. rewrite predict_eq, <- learn_eq.
  rewrite predict_eq, <- learn_eq. rewrite predict_eq, <- learn_eq.
  fold (predicts (learn (learn this first) second)). rewrite Hsays.
  reflexivity.
Qed.

Lemma two_equal_outcomes_teach_witness :
  let cold := {| history := [false; false]; threshold := 2; counter := 0 |} in
  (predictor_ok cold /\ truthy (VBool true) = truthy (VNumber (num 1)))
  /\ exists warnings,
       (_ <- predict (VBool true) ;; _ <- predict (VNumber (num 1)) ;;
        predict (VBool false)) cold
       = (Return true,
          {| history := [false; false; true; true; false];
             threshold := 2; counter := 1 |}, warnings).
Proof.
  assert (Hok : predictor_ok
                  {| history := [false; false]; threshold := 2;
                     counter := 0 |}).
  { unfold predictor_ok. simpl. lia. }
  split; [split; [exact Hok|reflexivity]|].
  exact (two_equal_outcomes_teach _ (VBool true) (VNumber (num 1))
           (VBool false) Hok eq_refl).
Defined.

(** X4. Three equal outcomes saturate the counter, and one contrary
    outcome after them does not turn the prediction: the fifth call
    still returns the value of the first three. *)
Theorem one_contrary_outcome_is_absorbed
  (this : t) (a b c contrary fifth : value) :
  predictor_ok this ->
  truthy a = truthy b -> truthy b = truthy c ->
  truthy contrary = negb (truthy a) ->
  let saturated := trained [a; b; c] this in
  counter saturated = (if truthy a then 3 else 0)
  /\ predicts (trained [a; b; c; contrary] this) = truthy a
  /\ fst (fst (predict fifth (trained [a; b; c; contrary] this)))
     = Return (truthy a).
Proof.
  intros (Ht & Hc & _) Hab Hbc Hcontrary. cbv zeta.
  assert (Hsat : counter (trained [a; b; c] this)
                 = if truthy a then 3 else 0).
  { unfold trained. simpl fold_left. rewrite !learn_eq. simpl.
    rewrite <- Hbc, <- Hab. destruct (truthy a); lia. }
  assert (Hsays : predicts (trained [a; b; c; contrary] this) = truthy a).
  { unfold predicts, trained. simpl fold_left. rewrite !learn_eq. simpl.
    rewrite Hcontrary, <- Hbc, <- Hab, Ht.
    destruct (truthy a); simpl; [apply Z.leb_le | apply Z.leb_gt]; lia. }
  split; [exact Hsat|]. split; [exact Hsays|].
  rewrite predict_eq. simpl. f_equal. exact Hsays.
Qed.

Lemma one_contrary_outcome_is_absorbed_witness :
  (predictor_ok new
   /\ truthy (VBool true) = truthy (VBool true)
   /\ truthy (VBool true) = truthy (VBool true)
   /\ truthy (VBool false) = negb (truthy (VBool true)))
  /\ counter (trained [VBool true; VBool true; VBool true] new) = 3
  /\ predicts (trained [VBool true; VBool true; VBool true; VBool false] new)
     = true.
Proof.
  split; [repeat split; try reflexivity; apply predictor_ok_new|].
  destruct (one_contrary_outcome_is_absorbed new (VBool true) (VBool true)
              (VBool true) (VBool false) (VBool false) predictor_ok_new
              eq_refl eq_refl eq_refl) as (H1 & H2 & _).
  split; [exact H1|exact H2].
Defined.

End PredictorSequences.

(* ------------------------------------------------------------------ *)
(** ** Numbers: order *)

Section NumberOrder.

Lemma compare_antisym (x y : number) :
  SFcompare y x =
  match SFcompare x y with
  | Some c => Some (CompOpp c)
  | None => None
  end.
Proof.
  destruct x as [sx|sx| |sx mx ex], y as [sy|sy| |sy my ey]; simpl;
    try reflexivity;
    try (destruct sx; reflexivity); try (destruct sy; reflexivity);
    try (destruct sx, sy; reflexivity).
  destruct sx, sy; try reflexivity.
  - rewrite (Z.compare_antisym ex ey).
    destruct (ex ?= ey); simpl; try reflexivity.
    fold (Pos.compare my mx). fold (Pos.compare mx my).
    rewrite (Pos.compare_antisym mx my).
    now destruct (mx ?= my)%positive.
  - rewrite (Z.compare_antisym ex ey).
    destruct (ex ?= ey); simpl; try reflexivity.
    fold (Pos.compare my mx). fold (Pos.compare mx my).
    now rewrite (Pos.compare_antisym mx my).
Qed.

Lemma same_value_zero_sym (x y : number) :
  Num.same_value_zero x y = Num.same_value_zero y x.
Proof.
  unfold Num.same_value_zero, SFeqb. rewrite (compare_antisym x y).
  destruct x as [sx|sx| |sx mx ex], y as [sy|sy| |sy my ey];
    try reflexivity; destruct (SFcompare _ _) as [[ | | ]|]; reflexivity.
Qed.

Lemma ltb_leb (x y : number) : SFltb x y = true -> SFleb x y = true.
Proof.
  unfold SFltb, SFleb. now destruct (SFcompare x y) as [[ | | ]|].
Qed.

Lemma not_ltb_leb (x y : number) :
  Num.isNaN x = false -> Num.isNaN y = false ->
  SFltb x y = false -> SFleb y x = true.
Proof.
  intros Hx Hy. unfold SFltb, SFleb. rewrite (compare_antisym x y).
  destruct (SFcompare x y) as [[ | | ]|] eqn:E; simpl; auto.
  destruct x, y; simpl in *; discriminate.
Qed.

(** The scalar clamp lands in [[20,180]] unless it is given NaN. *)
Lemma clampTiming_within (x : number) :
  Num.isNaN x = false -> Num.within 20 180 (clampTiming x) = true.
Proof.
  intros Hx. unfold clampTiming, Num.within, Num.leb.
  change (num 20) with (S754_finite false 5629499534213120 (-48)).
  change (Num.of_Z 20) with (S754_finite false 5629499534213120 (-48)).
  change (num 180) with (S754_finite false 6333186975989760 (-45)).
  change (Num.of_Z 180) with (S754_finite false 6333186975989760 (-45)).
  set (lo := S754_finite false 5629499534213120 (-48)).
  set (hi := S754_finite false 6333186975989760 (-45)).
  assert (Hmin : Num.min x hi = if SFltb hi x then hi else x).
  { destruct x; try discriminate; reflexivity. }
  rewrite Hmin. destruct (SFltb hi x) eqn:Hhi.
  - reflexivity.
  - assert (Hmax : Num.max lo x = if SFltb lo x then x else lo).
    { destruct x; try discriminate; reflexivity. }
    rewrite Hmax. destruct (SFltb lo x) eqn:Hlo.
    + rewrite (ltb_leb lo x Hlo). simpl.
      now apply not_ltb_leb.
    + reflexivity.
Qed.

End NumberOrder.

(* ------------------------------------------------------------------ *)
(** ** Cache hierarchy: sequences of accesses *)

Section CacheSequences.

Import CacheLevel.

Lemma has_app (a : number) (l r : list number) :
  has a (l ++ r) = has a l || has a r.
Proof. unfold has. apply existsb_app. Qed.

Lemma has_skipn (a : number) (k : nat) (l : list number) :
  has a l = false -> has a (skipn k l) = false.
Proof.
  revert l. induction k as [|k IH]; intros l H; [exact H|].
  destruct l as [|x l]; [reflexivity|]. simpl.
  apply IH. simpl in H. now apply orb_false_elim in H.
Qed.

(** The key a [Map] keeps is the key it was given, up to
    SameValueZero. *)
Lemma same_value_zero_key (a k : number) :
  Num.same_value_zero (key a) k = Num.same_value_zero a k.
Proof. now destruct a as [[|]|[|]| |sa ma ea]. Qed.

Lemma has_key (a : number) (l : list number) :
  has (key a) l = has a l.
Proof.
  induction l as [|k l IH]; simpl; [reflexivity|].
  now rewrite IH, same_value_zero_key.
Qed.

Lemma has_map_key (a : number) (l : list number) :
  has a (map key l) = has a l.
Proof.
  induction l as [|k l IH]; simpl; [reflexivity|].
  rewrite IH. f_equal.
  rewrite (same_value_zero_sym a (key k)), same_value_zero_key.
  apply same_value_zero_sym.
Qed.

Lemma has_installed (n : Z) (a : number) (l : list number) :
  has a (installed n a l) = true.
Proof.
  unfold installed. rewrite has_app. simpl.
  rewrite same_value_zero_sym, same_value_zero_key, same_value_zero_refl.
  now rewrite orb_true_r.
Qed.

Lemma installed_length (n : Z) (a : number) (l : list number) :
  1 <= n -> Z.of_nat (List.length l) <= n ->
  Z.of_nat (List.length (installed n a l)) <= n.
Proof.
  intros Hn Hl. unfold installed. rewrite length_app. simpl.
  destruct (Z.leb_spec n (Z.of_nat (List.length l))).
  - destruct l; simpl in *; lia.
  - lia.
Qed.

Lemma duplicate_free_snoc (a : number) (l : list number) :
  has a l = false -> duplicate_free l -> duplicate_free (l ++ [a]).
Proof.
  induction l as [|k l IH]; simpl; intros Ha Hl.
  - auto.
  - apply orb_false_elim in Ha as [Hak Hal]. destruct Hl as [Hk Hl].
    split; [|auto]. rewrite has_app, Hk. simpl.
    now rewrite same_value_zero_sym, Hak.
Qed.

Lemma installed_duplicate_free (n : Z) (a : number) (l : list number) :
  has a l = false -> duplicate_free l -> duplicate_free (installed n a l).
Proof.
  intros Ha Hl. unfold installed. rewrite <- has_key in Ha.
  destruct (n <=? Z.of_nat (List.length l)).
  - apply duplicate_free_snoc; [now apply has_tl|].
    destruct l; simpl in *; tauto.
  - now apply duplicate_free_snoc.
Qed.

(** The invariant of a hierarchy. *)
Lemma access_keeps_invariant (l1 l2 : list number) (v : value) :
  (List.length l1 <= 8)%nat -> (List.length l2 <= 16)%nat ->
  duplicate_free l1 -> duplicate_free l2 ->
  exists l1' l2',
    final (CacheModel.access v (hierarchy l1 l2)) = hierarchy l1' l2'
    /\ (List.length l1' <= 8)%nat /\ (List.length l2' <= 16)%nat
    /\ duplicate_free l1' /\ duplicate_free l2'.
Proof.
  intros H1 H2 D1 D2.
  destruct (is_numeric v) eqn:Hv.
  - destruct v; try discriminate. simpl in Hv. apply negb_true_iff in Hv.
    pose proof (installed_length 8 x l1 ltac:(lia) ltac:(lia)) as B1.
    pose proof (installed_length 16 x l2 ltac:(lia) ltac:(lia)) as B2.
    destruct (has x l1) eqn:E1; [|destruct (has x l2) eqn:E2].
    + rewrite hit_in_L1 by assumption. exists l1, l2. auto.
    + rewrite hit_in_L2 by assumption.
      exists (installed 8 x l1), l2. unfold final. simpl.
      repeat split; auto; try lia. now apply installed_duplicate_free.
    + rewrite full_miss by assumption.
      exists (installed 8 x l1), (installed 16 x l2). unfold final. simpl.
      repeat split; auto; try lia; now apply installed_duplicate_free.
  - rewrite rejected by assumption. exists l1, l2. auto.
Qed.

(** X5. After any sequence of [access] calls on a new cache, with
    valid or invalid addresses, L1 holds at most 8 addresses and L2 at
    most 16, and no level holds an address twice. *)
Theorem cache_stays_within_capacity (addresses : list value) :
  exists l1 l2,
    touched addresses CacheModel.new = hierarchy l1 l2
    /\ (List.length l1 <= 8)%nat /\ (List.length l2 <= 16)%nat
    /\ duplicate_free l1 /\ duplicate_free l2
    /\ CacheModel.snapshot (touched addresses CacheModel.new)
       = [("L1", l1); ("L2", l2)].
Proof.
  assert (G : forall vs l1 l2,
             (List.length l1 <= 8)%nat -> (List.length l2 <= 16)%nat ->
             duplicate_free l1 -> duplicate_free l2 ->
             exists l1' l2',
               touched vs (hierarchy l1 l2) = hierarchy l1' l2'
               /\ (List.length l1' <= 8)%nat /\ (List.length l2' <= 16)%nat
               /\ duplicate_free l1' /\ duplicate_free l2').
  { induction vs as [|v vs IH]; intros l1 l2 H1 H2 D1 D2.
    - exists l1, l2. simpl. auto.
    - destruct (access_keeps_invariant l1 l2 v H1 H2 D1 D2)
        as (l1' & l2' & E & H1' & H2' & D1' & D2').
      simpl. rewrite E. now apply IH. }
  destruct (G addresses [] [] ltac:(simpl; lia) ltac:(simpl; lia) I I)
    as (l1 & l2 & E & H).
  exists l1, l2. rewrite new_hierarchy, E.
  repeat split; try apply H. 
Qed.

(** X6. Whatever the cache holds, a second access to the same valid
    address is a hit in L1, with latency 8, and changes nothing. *)
Theorem second_access_hits_L1 (l1 l2 : list number) (a : number) :
  Num.isNaN a = false ->
  (first <- CacheModel.access (VNumber a) ;;
   second <- CacheModel.access (VNumber a) ;;
   ret second) (hierarchy l1 l2)
  = (Return (Access.mk "L1" true 8),
     final (CacheModel.access (VNumber a) (hierarchy l1 l2)), []).
Proof.
  intros Ha. unfold bind.
  destruct (has a l1) eqn:E1; [|destruct (has a l2) eqn:E2].
  - rewrite hit_in_L1 by assumption. rewrite hit_in_L1 by assumption.
    reflexivity.
  - rewrite hit_in_L2 by assumption.
    rewrite hit_in_L1 by (auto using has_installed). reflexivity.
  - rewrite full_miss by assumption.
    rewrite hit_in_L1 by (auto using has_installed). reflexivity.
Qed.

Lemma second_access_hits_L1_witness :
  Num.isNaN (num 64) = false
  /\ (first <- CacheModel.access (VNumber (num 64)) ;;
      second <- CacheModel.access (VNumber (num 64)) ;;
      ret second) CacheModel.new
     = (Return (Access.mk "L1" true 8), hierarchy [num 64] [num 64], []).
Proof.
  split; [reflexivity|].
  exact (second_access_hits_L1 [] [] (num 64) eq_refl).
Defined.

End CacheSequences.


Section CachePriming.

Import CacheLevel.

Lemma has_lastn (a : number) (n : nat) (l : list number) :
  has a l = false -> has a (lastn n l) = false.
Proof. apply has_skipn. Qed.

Lemma tl_lastn {A} (n : nat) (l : list A) :
  (S n <= List.length l)%nat -> tl (lastn (S n) l) = lastn n l.
Proof.
  intros H. unfold lastn.
  replace (List.length l - n)%nat with (S (List.length l - S n)) by lia.
  generalize (List.length l - S n)%nat as k. intros k. clear H. revert l.
  induction k as [|k IH]; intros l.
  - destruct l; reflexivity.
  - destruct l as [|x l]; [reflexivity|].
    change (skipn (S k) (x :: l)) with (skipn k l).
    change (skipn (S (S k)) (x :: l)) with (skipn (S k) l).
    apply IH.
Qed.

(** Installing into the last [n] of a sequence gives the last [n] of
    the sequence extended: the level is a FIFO queue. *)
Lemma installed_lastn (n : nat) (a : number) (pre : list number) :
  installed (Z.of_nat (S n)) a (lastn (S n) pre)
  = lastn (S n) (pre ++ [key a]).
Proof.
  unfold installed. rewrite lastn_snoc.
  destruct (Nat.le_gt_cases (S n) (List.length pre)) as [H|H].
  - rewrite lastn_length, Nat.min_l by exact H.
    rewrite Z.leb_refl. now rewrite tl_lastn.
  - rewrite (lastn_all (S n) pre) by lia.
    rewrite (lastn_all n pre) by lia.
    destruct (Z.leb_spec (Z.of_nat (S n)) (Z.of_nat (List.length pre)));
      [lia|reflexivity].
Qed.

Lemma prime_fresh (addresses seen : list number) :
  Forall (fun a => Num.isNaN a = false) addresses ->
  fresh_in seen addresses ->
  CacheModel.prime (numeric_addresses addresses)
                   (hierarchy (lastn 8 (map key seen))
                              (lastn 16 (map key seen)))
  = (Return (map (fun _ => Some memory_miss) addresses),
     hierarchy (lastn 8 (map key (seen ++ addresses)))
               (lastn 16 (map key (seen ++ addresses))),
     []).
Proof.
  revert seen. induction addresses as [|a rest IH]; intros seen Hn Hf.
  - rewrite app_nil_r. reflexivity.
  - inversion Hn as [|? ? Ha Hrest]; subst. destruct Hf as [Hseen Hf].
    assert (Hstored : has a (map key seen) = false)
      by now rewrite has_map_key.
    unfold CacheModel.prime in *. simpl. unfold bind at 1.
    rewrite full_miss by auto using has_lastn.
    change 8 with (Z.of_nat 8). change 16 with (Z.of_nat 16).
    rewrite !installed_lastn.
    change [key a] with (map key [a]). rewrite <- map_app.
    unfold bind at 1. rewrite (IH (seen ++ [a])%list Hrest Hf).
    rewrite <- app_assoc. reflexivity.
Qed.

(** X7. Priming a new cache with valid addresses that are pairwise
    different is a memory miss at every address and leaves the last 8
    of them in L1 and the last 16 in L2, oldest first: each level evicts
    in insertion order.  The addresses are held as the keys a [Map]
    keeps for them, [-0] as [+0]. *)
Theorem priming_keeps_the_most_recent (addresses : list number) :
  Forall (fun a => Num.isNaN a = false) addresses ->
  fresh_in [] addresses ->
  CacheModel.prime (numeric_addresses addresses) CacheModel.new
  = (Return (map (fun _ => Some memory_miss) addresses),
     hierarchy (lastn 8 (map key addresses))
               (lastn 16 (map key addresses)), []).
Proof.
  intros Hn Hf. exact (prime_fresh addresses [] Hn Hf).
Qed.

Lemma priming_keeps_the_most_recent_witness :
  let addresses :=
    S754_zero true
    :: map num [64; 128; 192; 256; 320; 384; 448; 512; 576] in
  (Forall (fun a => Num.isNaN a = false) addresses
   /\ fresh_in [] addresses)
  /\ CacheModel.snapshot
       (final (CacheModel.prime (numeric_addresses addresses)
                                CacheModel.new))
     = [("L1", map num [128; 192; 256; 320; 384; 448; 512; 576]);
        ("L2", map num [0; 64; 128; 192; 256; 320; 384; 448; 512; 576])].
Proof.
  assert (Hn : Forall (fun a => Num.isNaN a = false)
                 (S754_zero true
                  :: map num [64; 128; 192; 256; 320; 384; 448; 512; 576])).
  { repeat constructor. }
  assert (Hf : fresh_in []
                 (S754_zero true
                  :: map num [64; 128; 192; 256; 320; 384; 448; 512; 576])).
  { vm_compute. tauto. }
  split; [split; assumption|].
  rewrite (priming_keeps_the_most_recent _ Hn Hf). reflexivity.
Defined.

(** A valid address is always served, and the cache keeps its form. *)
Lemma access_numeric (l1 l2 : list number) (v : value) :
  is_numeric v = true ->
  exists result l1' l2',
    CacheModel.access v (hierarchy l1 l2)
    = (Return result, hierarchy l1' l2', []).
Proof.
  intros Hv. destruct v; try discriminate. simpl in Hv.
  apply negb_true_iff in Hv.
  destruct (has x l1) eqn:E1; [|destruct (has x l2) eqn:E2].
  - rewrite hit_in_L1 by assumption. eauto.
  - rewrite hit_in_L2 by assumption. eauto.
  - rewrite full_miss by assumption. eauto.
Qed.

Lemma prime_numeric (l1 l2 : list number) (xs : list (option value)) :
  Forall numeric_or_hole xs ->
  exists results l1' l2',
    CacheModel.prime xs (hierarchy l1 l2)
    = (Return results, hierarchy l1' l2', [])
    /\ List.length results = List.length xs.
Proof.
  revert l1 l2. induction xs as [|x xs IH]; intros l1 l2 H.
  - exists [], l1, l2. split; reflexivity.
  - inversion H as [|? ? Hx Hxs]; subst.
    unfold CacheModel.prime in *. destruct x as [v|]; simpl.
    + destruct (access_numeric l1 l2 v Hx) as (r & k1 & k2 & E).
      destruct (IH k1 k2 Hxs) as (rs & k1' & k2' & E' & Hl).
      unfold bind at 1. rewrite E. unfold bind at 1. rewrite E'.
      exists (Some r :: rs), k1', k2'. split; [reflexivity|].
      simpl. now rewrite Hl.
    + destruct (IH l1 l2 Hxs) as (rs & k1' & k2' & E' & Hl).
      unfold bind at 1. rewrite E'.
      exists (None :: rs), k1', k2'. split; [reflexivity|].
      simpl. now rewrite Hl.
Qed.

(** X8. [prime] stops at the first address that is not a number: it
    throws the error of L1 for that address, the addresses before it
    stay installed exactly as priming them alone installs them, and the
    addresses after it are never accessed. *)
Theorem prime_stops_at_invalid_address
    (l1 l2 : list number) (before after : list (option value))
    (bad : value) :
  Forall numeric_or_hole before ->
  is_numeric bad = false ->
  CacheModel.prime (before ++ Some bad :: after) (hierarchy l1 l2)
  = (Throw (InvalidAddress "L1" bad),
     final (CacheModel.prime before (hierarchy l1 l2)), [])
  /\ thrown (CacheModel.prime before (hierarchy l1 l2)) = None.
Proof.
  intros Hb Hbad. revert l1 l2.
  induction before as [|x xs IH]; intros l1 l2.
  - unfold CacheModel.prime. simpl. unfold bind at 1.
    rewrite rejected by assumption. split; reflexivity.
  - inversion Hb as [|? ? Hx Hxs]; subst.
    unfold CacheModel.prime in *. destruct x as [v|].
    + destruct (access_numeric l1 l2 v Hx) as (r & k1 & k2 & E).
      destruct (IH Hxs k1 k2) as [E' T'].
      destruct (prime_numeric k1 k2 xs Hxs) as (rs & k1' & k2' & P & _).
      unfold CacheModel.prime in P. rewrite P in E'.
      assert (Q : mapM_holes CacheModel.access (Some v :: xs)
                    (hierarchy l1 l2)
                  = (Return (Some r :: rs), hierarchy k1' k2', [])).
      { simpl. unfold bind at 1. rewrite E.
        unfold bind at 1. rewrite P. reflexivity. }
      rewrite Q. split; [|reflexivity]. simpl.
      unfold bind at 1. rewrite E. unfold bind at 1. rewrite E'.
      reflexivity.
    + destruct (IH Hxs l1 l2) as [E' T'].
      destruct (prime_numeric l1 l2 xs Hxs) as (rs & k1' & k2' & P & _).
      unfold CacheModel.prime in P. rewrite P in E'.
      assert (Q : mapM_holes CacheModel.access (None :: xs)
                    (hierarchy l1 l2)
                  = (Return (None :: rs), hierarchy k1' k2', [])).
      { simpl. unfold bind at 1. rewrite P. reflexivity. }
      rewrite Q. split; [|reflexivity]. simpl.
      unfold bind at 1. rewrite E'. reflexivity.
Qed.

Lemma prime_stops_at_invalid_address_witness :
  (Forall numeric_or_hole [Some (VNumber (num 0)); None]
   /\ is_numeric (VString "64") = false)
  /\ CacheModel.prime
       [Some (VNumber (num 0)); None; Some (VString "64");
        Some (VNumber (num 128))]
       CacheModel.new
     = (Throw (InvalidAddress "L1" (VString "64")),
        hierarchy [num 0] [num 0], []).
Proof.
  assert (H : Forall numeric_or_hole [Some (VNumber (num 0)); None]).
  { repeat constructor. }
  split; [split; [exact H|reflexivity]|].
  exact (proj1 (prime_stops_at_invalid_address
                  [] [] [Some (VNumber (num 0)); None]
                  [Some (VNumber (num 128))] (VString "64") H eq_refl)).
Defined.

(** X9. Probing addresses that L1 holds reads: every probe is a hit in
    L1 with latency 8 and the cache is left as it was. *)
Theorem probe_of_L1_lines_is_read_only
    (l1 l2 : list number) (addresses : list number) :
  Forall (fun a => Num.isNaN a = false /\ has a l1 = true) addresses ->
  CacheModel.probe (numeric_addresses addresses) (hierarchy l1 l2)
  = (Return (map (fun _ => Some (Access.mk "L1" true 8)) addresses),
     hierarchy l1 l2, []).
Proof.
  induction addresses as [|a rest IH]; intros H.
  - reflexivity.
  - inversion H as [|? ? [Ha Hin] Hrest]; subst.
    unfold CacheModel.probe in *. simpl. unfold bind at 1.
    rewrite hit_in_L1 by assumption.
    unfold bind at 1. rewrite (IH Hrest). reflexivity.
Qed.

Lemma probe_of_L1_lines_is_read_only_witness :
  Forall (fun a => Num.isNaN a = false /\ has a [num 0; num 64] = true)
         [num 64; num 0; num 64]
  /\ CacheModel.probe (numeric_addresses [num 64; num 0; num 64])
                      (hierarchy [num 0; num 64] [num 0; num 64])
     = (Return [Some (Access.mk "L1" true 8); Some (Access.mk "L1" true 8);
                Some (Access.mk "L1" true 8)],
        hierarchy [num 0; num 64] [num 0; num 64], []).
Proof.
  assert (H : Forall (fun a => Num.isNaN a = false
                               /\ has a [num 0; num 64] = true)
                     [num 64; num 0; num 64]).
  { repeat constructor. }
  split; [exact H|].
  exact (probe_of_L1_lines_is_read_only
           [num 0; num 64] [num 0; num 64] [num 64; num 0; num 64] H).
Defined.

End CachePriming.


(* ------------------------------------------------------------------ *)
(** ** The scalar clamp *)

Section ScalarClamp.

Lemma compare_eq_finite (s : bool) (m : positive) (e : Z) (x : number) :
  SFcompare (S754_finite s m e) x = Some Eq -> x = S754_finite s m e.
Proof.
  destruct x as [sx|sx| |sx mx ex]; simpl;
    try (destruct s; discriminate); try (destruct s, sx; discriminate).
  destruct s, sx; try discriminate;
    destruct (e ?= ex) eqn:Ez; try discriminate;
    apply Z.compare_eq in Ez; subst ex; intros H; f_equal;
    symmetry; apply Pos.compare_eq.
  - injection H as H. unfold Pos.compare.
    now destruct (Pos.compare_cont Eq m mx).
  - now injection H as H.
Qed.

Lemma leb_not_ltb (x y : number) : SFleb x y = true -> SFltb y x = false.
Proof.
  unfold SFleb, SFltb. rewrite (compare_antisym x y).
  now destruct (SFcompare x y) as [[ | | ]|].
Qed.

Lemma clampTiming_fixed (x : number) :
  Num.within 20 180 x = true -> clampTiming x = x.
Proof.
  unfold Num.within, Num.leb, clampTiming.
  change (num 20) with (S754_finite false 5629499534213120 (-48)).
  change (Num.of_Z 20) with (S754_finite false 5629499534213120 (-48)).
  change (num 180) with (S754_finite false 6333186975989760 (-45)).
  change (Num.of_Z 180) with (S754_finite false 6333186975989760 (-45)).
  set (lo := S754_finite false 5629499534213120 (-48)).
  set (hi := S754_finite false 6333186975989760 (-45)).
  intros H. apply andb_prop in H as [Hlo Hhi].
  destruct x as [sx|sx| |sx mx ex]; try discriminate;
    try (destruct sx; discriminate).
  set (x := S754_finite sx mx ex) in *.
  assert (Hmin : Num.min x hi = x).
  { change (Num.min x hi) with (if SFltb hi x then hi else x).
    now rewrite (leb_not_ltb x hi Hhi). }
  rewrite Hmin.
  change (Num.max lo x) with (if SFltb lo x then x else lo).
  destruct (SFltb lo x) eqn:E; [reflexivity|].
  unfold SFleb in Hlo. unfold SFltb in E.
  destruct (SFcompare lo x) as [[ | | ]|] eqn:C; try discriminate.
  symmetry. exact (compare_eq_finite _ _ _ _ C).
Qed.

(** X10. The scalar [clampTiming] of cpuModel.js sends every number
    other than NaN into [[20, 180]], leaves the numbers of that range
    as they are, and is therefore idempotent. *)
Theorem scalar_clamp_projects_onto_range (x : number) :
  Num.isNaN x = false ->
  Num.within 20 180 (clampTiming x) = true
  /\ (Num.within 20 180 x = true -> clampTiming x = x)
  /\ clampTiming (clampTiming x) = clampTiming x.
Proof.
  intros Hx. pose proof (clampTiming_within x Hx) as Hw.
  split; [exact Hw|]. split.
  - apply clampTiming_fixed.
  - now apply clampTiming_fixed.
Qed.

Lemma scalar_clamp_projects_onto_range_witness :
  Num.isNaN (num 250) = false
  /\ Num.within 20 180 (clampTiming (num 250)) = true
  /\ clampTiming (clampTiming (num 250)) = clampTiming (num 250).
Proof.
  split; [reflexivity|].
  destruct (scalar_clamp_projects_onto_range (num 250) eq_refl)
    as (H1 & _ & H3).
  split; [exact H1|exact H3].
Defined.

End ScalarClamp.

(* ------------------------------------------------------------------ *)
(** ** Pipeline: holes, rejection and the speculative sequence *)

Section PipelineShapes.

Import Pipeline.

Lemma check_shape_sparse (elems : list (option value)) (k : nat) :
  Forall hole_or_shaped elems ->
  check_shape (present_from k elems) = Return tt.
Proof.
  intros H. revert k. induction H as [|e es He _ IH]; intros k; simpl; auto.
  destruct He as [-> | (v & l & s & -> & Hl & Hs)]; [apply IH|]. simpl.
  assert (Hv : opt_prop v "label" = VString l
               /\ opt_prop v "speculative" = VBool s).
  { destruct v; simpl in *; try discriminate; auto. }
  destruct Hv as [-> ->]. simpl. apply IH.
Qed.

Lemma stage_contents_sparse (elems : list (option value)) (m : bool)
  (i : nat) :
  Forall hole_or_shaped elems ->
  map (fun ix => render (VBool m) (snd ix))
      (filter (fun ix => Nat.eqb (fst ix) i) (present elems))
  = slot elems m i.
Proof.
  intros H. unfold present, slot. rewrite filter_index by lia.
  rewrite Nat.sub_0_r.
  destruct (nth_error elems i) as [[v|]|] eqn:E; simpl; auto.
  apply nth_error_In in E.
  rewrite Forall_forall in H.
  destruct (H _ E) as [Hn | (v' & l & s & Hv & _ & Hs)]; [discriminate|].
  inversion Hv; subst v'.
  unfold render, js_and, speculative_flag. rewrite Hs. simpl.
  now destruct m.
Qed.

(** X11. [simulate] accepts an array with holes: validation does not
    visit a hole, the stage whose index is a hole shows nothing, and
    the other stages show the instruction at their index.  Leaving
    [mispredict] out is the same as passing [false]. *)
Theorem simulate_skips_holes (elems : list (option value)) (m : bool) :
  Forall hole_or_shaped elems ->
  simulate (VArray elems) (VBool m) new =
    (Return [ Stage.mk "fetch" (slot elems m 0);
              Stage.mk "decode" (slot elems m 1);
              Stage.mk "execute" (slot elems m 2);
              Stage.mk "retire" (slot elems m 3) ],
     new, [])
  /\ simulate (VArray elems) VUndefined new
     = simulate (VArray elems) (VBool false) new
  /\ forall i, nth_error elems i = Some None -> slot elems m i = [].
Proof.
  intros H. split; [|split].
  - unfold simulate, bind, lift, get, ret, present.
    rewrite (check_shape_sparse elems 0 H). fold (present elems). simpl.
    now rewrite !stage_contents_sparse by assumption.
  - reflexivity.
  - intros i Hi. unfold slot. now rewrite Hi.
Qed.

Lemma simulate_skips_holes_witness :
  let elems := [None; Some (instruction "load" true)] in
  Forall hole_or_shaped elems
  /\ simulate (VArray elems) (VBool true) new =
       (Return [ Stage.mk "fetch" [];
                 Stage.mk "decode" [shown "load" true];
                 Stage.mk "execute" [];
                 Stage.mk "retire" [] ],
        new, []).
Proof.
  assert (H : Forall hole_or_shaped [None; Some (instruction "load" true)]).
  { constructor; [now left|]. constructor; [|constructor].
    right. exists (instruction "load" true), "load", true.
    repeat split. }
  split; [exact H|].
  exact (proj1 (simulate_skips_holes _ true H)).
Defined.

Lemma check_shape_first_bad
    (before after : list (option value)) (bad : value) (k : nat) :
  Forall hole_or_shaped before -> ill_shaped bad = true ->
  check_shape (present_from k (before ++ Some bad :: after))
  = Throw (PipelineInstructionShape (k + List.length before)).
Proof.
  intros H Hbad. revert k.
  induction H as [|e es He _ IH]; intros k.
  - simpl. unfold ill_shaped in Hbad. rewrite Hbad.
    now rewrite Nat.add_0_r.
  - simpl List.length. rewrite Nat.add_succ_r, <- Nat.add_succ_l.
    destruct He as [-> | (v & l & s & -> & Hl & Hs)]; simpl; [apply IH|].
    assert (Hv : opt_prop v "label" = VString l
                 /\ opt_prop v "speculative" = VBool s).
    { destruct v; simpl in *; try discriminate; auto. }
    destruct Hv as [-> ->]. simpl. apply IH.
Qed.

(** X12. [simulate] throws at the first entry that lacks a string
    label or a boolean speculative flag.  The error names the array
    index of that entry, holes counted, and the pipeline is left as it
    was, whatever [mispredict] is and whatever follows the entry. *)
Theorem simulate_rejects_first_ill_shaped
    (before after : list (option value)) (bad mispredict : value)
    (this : t) :
  Forall hole_or_shaped before -> ill_shaped bad = true ->
  simulate (VArray (before ++ Some bad :: after)) mispredict this
  = (Throw (PipelineInstructionShape (List.length before)), this, []).
Proof.
  intros H Hbad. unfold simulate, bind, lift, present.
  now rewrite (check_shape_first_bad before after bad 0 H Hbad).
Qed.

Lemma simulate_rejects_first_ill_shaped_witness :
  (Forall hole_or_shaped [None; Some (instruction "branch" false)]
   /\ ill_shaped (VObject [("label", VString "load")]) = true)
  /\ simulate (VArray [None; Some (instruction "branch" false);
                       Some (VObject [("label", VString "load")]);
                       Some VNull])
              (VBool true) new
     = (Throw (PipelineInstructionShape 2), new, []).
Proof.
  assert (H : Forall hole_or_shaped [None; Some (instruction "branch" false)]).
  { constructor; [now left|]. constructor; [|constructor].
    right. exists (instruction "branch" false), "branch", false.
    repeat split. }
  split; [split; [exact H|reflexivity]|].
  exact (simulate_rejects_first_ill_shaped
           [None; Some (instruction "branch" false)] [Some VNull]
           (VObject [("label", VString "load")]) (VBool true) new
           H eq_refl).
Defined.

(** X13. The pipeline view of [buildSpeculativeSequence]: the branch
    is fetched and the retire slot retires without speculation; decode
    and execute show their instruction as speculative exactly when the
    branch is not taken and was mispredicted. *)
Theorem speculation_needs_untaken_mispredict (branchTaken : value)
    (m : bool) :
  let speculative := m && negb (truthy branchTaken) in
  simulate (buildSpeculativeSequence branchTaken) (VBool m) new =
    (Return [ Stage.mk "fetch" [shown "branch" false];
              Stage.mk "decode"
                [shown (if truthy branchTaken then "target load"
                        else "fallthrough") speculative];
              Stage.mk "execute" [shown "dependent read" speculative];
              Stage.mk "retire" [shown "retire" false] ],
     new, []).
Proof.
  unfold buildSpeculativeSequence.
  destruct (truthy branchTaken), m; vm_compute; reflexivity.
Qed.

End PipelineShapes.


(* ------------------------------------------------------------------ *)
(** ** The method monad *)

Lemma bind_return {S A B} (m : M S A) (k : A -> M S B) (s s' : S) (a : A)
  (evs : list event) :
  m s = (Return a, s', evs) ->
  bind m k s = (let '(r, s'', evs') := k a s' in (r, s'', (evs ++ evs')%list)).
Proof. intros E. unfold bind. now rewrite E. Qed.

Lemma bind_throw {S A B} (m : M S A) (k : A -> M S B) (s s' : S) (e : error)
  (evs : list event) :
  m s = (Throw e, s', evs) -> bind m k s = (Throw e, s', evs).
Proof. intros E. unfold bind. now rewrite E. Qed.

(* ------------------------------------------------------------------ *)
(** ** DefenceToolkit: what the methods return *)

Section ToolkitResults.

Lemma drained_reads (n i : nat) (rnd : Random.t) :
  drained n rnd i = rnd (n + i)%nat.
Proof.
  revert rnd. induction n as [|n IH]; intros rnd; simpl;
    [reflexivity|now rewrite IH].
Qed.

(** *** applyFence *)

Lemma present_numeric (addresses : list number) (k : nat) :
  Forall (fun a => Num.isNaN a = false) addresses ->
  existsb (fun ix : nat * value => negb (is_numeric (snd ix)))
          (present_from k (numeric_addresses addresses)) = false.
Proof.
  intros H. revert k. induction H as [|a l Ha _ IH]; intros k; simpl; auto.
  now rewrite Ha, IH.
Qed.

Lemma spread_numeric (addresses : list number) :
  DefenceToolkit.spread_array (numeric_addresses addresses)
  = numeric_addresses addresses.
Proof.
  induction addresses as [|a l IH]; simpl; auto. now f_equal.
Qed.

(** X14. On an array of numbers without holes [applyFence] returns the
    addresses it was given, element for element, whether the fence is on
    or off and whether the state is passed or defaulted; the toolkit is
    not changed. *)
Theorem applyFence_returns_the_addresses
    (addresses : list number) (st : option object)
    (this : DefenceToolkit.t) :
  Forall (fun a => Num.isNaN a = false) addresses ->
  DefenceToolkit.applyFence (VArray (numeric_addresses addresses)) st this
  = (Return (numeric_addresses addresses), this, []).
Proof.
  intros H. unfold DefenceToolkit.applyFence, DefenceToolkit._assertAddresses.
  unfold present. rewrite (present_numeric addresses 0 H).
  unfold bind, lift, DefenceToolkit.state_or_default, get, ret.
  destruct st as [o|]; simpl.
  - destruct (DefenceToolkit.flag "fence" o); simpl;
      now rewrite ?spread_numeric.
  - destruct (DefenceToolkit.flag "fence" (DefenceToolkit.state this)); simpl;
      now rewrite ?spread_numeric.
Qed.

Lemma applyFence_returns_the_addresses_witness :
  Forall (fun a => Num.isNaN a = false) [num 0; num 64]
  /\ DefenceToolkit.applyFence (VArray (numeric_addresses [num 0; num 64]))
       None DefenceToolkit.new
     = (Return [Some (VNumber (num 0)); Some (VNumber (num 64))],
        DefenceToolkit.new, []).
Proof.
  assert (H : Forall (fun a => Num.isNaN a = false) [num 0; num 64]).
  { repeat constructor. }
  split; [exact H|].
  exact (applyFence_returns_the_addresses [num 0; num 64] None
           DefenceToolkit.new H).
Defined.

Lemma present_bad (elems : list (option value)) (bad : value) (k : nat) :
  In (Some bad) elems -> is_numeric bad = false ->
  existsb (fun ix : nat * value => negb (is_numeric (snd ix)))
          (present_from k elems) = true.
Proof.
  intros Hin Hbad. revert k.
  induction elems as [|e l IH]; intros k; [contradiction|].
  destruct Hin as [-> | Hin].
  - simpl. now rewrite Hbad.
  - destruct e as [v|]; simpl; [|now apply IH].
    rewrite (IH Hin). apply orb_true_r.
Qed.

(** X15. [applyFence] rejects an array that holds anything but a
    number, wherever it stands, with the same error whether the fence is
    on or off; the toolkit is not changed. *)
Theorem applyFence_rejects_any_bad_address
    (elems : list (option value)) (bad : value) (st : option object)
    (this : DefenceToolkit.t) :
  In (Some bad) elems -> is_numeric bad = false ->
  DefenceToolkit.applyFence (VArray elems) st this
  = (Throw FenceAddresses, this, []).
Proof.
  intros Hin Hbad.
  unfold DefenceToolkit.applyFence, DefenceToolkit._assertAddresses.
  unfold present. rewrite (present_bad elems bad 0 Hin Hbad).
  unfold bind, lift, DefenceToolkit.state_or_default, get, ret.
  now destruct st.
Qed.

Lemma applyFence_rejects_any_bad_address_witness :
  (In (Some (VString "64")) [Some (VNumber (num 0)); Some (VString "64")]
   /\ is_numeric (VString "64") = false)
  /\ DefenceToolkit.applyFence
       (VArray [Some (VNumber (num 0)); Some (VString "64")])
       (Some (toggles false false false false false)) DefenceToolkit.new
     = (Throw FenceAddresses, DefenceToolkit.new, []).
Proof.
  assert (H : In (Some (VString "64"))
                 [Some (VNumber (num 0)); Some (VString "64")]).
  { right. left. reflexivity. }
  split; [split; [exact H|reflexivity]|].
  exact (applyFence_rejects_any_bad_address _ (VString "64")
           (Some (toggles false false false false false))
           DefenceToolkit.new H eq_refl).
Defined.

(** *** Records with distinct keys *)

Lemma timing_set_new (k : string) (v : number) (t : timing_record) :
  ~ In k (map fst t) -> timing_set k v t = (t ++ [(k, v)])%list.
Proof.
  induction t as [|[k' v'] t IH]; simpl; intros H; auto.
  destruct (String.eqb_spec k k') as [->|Hne]; [tauto|].
  f_equal. apply IH. tauto.
Qed.

Lemma fromEntries_distinct (es : timing_record) :
  distinct_keys es -> timing_fromEntries es = es.
Proof.
  unfold distinct_keys, timing_fromEntries.
  assert (G : forall es acc,
             NoDup (map fst (acc ++ es)) ->
             fold_left (fun t e => timing_set (fst e) (snd e) t) es acc
             = (acc ++ es)%list).
  { clear es. induction es as [|[k v] es IH]; intros acc H; simpl.
    - now rewrite app_nil_r.
    - rewrite timing_set_new.
      + rewrite IH; rewrite <- app_assoc; [reflexivity|exact H].
      + rewrite map_app in H. simpl in H.
        apply NoDup_remove_2 in H. intros Hin. apply H.
        apply in_or_app. now left. }
  intros H. exact (G es [] H).
Qed.

Lemma timing_set_keys (k : string) (v : number) (t : timing_record) :
  In k (map fst t) -> map fst (timing_set k v t) = map fst t.
Proof.
  induction t as [|[k' v'] t IH]; simpl; intros H; [contradiction|].
  destruct (String.eqb_spec k k') as [->|Hne]; [reflexivity|].
  simpl. f_equal. apply IH. destruct H as [H|H]; [congruence|exact H].
Qed.

Lemma timing_get_in (k : string) (t : timing_record) :
  In k (map fst t) -> exists x, timing_get k t = Some x.
Proof.
  induction t as [|[k' v'] t IH]; simpl; intros H; [contradiction|].
  destruct (String.eqb_spec k k') as [->|Hne]; [eauto|].
  apply IH. destruct H as [H|H]; [congruence|exact H].
Qed.

(** *** applyConstantTime *)

Lemma max_not_NaN (x y : number) :
  Num.isNaN x = false -> Num.isNaN y = false ->
  Num.isNaN (Num.max x y) = false.
Proof.
  intros Hx Hy. destruct x, y; try discriminate; try reflexivity;
    unfold Num.max; match goal with
                    | |- context [SFltb ?a ?b] => now destruct (SFltb a b)
                    end.
Qed.

Lemma max_list_not_NaN (xs : list number) :
  Forall (fun x => Num.isNaN x = false) xs ->
  Num.isNaN (Num.max_list xs) = false.
Proof.
  unfold Num.max_list. generalize Num.NegInfinity, (eq_refl : Num.isNaN Num.NegInfinity = false).
  intros acc Hacc H. revert acc Hacc.
  induction H as [|x xs Hx _ IH]; intros acc Hacc; simpl; auto.
  apply IH. now apply max_not_NaN.
Qed.

(** X16. [applyConstantTime] gives every phase of a valid record one
    and the same value, the scalar clamp of the largest input, which
    lies in [[20, 180]]; the phases and their order are those of the
    input. *)
Theorem applyConstantTime_flattens (es : timing_record) :
  es <> [] -> Forall (fun kv => Num.isNaN (snd kv) = false) es ->
  distinct_keys es ->
  let level := clampTiming (Num.max_list (map snd es)) in
  DefenceToolkit.applyConstantTime (timing_value es)
  = Return (map (fun kv => (fst kv, level)) es)
  /\ Num.within 20 180 level = true.
Proof.
  intros Hne Hnan Hkeys level. split.
  - unfold DefenceToolkit.applyConstantTime.
    rewrite (validateTimings_ok es Hne Hnan). simpl. f_equal.
    apply fromEntries_distinct. unfold distinct_keys.
    rewrite map_map. simpl. exact Hkeys.
  - apply clampTiming_within, max_list_not_NaN.
    rewrite Forall_map. exact Hnan.
Qed.

Lemma applyConstantTime_flattens_witness :
  let es := [("prime", num 42); ("speculate", num 8); ("probe", num 250)] in
  (es <> [] /\ Forall (fun kv => Num.isNaN (snd kv) = false) es
   /\ distinct_keys es)
  /\ DefenceToolkit.applyConstantTime (timing_value es)
     = Return [("prime", num 180); ("speculate", num 180);
               ("probe", num 180)].
Proof.
  assert (Hne : [("prime", num 42); ("speculate", num 8); ("probe", num 250)]
                <> []) by discriminate.
  assert (Hnan : Forall (fun kv : string * number => Num.isNaN (snd kv) = false)
                   [("prime", num 42); ("speculate", num 8);
                    ("probe", num 250)]).
  { repeat constructor. }
  assert (Hkeys : distinct_keys
                    [("prime", num 42); ("speculate", num 8);
                     ("probe", num 250)]).
  { unfold distinct_keys. simpl.
    repeat constructor; simpl; intuition discriminate. }
  split; [repeat split; assumption|].
  exact (proj1 (applyConstantTime_flattens _ Hne Hnan Hkeys)).
Defined.

End ToolkitResults.


Section ToolkitDefences.

Lemma finite_values_not_NaN (es : timing_record) :
  all_finite es -> Forall (fun kv => Num.isNaN (snd kv) = false) es.
Proof.
  apply Forall_impl. intros [k v] H. simpl in *. now destruct v.
Qed.

Lemma within_not_NaN (lo hi : Z) (x : number) :
  Num.within lo hi x = true -> Num.isNaN x = false.
Proof.
  unfold Num.within, Num.leb. intros H. apply andb_prop in H as [H _].
  destruct x; try reflexivity.
  unfold SFleb in H. now destruct (Num.of_Z lo).
Qed.

(** *** applyDefences *)

(** X17. With the jitter off [applyDefences] never reads the random
    source and changes no phase other than [speculate]; when the fence
    adjustment does not apply either, the result is the record it was
    given. *)
Theorem applyDefences_without_jitter
    (es : timing_record) (mispredict : bool) (st : object)
    (this : DefenceToolkit.t) (rnd : Random.t) :
  es <> [] -> Forall (fun kv => Num.isNaN (snd kv) = false) es ->
  distinct_keys es ->
  DefenceToolkit.flag "jitter" st = false ->
  exists out,
    DefenceToolkit.applyDefences (timing_value es) mispredict (Some st)
                                 (this, rnd)
    = (Return out, (this, rnd), [])
    /\ (forall k, k <> "speculate" -> timing_get k out = timing_get k es)
    /\ (DefenceToolkit.flag "fence" st && mispredict = false -> out = es).
Proof.
  intros Hne Hnan Hkeys Hj.
  unfold DefenceToolkit.applyDefences.
  unfold bind, zoom, DefenceToolkit.state_or_default, ret, lift.
  cbn [fst snd]. rewrite (validateTimings_ok es Hne Hnan). rewrite Hj.
  rewrite (fromEntries_distinct es Hkeys).
  destruct (DefenceToolkit.flag "fence" st && mispredict) eqn:Hf.
  - eexists. split; [reflexivity|]. split; [|discriminate].
    intros k Hk. rewrite timing_get_set.
    destruct (String.eqb_spec k "speculate"); [contradiction|reflexivity].
  - eexists. split; [reflexivity|]. split; auto.
Qed.

Lemma applyDefences_without_jitter_witness :
  let es := [("prime", num 42); ("speculate", num 100)] in
  let st := toggles true false true true true in
  (es <> [] /\ Forall (fun kv => Num.isNaN (snd kv) = false) es
   /\ distinct_keys es /\ DefenceToolkit.flag "jitter" st = false)
  /\ exists out,
       DefenceToolkit.applyDefences (timing_value es) true (Some st)
                                    (DefenceToolkit.new, fun _ => num 0)
       = (Return out, (DefenceToolkit.new, fun _ => num 0), [])
       /\ timing_get "prime" out = Some (num 42).
Proof.
  assert (Hne : [("prime", num 42); ("speculate", num 100)] <> [])
    by discriminate.
  assert (Hnan : Forall (fun kv : string * number => Num.isNaN (snd kv) = false)
                   [("prime", num 42); ("speculate", num 100)]).
  { repeat constructor. }
  assert (Hkeys : distinct_keys [("prime", num 42); ("speculate", num 100)]).
  { unfold distinct_keys. simpl.
    repeat constructor; simpl; intuition discriminate. }
  split; [repeat split; assumption|].
  destruct (applyDefences_without_jitter
              [("prime", num 42); ("speculate", num 100)] true
              (toggles true false true true true)
              DefenceToolkit.new (fun _ => num 0) Hne Hnan Hkeys eq_refl)
    as (out & E & Hother & _).
  exists out. split; [exact E|].
  apply (Hother "prime"). discriminate.
Defined.

Lemma jittered_in_range (es : timing_record) (rnd : Random.t) :
  all_finite es -> never_NaN rnd ->
  exists js,
    mapM (fun kv => j <- DefenceToolkit._jitter ;;
                    ret (fst kv, clampTiming (Num.add (snd kv) j))) es rnd
      = (Return js, drained (List.length es) rnd, [])
    /\ map fst js = map fst es /\ in_range js.
Proof.
  intros Hes. revert rnd.
  induction Hes as [|[k v] es Hv _ IH]; intros rnd Hr.
  - exists []. repeat split; auto. constructor.
  - destruct (jitter_not_NaN rnd Hr) as (j & Ej & Hj).
    destruct (IH (fun n => rnd (S n)) (fun n => Hr (S n)))
      as (js & E & Hk & Hin).
    exists ((k, clampTiming (Num.add v j)) :: js).
    split; [|split].
    + simpl mapM. unfold bind at 1. unfold bind at 1. rewrite Ej.
      unfold ret at 1. cbv beta iota zeta. unfold bind in E |- *.
      rewrite E. reflexivity.
    + simpl. now rewrite Hk.
    + constructor; auto. simpl.
      apply clampTiming_within, add_not_NaN; auto.
Qed.

(** X18. With the jitter on [applyDefences] draws one random reading
    for each phase, in order, and every value it returns lies in
    [[20, 180]], the phases being those of the input; this for every
    record of finite values and every random source free of NaN,
    provided the record has a [speculate] phase when the fence
    adjustment applies. *)
Theorem applyDefences_jitter_stays_in_range
    (es : timing_record) (mispredict : bool) (st : object)
    (this : DefenceToolkit.t) (rnd : Random.t) :
  es <> [] -> all_finite es -> distinct_keys es -> never_NaN rnd ->
  DefenceToolkit.flag "jitter" st = true ->
  (DefenceToolkit.flag "fence" st && mispredict = true ->
   In "speculate" (map fst es)) ->
  exists out,
    DefenceToolkit.applyDefences (timing_value es) mispredict (Some st)
                                 (this, rnd)
    = (Return out, (this, drained (List.length es) rnd), [])
    /\ map fst out = map fst es /\ in_range out.
Proof.
  intros Hne Hfin Hkeys Hrnd Hj Hspec.
  pose proof (finite_values_not_NaN es Hfin) as Hnan.
  unfold DefenceToolkit.applyDefences.
  unfold bind, zoom, DefenceToolkit.state_or_default, ret, lift.
  cbn [fst snd]. rewrite (validateTimings_ok es Hne Hnan). rewrite Hj.
  destruct (jittered_in_range es rnd Hfin Hrnd) as (js & E & Hk & Hin).
  unfold bind, ret in E. cbn [fst snd]. rewrite E. cbn [fst snd app].
  assert (Hd : distinct_keys js) by (unfold distinct_keys; now rewrite Hk).
  rewrite (fromEntries_distinct js Hd).
  destruct (DefenceToolkit.flag "fence" st && mispredict) eqn:Hf.
  - pose proof (Hspec eq_refl) as Hs. rewrite <- Hk in Hs.
    destruct (timing_get_in "speculate" js Hs) as [x Ex]. rewrite Ex.
    eexists. split; [reflexivity|]. split.
    + now rewrite timing_set_keys.
    + apply (timing_set_Forall (fun v => Num.within 20 180 v = true));
        [|exact Hin].
      apply clampTiming_within, half_not_NaN. simpl.
      apply (within_not_NaN 20 180).
      exact (timing_get_Forall (fun v => Num.within 20 180 v = true)
               _ _ _ Hin Ex).
  - eexists. split; [reflexivity|]. split; assumption.
Qed.

Lemma applyDefences_jitter_stays_in_range_witness :
  let es := [("prime", num 42); ("speculate", num 8)] in
  let st := toggles true true true true true in
  (es <> [] /\ all_finite es /\ distinct_keys es
   /\ never_NaN (fun _ => num 0)
   /\ DefenceToolkit.flag "jitter" st = true
   /\ (DefenceToolkit.flag "fence" st && true = true ->
       In "speculate" (map fst es)))
  /\ exists out,
       DefenceToolkit.applyDefences (timing_value es) true (Some st)
                                    (DefenceToolkit.new, fun _ => num 0)
       = (Return out,
          (DefenceToolkit.new, drained 2 (fun _ => num 0)), [])
       /\ in_range out.
Proof.
  assert (Hne : [("prime", num 42); ("speculate", num 8)] <> [])
    by discriminate.
  assert (Hfin : all_finite [("prime", num 42); ("speculate", num 8)]).
  { repeat constructor. }
  assert (Hkeys : distinct_keys [("prime", num 42); ("speculate", num 8)]).
  { unfold distinct_keys. simpl.
    repeat constructor; simpl; intuition discriminate. }
  assert (Hrnd : never_NaN (fun _ => num 0)) by (intros n; reflexivity).
  assert (Hspec : DefenceToolkit.flag "fence" (toggles true true true true true)
                  && true = true ->
                  In "speculate"
                     (map fst [("prime", num 42); ("speculate", num 8)])).
  { intros _. right. left. reflexivity. }
  split; [repeat split; assumption|].
  destruct (applyDefences_jitter_stays_in_range
              [("prime", num 42); ("speculate", num 8)] true
              (toggles true true true true true)
              DefenceToolkit.new (fun _ => num 0)
              Hne Hfin Hkeys Hrnd eq_refl Hspec)
    as (out & E & _ & Hin).
  exists out. split; [exact E|exact Hin].
Defined.

(** *** Validation *)

Lemma numeric_entries_first_bad (good : timing_record) (key : string)
    (bad : value) (rest : object) :
  Forall (fun kv => Num.isNaN (snd kv) = false) good ->
  is_numeric bad = false ->
  DefenceToolkit.numeric_entries
    (map (fun kv => (fst kv, VNumber (snd kv))) good ++ (key, bad) :: rest)
  = Throw (TimingNotNumeric key).
Proof.
  intros H Hbad. induction H as [|[k x] es Hx _ IH]; simpl.
  - destruct bad; try reflexivity. simpl in Hbad.
    apply negb_false_iff in Hbad. now rewrite Hbad.
  - simpl in Hx. now rewrite Hx, IH.
Qed.

(** X19. Every method that takes a timing record validates it first
    and in the same way: when some value is not a number, the error
    names the first such key in enumeration order, and [applyDefences]
    throws it before it reads the random source. *)
Theorem methods_report_first_bad_entry
    (good : timing_record) (key : string) (bad : value) (rest : object)
    (mispredict : bool) (st : option object) (this : DefenceToolkit.t)
    (rnd : Random.t) :
  Forall (fun kv => Num.isNaN (snd kv) = false) good ->
  is_numeric bad = false ->
  let timings := first_bad_entry good key bad rest in
  DefenceToolkit.applyConstantTime timings = Throw (TimingNotNumeric key)
  /\ DefenceToolkit.clampTiming timings = Throw (TimingNotNumeric key)
  /\ DefenceToolkit.detectAnomaly timings = Throw (TimingNotNumeric key)
  /\ DefenceToolkit.applyDefences timings mispredict st (this, rnd)
     = (Throw (TimingNotNumeric key), (this, rnd), []).
Proof.
  intros H Hbad timings.
  assert (V : DefenceToolkit._validateTimings timings
              = Throw (TimingNotNumeric key)).
  { pose proof (numeric_entries_first_bad good key bad rest H Hbad) as E.
    unfold timings, first_bad_entry, DefenceToolkit._validateTimings.
    simpl. destruct good; exact E. }
  unfold DefenceToolkit.applyConstantTime, DefenceToolkit.clampTiming,
    DefenceToolkit.detectAnomaly, DefenceToolkit.applyDefences.
  rewrite V. repeat split.
  unfold bind, zoom, DefenceToolkit.state_or_default, get, ret, lift.
  now destruct st.
Qed.

Lemma methods_report_first_bad_entry_witness :
  (Forall (fun kv => Num.isNaN (snd kv) = false) [("prime", num 42)]
   /\ is_numeric (VString "8") = false)
  /\ DefenceToolkit.detectAnomaly
       (VObject [("prime", VNumber (num 42)); ("speculate", VString "8");
                 ("probe", VNull)])
     = Throw (TimingNotNumeric "speculate").
Proof.
  assert (H : Forall (fun kv : string * number => Num.isNaN (snd kv) = false)
                [("prime", num 42)]).
  { repeat constructor. }
  split; [split; [exact H|reflexivity]|].
  destruct (methods_report_first_bad_entry
              [("prime", num 42)] "speculate" (VString "8")
              [("probe", VNull)] false None DefenceToolkit.new
              (fun _ => num 0) H eq_refl)
    as (_ & _ & E & _).
  exact E.
Defined.

(** *** The toolkit's clampTiming *)

Lemma nearest5_fixed (z : Z) :
  0 <= z <= 1000 ->
  0 <= nearest5 z <= 1000 /\ nearest5 (nearest5 z) = nearest5 z.
Proof.
  intros H. unfold nearest5.
  Z.to_euclidean_division_equations. lia.
Qed.

Lemma clampTiming_whole (zs : list (string * Z)) :
  zs <> [] -> Forall (fun kz => 0 <= snd kz <= 1000) zs ->
  NoDup (map fst zs) ->
  DefenceToolkit.clampTiming (timing_value (whole_record zs))
  = Return (whole_record (map (fun kz => (fst kz, nearest5 (snd kz))) zs)).
Proof.
  intros Hne Hz Hkeys.
  assert (Hne' : whole_record zs <> []) by (now destruct zs).
  assert (Hnan : Forall (fun kv => Num.isNaN (snd kv) = false)
                        (whole_record zs)).
  { unfold whole_record. rewrite Forall_map. apply Forall_forall.
    intros kz _. apply normalize_not_NaN. }
  unfold DefenceToolkit.clampTiming.
  rewrite (validateTimings_ok _ Hne' Hnan). unfold obind. f_equal.
  unfold whole_record. rewrite !map_map. cbn [fst snd].
  rewrite fromEntries_distinct.
  - apply map_ext_in. intros kz Hin. cbn [fst snd].
    rewrite Forall_forall in Hz.
    apply (f_equal (pair (fst kz))).
    exact (coarsened_whole (snd kz) (Hz kz Hin)).
  - unfold distinct_keys. rewrite map_map. exact Hkeys.
Qed.

(** X20. The toolkit's [clampTiming] sends a record of whole numbers
    from 0 to 1000 to the nearest multiples of 5, and coarsening the
    result again returns it unchanged. *)
Theorem coarsening_is_idempotent (zs : list (string * Z)) :
  zs <> [] -> Forall (fun kz => 0 <= snd kz <= 1000) zs ->
  NoDup (map fst zs) ->
  let coarse :=
    whole_record (map (fun kz => (fst kz, nearest5 (snd kz))) zs) in
  DefenceToolkit.clampTiming (timing_value (whole_record zs)) = Return coarse
  /\ DefenceToolkit.clampTiming (timing_value coarse) = Return coarse.
Proof.
  intros Hne Hz Hkeys coarse. split.
  - now apply clampTiming_whole.
  - unfold coarse. rewrite clampTiming_whole.
    + f_equal. unfold whole_record. rewrite !map_map. cbn [fst snd].
      apply map_ext_in. intros kz Hin. cbn [fst snd].
      rewrite Forall_forall in Hz.
      apply (f_equal (fun z => (fst kz, num z))).
      apply nearest5_fixed, Hz, Hin.
    + now destruct zs.
    + rewrite Forall_map. revert Hz. apply Forall_impl.
      intros kz H. simpl. now apply nearest5_fixed.
    + rewrite map_map. exact Hkeys.
Qed.

Lemma coarsening_is_idempotent_witness :
  let zs := [("prime", 42); ("speculate", 8); ("probe", 13)] in
  (zs <> [] /\ Forall (fun kz => 0 <= snd kz <= 1000) zs
   /\ NoDup (map fst zs))
  /\ DefenceToolkit.clampTiming (timing_value (whole_record zs))
     = Return [("prime", num 40); ("speculate", num 10); ("probe", num 15)].
Proof.
  assert (Hne : [("prime", 42); ("speculate", 8); ("probe", 13)] <> [])
    by discriminate.
  assert (Hz : Forall (fun kz : string * Z => 0 <= snd kz <= 1000)
                 [("prime", 42); ("speculate", 8); ("probe", 13)]).
  { repeat constructor; simpl; lia. }
  assert (Hkeys : NoDup (map fst [("prime", 42); ("speculate", 8);
                                  ("probe", 13)])).
  { simpl. repeat constructor; simpl; intuition discriminate. }
  split; [repeat split; assumption|].
  exact (proj1 (coarsening_is_idempotent _ Hne Hz Hkeys)).
Defined.

End ToolkitDefences.


(* ------------------------------------------------------------------ *)
(** ** AttackSimulator: completed runs *)

Section RunnerResults.

Import AttackSimulator.

Lemma flag_toggles (c j f k d : bool) :
  DefenceToolkit.flag "constantTime" (toggles c j f k d) = c
  /\ DefenceToolkit.flag "jitter" (toggles c j f k d) = j
  /\ DefenceToolkit.flag "fence" (toggles c j f k d) = f
  /\ DefenceToolkit.flag "clampTimers" (toggles c j f k d) = k
  /\ DefenceToolkit.flag "detection" (toggles c j f k d) = d.
Proof. repeat split. Qed.

Lemma MOCK_MEMORY_numbers :
  Forall (fun a => Num.isNaN a = false) MOCK_MEMORY.
Proof.
  unfold MOCK_MEMORY. rewrite Forall_map. apply Forall_forall.
  intros i _. apply normalize_not_NaN.
Qed.

Lemma numeric_addresses_ok (addresses : list number) :
  Forall (fun a => Num.isNaN a = false) addresses ->
  Forall numeric_or_hole (numeric_addresses addresses).
Proof.
  intros H. unfold numeric_addresses. rewrite Forall_map.
  revert H. apply Forall_impl. intros a Ha. simpl. now rewrite Ha.
Qed.

Lemma firstn_Forall {A : Type} (Q : A -> Prop) (n : nat) (xs : list A) :
  Forall Q xs -> Forall Q (firstn n xs).
Proof.
  intros H. revert n. induction H as [|x xs Hx _ IH]; intros [|n]; simpl;
    constructor; auto.
Qed.

(** *** The cache during a run *)

Lemma access_served (l1 l2 : list number) (a : number) :
  Num.isNaN a = false ->
  exists result l1' l2',
    CacheModel.access (VNumber a) (hierarchy l1 l2)
    = (Return result, hierarchy l1' l2', [])
    /\ In (Access.latency result) [8; 16; 42].
Proof.
  intros Ha.
  destruct (CacheLevel.has a l1) eqn:E1;
    [|destruct (CacheLevel.has a l2) eqn:E2].
  - rewrite hit_in_L1 by assumption. do 3 eexists.
    split; [reflexivity|]. simpl. auto.
  - rewrite hit_in_L2 by assumption. do 3 eexists.
    split; [reflexivity|]. simpl. auto.
  - rewrite full_miss by assumption. do 3 eexists.
    split; [reflexivity|]. simpl. auto.
Qed.

Lemma addresses_served (l1 l2 : list number) (addresses : list number) :
  Forall (fun a => Num.isNaN a = false) addresses ->
  exists results l1' l2',
    mapM_holes CacheModel.access (numeric_addresses addresses)
               (hierarchy l1 l2)
    = (Return results, hierarchy l1' l2', [])
    /\ List.length results = List.length addresses
    /\ Forall served results.
Proof.
  intros H. revert l1 l2.
  induction H as [|a rest Ha _ IH]; intros l1 l2.
  - exists [], l1, l2. repeat split. constructor.
  - destruct (access_served l1 l2 a Ha) as (r & k1 & k2 & E & Hr).
    destruct (IH k1 k2) as (rs & k1' & k2' & E' & Hl & Hs).
    exists (Some r :: rs), k1', k2'. split; [|split].
    + simpl. unfold bind at 1. rewrite E. unfold bind at 1. rewrite E'.
      reflexivity.
    + simpl. now rewrite Hl.
    + constructor; [|exact Hs]. exists r. auto.
Qed.

(** *** The predictor during a run *)

Lemma training_returns (elems : list (option value))
    (this : BranchPredictor.t) :
  forallb (fun e => match e with
                    | Some x => is_boolean x
                    | None => true
                    end) elems = true ->
  exists results,
    mapM_holes BranchPredictor.predict elems this
    = (Return results, trained (visited elems) this, [])
    /\ List.length results = List.length elems.
Proof.
  revert this. induction elems as [|[v|] elems IH]; intros this H.
  - exists []. split; reflexivity.
  - simpl in H. apply andb_prop in H as [Hv H].
    destruct (IH (learn this v) H) as (rs & E & Hl).
    exists (Some (predicts this) :: rs). split.
    + simpl mapM_holes. unfold bind at 1. rewrite predict_eq.
      unfold coercion_warning. rewrite Hv.
      rewrite learn_eq in E. unfold bind at 1. rewrite E.
      simpl visited. simpl trained. rewrite learn_eq. reflexivity.
    + simpl. now rewrite Hl.
  - simpl in H. destruct (IH this H) as (rs & E & Hl).
    exists (None :: rs). split.
    + simpl mapM_holes. unfold bind at 1. rewrite E. reflexivity.
    + simpl. now rewrite Hl.
Qed.

(** *** The pipeline during a run *)

Lemma sequence_is_simulated (trigger m : bool) (this : Pipeline.t) :
  exists view,
    Pipeline.simulate (buildSpeculativeSequence (VBool trigger)) (VBool m)
                      this
    = (Return view, this, []).
Proof.
  destruct trigger; eexists; reflexivity.
Qed.


(** *** The timings of a run *)

Lemma never_NaN_drained (n : nat) (rnd : Random.t) :
  never_NaN rnd -> never_NaN (drained n rnd).
Proof. intros H i. rewrite drained_reads. apply H. Qed.

Lemma drained_add (n m : nat) (rnd : Random.t) :
  drained n (drained m rnd) = drained (m + n) rnd.
Proof.
  revert rnd. induction m as [|m IH]; intros rnd; simpl;
    [reflexivity|apply IH].
Qed.

Lemma within_finite (x : number) :
  Num.within 20 180 x = true -> Num.isFinite x = true.
Proof.
  unfold Num.within, Num.leb. intros H. apply andb_prop in H as [Hlo Hhi].
  destruct x as [sx|sx| |sx mx ex]; try reflexivity; try discriminate.
  destruct sx; discriminate.
Qed.

Lemma in_range_finite (es : timing_record) : in_range es -> all_finite es.
Proof.
  apply Forall_impl. intros kv. apply within_finite.
Qed.

Lemma times_eight_not_NaN (x : number) :
  Num.isNaN x = false -> Num.isNaN (Num.mul x (num 8)) = false.
Proof.
  change (num 8) with (S754_finite false 4503599627370496 (-49)).
  destruct x as [sx|sx| |sx mx ex]; try discriminate; intros _; simpl;
    try reflexivity.
  apply round_aux_not_NaN. lia.
Qed.

Lemma sub_four_not_NaN (x : number) :
  Num.isNaN x = false ->
  Num.isNaN (Num.sub x (Num.div (num 8) (num 2))) = false.
Proof.
  change (Num.div (num 8) (num 2))
    with (S754_finite false 4503599627370496 (-50)).
  destruct x as [sx|sx| |sx mx ex]; try discriminate; intros _; simpl;
    try reflexivity.
  apply normalize_not_NaN.
Qed.

Lemma add_zero_clamped (base : number) :
  clampTiming (Num.add base (num 0)) = clampTiming base.
Proof.
  destruct base as [[|]|[|]| |sx mx ex]; reflexivity.
Qed.

(** What [artificialDelay] does with the two jitter ranges the runner
    passes, 8 and 0. *)
Lemma artificialDelay_eq (base : number) (jittering : bool)
    (rnd : Random.t) :
  Num.isFinite base = true -> never_NaN rnd ->
  exists v,
    artificialDelay base (if jittering then num 8 else num 0) rnd
    = (Return v, drained (if jittering then 1 else 0) rnd, [])
    /\ Num.within 20 180 v = true
    /\ (jittering = false -> v = clampTiming base).
Proof.
  intros Hb Hr. destruct jittering.
  - eexists. split; [reflexivity|]. split; [|discriminate].
    apply clampTiming_within, add_not_NaN; [exact Hb|].
    apply sub_four_not_NaN, floor_not_NaN, times_eight_not_NaN, Hr.
  - exists (clampTiming base). split; [|split; [|reflexivity]].
    + unfold artificialDelay. change (truthy (VNumber (num 0))) with false.
      unfold bind, ret. cbv beta iota. now rewrite add_zero_clamped.
    + apply clampTiming_within. now destruct base.
Qed.

Lemma doubled_latency_finite (z : Z) :
  In z [8; 16; 42] -> Num.isFinite (Num.mul (num z) (num 2)) = true.
Proof.
  intros [<- | [<- | [<- | []]]]; vm_compute; reflexivity.
Qed.

Lemma sums_exactly_table :
  forallb sums_exactly (map Z.of_nat (seq 0 127)) = true.
Proof. vm_compute. reflexivity. Qed.

Lemma average_is_finite_table :
  forallb average_is_finite (map Z.of_nat (seq 0 169)) = true.
Proof. vm_compute. reflexivity. Qed.

Lemma latencies_add_up (results : list (option Access.t)) (k : nat) (s : Z) :
  Forall served results ->
  0 <= s -> s + 42 * Z.of_nat (List.length results) <= 168 ->
  exists s',
    fold_left (fun sum p => Num.add sum (num (Access.latency (snd p))))
              (present_from k results) (num s) = num s'
    /\ 0 <= s' <= 168.
Proof.
  intros H. revert k s.
  induction H as [|e rest (r & -> & Hr) _ IH]; intros k s Hs Hb.
  - exists s. simpl in *. split; [reflexivity|lia].
  - simpl List.length in Hb. simpl present_from. simpl fold_left.
    assert (Hsum : Num.add (num s) (num (Access.latency r))
                   = num (s + Access.latency r)).
    { assert (T : sums_exactly s = true).
      { apply (proj1 (forallb_forall _ _) sums_exactly_table).
        replace s with (Z.of_nat (Z.to_nat s)) by lia.
        apply in_map, in_seq. lia. }
      unfold sums_exactly in T. rewrite forallb_forall in T.
      apply identical_eq, T, Hr. }
    rewrite Hsum. apply IH.
    + simpl in Hr. lia.
    + simpl in Hr. lia.
Qed.

Lemma average_latency_finite (results : list (option Access.t)) :
  Forall served results -> (1 <= List.length results <= 4)%nat ->
  Num.isFinite
    (Num.div
       (fold_left (fun sum p => Num.add sum (num (Access.latency (snd p))))
                  (present results) (num 0))
       (num (Z.of_nat (List.length results)))) = true.
Proof.
  intros H Hl.
  destruct (latencies_add_up results 0 0 H ltac:(lia) ltac:(lia))
    as (s & E & Hs).
  unfold present. rewrite E.
  assert (T : average_is_finite s = true).
  { apply (proj1 (forallb_forall _ _) average_is_finite_table).
    replace s with (Z.of_nat (Z.to_nat s)) by lia.
    apply in_map, in_seq. lia. }
  unfold average_is_finite in T. rewrite forallb_forall in T.
  apply T. simpl. lia.
Qed.

(** *** The defences during a run *)

Lemma nonempty_keys {A B} (f : A -> string) (xs : list A) (ys : list B)
    (g : B -> string) :
  map g ys = map f xs -> xs <> [] -> ys <> [].
Proof. intros E H ->. destruct xs; [contradiction|discriminate]. Qed.

Lemma in_range_not_NaN (es : timing_record) :
  in_range es -> Forall (fun kv => Num.isNaN (snd kv) = false) es.
Proof.
  apply Forall_impl. intros kv. apply within_not_NaN.
Qed.

Lemma applyConstantTime_returns (es : timing_record) :
  es <> [] -> Forall (fun kv => Num.isNaN (snd kv) = false) es ->
  distinct_keys es ->
  exists out,
    DefenceToolkit.applyConstantTime (timing_value es) = Return out
    /\ map fst out = map fst es /\ in_range out.
Proof.
  intros Hne Hnan Hkeys.
  unfold DefenceToolkit.applyConstantTime.
  rewrite (validateTimings_ok es Hne Hnan). unfold obind.
  rewrite fromEntries_distinct
    by (unfold distinct_keys; rewrite map_map; exact Hkeys).
  eexists. split; [reflexivity|]. split.
  - now rewrite map_map.
  - unfold in_range. rewrite Forall_map. apply Forall_forall.
    intros kv _. cbn [snd].
    apply clampTiming_within, max_list_not_NaN.
    rewrite Forall_map. exact Hnan.
Qed.

Lemma applyDefences_returns (es : timing_record) (mispredict : bool)
    (st : object) (this : DefenceToolkit.t) (rnd : Random.t) :
  es <> [] -> in_range es -> distinct_keys es -> never_NaN rnd ->
  In "speculate" (map fst es) ->
  exists out,
    DefenceToolkit.applyDefences (timing_value es) mispredict (Some st)
                                 (this, rnd)
    = (Return out,
       (this, drained (if DefenceToolkit.flag "jitter" st
                       then List.length es else 0%nat) rnd), [])
    /\ map fst out = map fst es /\ in_range out
    /\ (DefenceToolkit.flag "jitter" st = false ->
        DefenceToolkit.flag "fence" st && mispredict = false -> out = es).
Proof.
  intros Hne Hin Hkeys Hrnd Hspec.
  pose proof (in_range_finite es Hin) as Hfin.
  pose proof (in_range_not_NaN es Hin) as Hnan.
  assert (Hadjust : forall js,
             map fst js = map fst es -> in_range js ->
             map fst
               (timing_set "speculate"
                  (clampTiming
                     (Num.div
                        (DefenceToolkit.read_number
                           (timing_get "speculate" js)) (num 2))) js)
             = map fst es
             /\ in_range
                  (timing_set "speculate"
                     (clampTiming
                        (Num.div
                           (DefenceToolkit.read_number
                              (timing_get "speculate" js)) (num 2))) js)).
  { intros js Hk Hj. rewrite <- Hk in Hspec.
    destruct (timing_get_in "speculate" js Hspec) as [x Ex]. rewrite Ex.
    split.
    - now rewrite timing_set_keys.
    - apply (timing_set_Forall (fun v => Num.within 20 180 v = true));
        [|exact Hj].
      apply clampTiming_within, half_not_NaN. simpl.
      apply (within_not_NaN 20 180).
      exact (timing_get_Forall (fun v => Num.within 20 180 v = true)
               _ _ _ Hj Ex). }
  unfold DefenceToolkit.applyDefences.
  unfold bind, zoom, DefenceToolkit.state_or_default, ret, lift.
  cbn [fst snd]. rewrite (validateTimings_ok es Hne Hnan).
  destruct (DefenceToolkit.flag "jitter" st).
  - destruct (jittered_in_range es rnd Hfin Hrnd) as (js & E & Hk & Hj).
    unfold bind, ret in E. cbn [fst snd]. rewrite E. cbn [fst snd app].
    assert (Hd : distinct_keys js) by (unfold distinct_keys; now rewrite Hk).
    rewrite (fromEntries_distinct js Hd).
    destruct (DefenceToolkit.flag "fence" st && mispredict).
    + eexists. split; [reflexivity|].
      destruct (Hadjust js Hk Hj). repeat split; auto. discriminate.
    + eexists. split; [reflexivity|]. repeat split; auto. discriminate.
  - rewrite (fromEntries_distinct es Hkeys).
    destruct (DefenceToolkit.flag "fence" st && mispredict).
    + eexists. split; [reflexivity|].
      destruct (Hadjust es eq_refl Hin). repeat split; auto. discriminate.
    + eexists. split; [reflexivity|]. repeat split; auto.
Qed.

Lemma fifth_not_NaN (x : number) :
  Num.isNaN x = false -> Num.isNaN (Num.div x (num 5)) = false.
Proof.
  rewrite five_finite.
  destruct x as [sx|sx| |sx mx ex]; try discriminate; intros _;
    try reflexivity.
  unfold Num.div, SFdiv, SFdiv_core_binary.
  set (m' := match _ with Z.pos _ => _ | _ => _ end).
  assert (Hm' : 0 <= m').
  { unfold m'. destruct (_ - _ - _); try lia.
    rewrite Z.shiftl_mul_pow2 by lia. apply Z.mul_nonneg_nonneg; [lia|].
    apply Z.pow_nonneg. lia. }
  pose proof (Z.div_pos m' (Z.pos five_mantissa) Hm' eq_refl) as Hq.
  unfold Z.div in Hq. destruct (Z.div_eucl m' (Z.pos five_mantissa)) as [q r].
  now apply round_aux_not_NaN.
Qed.

Lemma round_not_NaN (x : number) :
  Num.isNaN x = false -> Num.isNaN (Num.round x) = false.
Proof.
  destruct x as [sx|sx| |sx mx ex]; try discriminate; intros _; simpl;
    try reflexivity.
  destruct (0 <=? ex); [reflexivity|].
  destruct (_ =? 0); [reflexivity|]. apply normalize_not_NaN.
Qed.

Lemma times_five_not_NaN (x : number) :
  Num.isNaN x = false -> Num.isNaN (Num.mul x (num 5)) = false.
Proof.
  rewrite five_finite.
  destruct x as [sx|sx| |sx mx ex]; try discriminate; intros _; simpl;
    try reflexivity.
  apply round_aux_not_NaN. lia.
Qed.

Lemma clampTiming_returns (es : timing_record) :
  es <> [] -> Forall (fun kv => Num.isNaN (snd kv) = false) es ->
  distinct_keys es ->
  exists out,
    DefenceToolkit.clampTiming (timing_value es) = Return out
    /\ map fst out = map fst es
    /\ Forall (fun kv => Num.isNaN (snd kv) = false) out.
Proof.
  intros Hne Hnan Hkeys.
  unfold DefenceToolkit.clampTiming.
  rewrite (validateTimings_ok es Hne Hnan). unfold obind.
  rewrite fromEntries_distinct
    by (unfold distinct_keys; rewrite map_map; exact Hkeys).
  eexists. split; [reflexivity|]. split.
  - now rewrite map_map.
  - rewrite Forall_map. revert Hnan. apply Forall_impl.
    intros kv H. cbn [snd].
    now apply times_five_not_NaN, round_not_NaN, fifth_not_NaN.
Qed.

Lemma detectAnomaly_returns (es : timing_record) :
  es <> [] -> Forall (fun kv => Num.isNaN (snd kv) = false) es ->
  exists anomaly,
    DefenceToolkit.detectAnomaly (timing_value es) = Return anomaly.
Proof.
  intros Hne Hnan. unfold DefenceToolkit.detectAnomaly.
  rewrite (validateTimings_ok es Hne Hnan). eexists. reflexivity.
Qed.


(** *** The steps of a run *)

Lemma selectAddresses_eq (count : nat) (st : object)
    (D : DefenceToolkit.t) (C : CacheModel.t) (P : BranchPredictor.t)
    (pl : Pipeline.t) (rnd : Random.t) (lg : Logger.t) :
  _selectAddresses count st (mk D C P pl rnd lg)
  = (Return (numeric_addresses (firstn count MOCK_MEMORY)),
     mk D C P pl rnd lg, []).
Proof.
  assert (H : Forall (fun a => Num.isNaN a = false)
                     (firstn count MOCK_MEMORY)).
  { apply firstn_Forall, MOCK_MEMORY_numbers. }
  unfold _selectAddresses, on_defence, zoom. cbn [defence].
  fold (numeric_addresses (firstn count MOCK_MEMORY)).
  unfold DefenceToolkit.applyFence, DefenceToolkit._assertAddresses.
  unfold present. rewrite (present_numeric _ 0 H).
  unfold bind, lift, DefenceToolkit.state_or_default, ret.
  destruct (DefenceToolkit.flag "fence" st); simpl;
    now rewrite ?spread_numeric.
Qed.

Lemma first_address (n : nat) :
  array_at (numeric_addresses (firstn (n + 2) MOCK_MEMORY)) 0
  = VNumber (num 0).
Proof. rewrite Nat.add_comm. reflexivity. Qed.

Lemma probed_length (n : nat) :
  (1 <= List.length (firstn 4 (firstn (n + 2) MOCK_MEMORY)) <= 4)%nat.
Proof.
  rewrite !length_firstn.
  assert (List.length MOCK_MEMORY = 32%nat) by reflexivity. lia.
Qed.

Lemma trained_snoc (outcomes : list value) (outcome : value)
    (this : BranchPredictor.t) :
  trained (outcomes ++ [outcome]) this
  = learn (trained outcomes this) outcome.
Proof. unfold trained. now rewrite fold_left_app. Qed.

Lemma firstn_addresses (n : nat) (addresses : list number) :
  firstn n (numeric_addresses addresses)
  = numeric_addresses (firstn n addresses).
Proof. unfold numeric_addresses. apply firstn_map. Qed.

Lemma scenario_returns (pattern : value) (elems : list (option value))
    (trigger : bool) (c j f k d : bool) (D : DefenceToolkit.t)
    (l1 l2 : list number) (P : BranchPredictor.t) (pl : Pipeline.t)
    (rnd : Random.t) (lg : Logger.t) :
  prop pattern "training" = VArray elems ->
  forallb (fun e => match e with
                    | Some x => is_boolean x
                    | None => true
                    end) elems = true ->
  prop pattern "trigger" = VBool trigger ->
  predictor_ok P -> never_NaN rnd ->
  exists result sim' events,
    scenario pattern (toggles c j f k d) (mk D (hierarchy l1 l2) P pl rnd lg)
    = (Return result, sim', events)
    /\ rendering pattern result sim' events
    /\ defence sim' = D /\ (pipeline sim' = pl /\ logger sim' = lg)
    /\ (exists l1' l2', cache sim' = hierarchy l1' l2')
    /\ predictor sim' = trained (visited elems ++ [VBool trigger]) P
    /\ random sim' = drained (if j then (if c then 3 else 6) else 0) rnd
    /\ ScenarioResult.mispredict result
       = negb (Bool.eqb (predicts (trained (visited elems) P)) trigger)
    /\ ScenarioResult.summary result
       = (if ScenarioResult.mispredict result
          then "Speculative path observed" else "No speculation observed")
    /\ List.length (ScenarioResult.primeResults result)
       = Nat.min (List.length elems + 2) 32
    /\ List.length (ScenarioResult.trainingResults result)
       = List.length elems
    /\ map fst (ScenarioResult.measurements result)
       = ["prime"; "speculate"; "probe"]
    /\ Forall (fun kv => Num.isNaN (snd kv) = false)
              (ScenarioResult.measurements result)
    /\ (ScenarioResult.detection result = None <-> d = false)
    /\ (c = false -> j = false -> k = false ->
        f && ScenarioResult.mispredict result = false ->
        ScenarioResult.measurements result = baseTiming result).
Proof.
  intros Htraining Hbool Htrigger HP Hrnd.
  set (count := (List.length elems + 2)%nat).
  pose proof (selectAddresses_eq count (toggles c j f k d) D
                (hierarchy l1 l2) P pl rnd lg) as E1.
  assert (Hmem : Forall (fun a => Num.isNaN a = false)
                        (firstn count MOCK_MEMORY)).
  { apply firstn_Forall, MOCK_MEMORY_numbers. }
  destruct (addresses_served l1 l2 _ Hmem)
    as (primed & a1 & a2 & E2 & Hpl & _).
  destruct (training_returns elems P Hbool) as (trainingResults & E3 & Htl).
  set (P' := trained (visited elems) P) in *.
  pose proof (predict_eq P' (VBool trigger)) as E4.
  fold (predicts P') in E4.
  set (mispredict := negb (Bool.eqb (predicts P') trigger)).
  destruct (sequence_is_simulated trigger (mispredict && negb f) pl)
    as (view & E5).
  destruct (access_served a1 a2 (num 0) eq_refl)
    as (speculativeAccess & b1 & b2 & E6 & Hlat).
  destruct (addresses_served b1 b2 (firstn 4 (firstn count MOCK_MEMORY))
              (firstn_Forall _ 4 _ Hmem))
    as (probeResults & c1 & c2 & E7 & Hprl & Hps).
  destruct (artificialDelay_eq (num 60) j rnd eq_refl Hrnd)
    as (prime & E8 & Hprime & Hprime0).
  set (rnd1 := drained (if j then 1 else 0)%nat rnd) in *.
  assert (Hrnd1 : never_NaN rnd1) by now apply never_NaN_drained.
  destruct (artificialDelay_eq _ j rnd1
              (doubled_latency_finite _ Hlat) Hrnd1)
    as (speculate & E9 & Hspeculate & Hspeculate0).
  set (rnd2 := drained (if j then 1 else 0)%nat rnd1) in *.
  assert (Hrnd2 : never_NaN rnd2) by now apply never_NaN_drained.
  assert (Hprobes : (1 <= List.length probeResults <= 4)%nat).
  { rewrite Hprl. apply probed_length. }
  destruct (artificialDelay_eq _ j rnd2
              (average_latency_finite probeResults Hps Hprobes) Hrnd2)
    as (probe & E10 & Hprobe & Hprobe0).
  set (rnd3 := drained (if j then 1 else 0)%nat rnd2) in *.
  assert (Hrnd3 : never_NaN rnd3) by now apply never_NaN_drained.
  set (es := [("prime", prime); ("speculate", speculate); ("probe", probe)]).
  assert (Hne : es <> []) by discriminate.
  assert (Hes : in_range es) by (repeat constructor; assumption).
  assert (Hkeys : distinct_keys es).
  { unfold distinct_keys. simpl.
    repeat constructor; simpl; intuition discriminate. }
  assert (Hspec : In "speculate" (map fst es)) by (simpl; auto).
  set (Pfinal := {| BranchPredictor.history :=
                      remembered (BranchPredictor.history P')
                                 (truthy (VBool trigger));
                    BranchPredictor.threshold := BranchPredictor.threshold P';
                    BranchPredictor.counter :=
                      if truthy (VBool trigger)
                      then Z.min 3 (BranchPredictor.counter P' + 1)
                      else Z.max 0 (BranchPredictor.counter P' - 1) |}) in *.
  assert (Htim : exists timings,
             (if c
              then lift (DefenceToolkit.applyConstantTime (timing_value es))
              else on_defence_random
                     (DefenceToolkit.applyDefences (timing_value es)
                        mispredict (Some (toggles c j f k d))))
               (mk D (hierarchy c1 c2) Pfinal pl rnd3 lg)
             = (Return timings,
                mk D (hierarchy c1 c2) Pfinal pl
                   (drained (if c then 0 else if j then 3 else 0)%nat rnd3)
                   lg,
                [])
             /\ map fst timings = map fst es /\ in_range timings
             /\ (c = false -> j = false -> f && mispredict = false ->
                 timings = es)).
  { destruct c.
    - destruct (applyConstantTime_returns es Hne (in_range_not_NaN es Hes)
                  Hkeys) as (out & E & Hk & Hr).
      exists out. unfold lift. rewrite E. repeat split; auto. discriminate.
    - destruct (applyDefences_returns es mispredict (toggles false j f k d)
                  D rnd3 Hne Hes Hkeys Hrnd3 Hspec)
        as (out & E & Hk & Hr & Hsame).
      exists out. unfold on_defence_random, zoom.
      cbn [defence random]. rewrite E. cbn [fst snd].
      repeat split; auto. }
  destruct Htim as (timings & E11 & Htk & Htr & Htsame).
  set (rnd4 := drained (if c then 0 else if j then 3 else 0)%nat rnd3) in *.
  assert (Htne : timings <> []).
  { intros ->. discriminate Htk. }
  assert (Htd : distinct_keys timings).
  { unfold distinct_keys. now rewrite Htk. }
  assert (Hmeas : exists measurements,
             (if k
              then lift (DefenceToolkit.clampTiming (timing_value timings))
              else ret timings)
               (mk D (hierarchy c1 c2) Pfinal pl rnd4 lg)
             = (Return measurements,
                mk D (hierarchy c1 c2) Pfinal pl rnd4 lg, [])
             /\ map fst measurements = map fst es
             /\ Forall (fun kv => Num.isNaN (snd kv) = false) measurements
             /\ (k = false -> measurements = timings)).
  { destruct k.
    - destruct (clampTiming_returns timings Htne
                  (in_range_not_NaN timings Htr) Htd) as (out & E & Hk & Hn).
      exists out. unfold lift. rewrite E. repeat split; auto.
      + now rewrite Hk.
      + discriminate.
    - exists timings. repeat split; auto. now apply in_range_not_NaN. }
  destruct Hmeas as (measurements & E12 & Hmk & Hmn & Hmsame).
  assert (Hmne : measurements <> []).
  { intros ->. discriminate Hmk. }
  assert (Hdet : exists detection,
             (if d
              then anomaly <- lift (DefenceToolkit.detectAnomaly
                                      (timing_value measurements)) ;;
                   ret (Some anomaly)
              else ret None)
               (mk D (hierarchy c1 c2) Pfinal pl rnd4 lg)
             = (Return detection,
                mk D (hierarchy c1 c2) Pfinal pl rnd4 lg, [])
             /\ (detection = None <-> d = false)).
  { destruct d.
    - destruct (detectAnomaly_returns measurements Hmne Hmn) as (an & E).
      exists (Some an). unfold bind, lift, ret. rewrite E.
      split; [reflexivity|]. split; discriminate.
    - exists None. split; [reflexivity|]. split; reflexivity. }
  destruct Hdet as (detection & E13 & Hdn).
  assert (Hlog : exists logged,
             match lg with
             | Logger.WithInfo =>
                 emit (LoggerInfo (prop pattern "name") mispredict)
             | Logger.WithoutInfo => ret tt
             end (mk D (hierarchy c1 c2) Pfinal pl rnd4 lg)
             = (Return tt, mk D (hierarchy c1 c2) Pfinal pl rnd4 lg, logged)
             /\ logged = match lg with
                         | Logger.WithInfo =>
                             [LoggerInfo (prop pattern "name") mispredict]
                         | Logger.WithoutInfo => []
                         end).
  { destruct lg; eexists; split; reflexivity. }
  destruct Hlog as (logged & Elog & Hlogged).
  do 3 eexists. split.
  - unfold scenario. rewrite Htraining, Htrigger.
    cbn [array_elems]. fold count.
    change (DefenceToolkit.flag "constantTime" (toggles c j f k d)) with c.
    change (DefenceToolkit.flag "jitter" (toggles c j f k d)) with j.
    change (DefenceToolkit.flag "fence" (toggles c j f k d)) with f.
    change (DefenceToolkit.flag "clampTimers" (toggles c j f k d)) with k.
    change (DefenceToolkit.flag "detection" (toggles c j f k d)) with d.
    erewrite bind_return by exact E1. cbv beta.
    erewrite bind_return
      by (unfold on_cache, zoom, CacheModel.prime; cbn [cache];
          rewrite E2; reflexivity).
    cbv beta. cbn [defence cache predictor pipeline random logger].
    erewrite bind_return
      by (unfold on_predictor, zoom; cbn [predictor]; rewrite E3;
          reflexivity).
    cbv beta. cbn [defence cache predictor pipeline random logger].
    erewrite bind_return
      by (unfold on_predictor, zoom; cbn [predictor]; rewrite E4;
          reflexivity).
    cbv beta iota. cbn [defence cache predictor pipeline random logger].
    fold mispredict.
    erewrite bind_return
      by (unfold on_pipeline, zoom; cbn [pipeline]; rewrite E5;
          reflexivity).
    cbv beta. cbn [defence cache predictor pipeline random logger].
    unfold count at 1. rewrite first_address. fold count.
    erewrite bind_return
      by (unfold on_cache, zoom; cbn [cache]; rewrite E6; reflexivity).
    cbv beta. cbn [defence cache predictor pipeline random logger].
    rewrite firstn_addresses.
    erewrite bind_return
      by (unfold on_cache, zoom, CacheModel.probe; cbn [cache];
          rewrite E7; reflexivity).
    cbv beta. cbn [defence cache predictor pipeline random logger].
    erewrite bind_return
      by (unfold on_random, zoom; cbn [random]; rewrite E8; reflexivity).
    cbv beta. cbn [defence cache predictor pipeline random logger].
    erewrite bind_return
      by (unfold on_random, zoom; cbn [random]; rewrite E9; reflexivity).
    cbv beta. cbn [defence cache predictor pipeline random logger].
    erewrite bind_return
      by (unfold on_random, zoom; cbn [random]; rewrite E10; reflexivity).
    cbv beta. cbn [defence cache predictor pipeline random logger].
    fold es.
    erewrite bind_return by exact E11. cbv beta.
    erewrite bind_return by exact E12. cbv beta.
    erewrite bind_return by exact E13. cbv beta.
    erewrite bind_return by reflexivity. cbv beta.
    erewrite bind_return by reflexivity. cbv beta.
    erewrite bind_return by reflexivity. cbv beta.
    erewrite bind_return by reflexivity. cbv beta.
    cbn [logger].
    erewrite bind_return by exact Elog. cbv beta.
    reflexivity.
  - cbn [defence cache predictor pipeline random logger
         ScenarioResult.summary ScenarioResult.primeResults
         ScenarioResult.trainingResults ScenarioResult.mispredict
         ScenarioResult.measurements ScenarioResult.detection].
    split; [exists view; rewrite Hlogged; now destruct lg|].
    split; [reflexivity|]. split; [split; reflexivity|].
    split; [now exists c1, c2|].
    split; [rewrite trained_snoc, learn_eq; reflexivity|].
    split; [unfold rnd4, rnd3, rnd2, rnd1; destruct j, c; reflexivity|].
    split; [reflexivity|]. split; [reflexivity|].
    split.
    { rewrite Hpl, length_firstn.
      now replace (List.length MOCK_MEMORY) with 32%nat by reflexivity. }
    split; [exact Htl|]. split; [exact Hmk|]. split; [exact Hmn|].
    split; [exact Hdn|].
    intros Hc Hj Hk Hf.
    rewrite (Hmsame Hk), (Htsame Hc Hj Hf).
    unfold es, baseTiming.
    cbn [ScenarioResult.speculativeAccess ScenarioResult.probeResults].
    rewrite (Hprime0 Hj), (Hspeculate0 Hj), (Hprobe0 Hj). reflexivity.
Qed.


Lemma field_is_prop (pattern : value) (k : string) :
  field pattern k = prop pattern k.
Proof. now destruct pattern. Qed.

Lemma run_completes (pattern defended : value) (sim : t) :
  malformed pattern || bad_flag defended = false -> usable sim ->
  exists result sim' events, completes pattern defended sim result sim' events.
Proof.
  intros Hwf ((l1 & l2 & HC) & HP & (c & j & f & k & d & HD) & Hrnd).
  destruct sim as [D C P pl rnd lg].
  cbn [cache predictor defence random logger] in *.
  subst C D.
  apply orb_false_elim in Hwf as [Hpat Hflag].
  pose proof (validatePattern_malformed pattern) as V. rewrite Hpat in V.
  unfold malformed in Hpat. rewrite !field_is_prop in Hpat.
  apply orb_false_elim in Hpat as [Hpat Htrig].
  apply orb_false_elim in Hpat as [_ Htrain].
  apply negb_false_iff in Htrig, Htrain.
  destruct (prop pattern "training") as [| | | | |elems|] eqn:Etrain;
    try discriminate Htrain.
  destruct (prop pattern "trigger") as [| |trigger| | | |] eqn:Etrig;
    try discriminate Htrig.
  simpl in Htrain.
  assert (Hrun : forall st,
             on_defence (DefenceToolkit.getState
                           match defended with
                           | VUndefined => VBool false
                           | _ => defended
                           end)
               (mk (DefenceToolkit.mk (toggles c j f k d))
                   (hierarchy l1 l2) P pl rnd lg)
             = (Return st,
                mk (DefenceToolkit.mk (toggles c j f k d))
                   (hierarchy l1 l2) P pl rnd lg, []) ->
             run pattern defended
               (mk (DefenceToolkit.mk (toggles c j f k d))
                   (hierarchy l1 l2) P pl rnd lg)
             = scenario pattern st
                 (mk (DefenceToolkit.mk (toggles c j f k d))
                     (hierarchy l1 l2) P pl rnd lg)).
  { intros st E. unfold run.
    erewrite bind_return by (unfold lift; rewrite V; reflexivity).
    cbv beta zeta.
    destruct defended as [| |b| | | |]; try discriminate Hflag;
      cbn [is_boolean negb];
      erewrite bind_return by exact E;
      destruct (scenario pattern st _) as [[r s'] evs]; reflexivity. }
  unfold completes, training_of, trigger_of, active.
  cbn [defence cache predictor pipeline random DefenceToolkit.state].
  rewrite Etrain, Etrig. cbn [array_elems truthy].
  destruct defended as [| |[|]| | | |]; try discriminate Hflag.
  - destruct (scenario_returns pattern elems trigger false false false
                false false (DefenceToolkit.mk (toggles c j f k d))
                l1 l2 P pl rnd lg Etrain Htrain Etrig HP Hrnd)
      as (result & sim' & events & E & H).
    exists result, sim', events. rewrite (Hrun _ eq_refl).
    split; [exact E|exact H].
  - destruct (scenario_returns pattern elems trigger c j f k d
                (DefenceToolkit.mk (toggles c j f k d))
                l1 l2 P pl rnd lg Etrain Htrain Etrig HP Hrnd)
      as (result & sim' & events & E & H).
    exists result, sim', events. rewrite (Hrun _ eq_refl).
    split; [exact E|exact H].
  - destruct (scenario_returns pattern elems trigger false false false
                false false (DefenceToolkit.mk (toggles c j f k d))
                l1 l2 P pl rnd lg Etrain Htrain Etrig HP Hrnd)
      as (result & sim' & events & E & H).
    exists result, sim', events. rewrite (Hrun _ eq_refl).
    split; [exact E|exact H].
Qed.


(** X21. [artificialDelay] as the runner calls it, with a finite base
    and a jitter range of 8 or 0: it returns a value of [[20, 180]]; with
    the range 8 it draws exactly one random reading, with the range 0 it
    draws none and returns the clamped base. *)
Theorem artificialDelay_stays_in_range (base : number) (jittering : bool)
    (rnd : Random.t) :
  Num.isFinite base = true -> never_NaN rnd ->
  exists v,
    artificialDelay base (if jittering then num 8 else num 0) rnd
    = (Return v, drained (if jittering then 1 else 0) rnd, [])
    /\ Num.within 20 180 v = true
    /\ (jittering = false -> v = clampTiming base).
Proof.
  intros Hb Hr. destruct jittering.
  - exists (clampTiming
              (Num.add base
                 (Num.sub (Num.floor (Num.mul (rnd 0%nat) (num 8)))
                          (Num.div (num 8) (num 2))))).
    split; [reflexivity|]. split; [|discriminate].
    apply clampTiming_within, add_not_NaN; [exact Hb|].
    apply sub_four_not_NaN, floor_not_NaN, times_eight_not_NaN, Hr.
  - exists (clampTiming base). split; [|split; [|reflexivity]].
    + unfold artificialDelay. change (truthy (VNumber (num 0))) with false.
      unfold bind, ret. cbv beta iota. now rewrite add_zero_clamped.
    + apply clampTiming_within. now destruct base.
Qed.

Lemma artificialDelay_stays_in_range_witness :
  (Num.isFinite (num 60) = true /\ never_NaN (fun _ => num 0))
  /\ exists v,
       artificialDelay (num 60) (num 8) (fun _ => num 0)
       = (Return v, fun _ => num 0, [])
       /\ Num.within 20 180 v = true.
Proof.
  assert (Hr : never_NaN (fun _ => num 0)) by (intros n; reflexivity).
  split; [split; [reflexivity|exact Hr]|].
  destruct (artificialDelay_stays_in_range (num 60) true (fun _ => num 0)
              eq_refl Hr) as (v & E & Hv & _).
  exists v. split; [exact E|exact Hv].
Defined.

(** X22. [run] resolves for every pattern that passes validation and
    every [defended] that is a boolean or left out, on every simulator
    in a state that runs produce.  It leaves the simulator in such a
    state again, so runs can follow one another; the toolkit, the
    pipeline and the logger are as before; and the collaborators are
    called in the order pipeline, cache, timings, each once, with the
    values the result carries, followed by one call of the logger's
    [info] when the logger has one and by no call when it has none.
    Validation is thus the only way a run is rejected. *)
Theorem run_resolves_when_well_formed (pattern defended : value) (sim : t) :
  malformed pattern || bad_flag defended = false -> usable sim ->
  exists result sim' events,
    run pattern defended sim = (Return result, sim', events)
    /\ usable sim'
    /\ defence sim' = defence sim /\ pipeline sim' = pipeline sim
    /\ logger sim' = logger sim
    /\ rendering pattern result sim' events.
Proof.
  intros Hwf Hsim.
  destruct (run_completes pattern defended sim Hwf Hsim)
    as (result & sim' & events & E & Hev & HD & (Hpl & Hlg) & HC & HP & Hr
        & _).
  exists result, sim', events.
  destruct Hsim as (_ & HP0 & HD0 & Hr0).
  split; [exact E|]. split; [|auto].
  split; [exact HC|]. split; [rewrite HP; now apply trained_ok|].
  split; [now rewrite HD|]. rewrite Hr. now apply never_NaN_drained.
Qed.

Lemma run_resolves_when_well_formed_witness :
  let quiet :=
    construct DefenceToolkit.new Logger.WithoutInfo (fun _ => num 0) in
  (malformed branchTrain || bad_flag (VBool true) = false /\ usable quiet)
  /\ exists result sim' events,
       run branchTrain (VBool true) quiet = (Return result, sim', events)
       /\ usable sim' /\ List.length events = 3%nat.
Proof.
  assert (U : usable (construct DefenceToolkit.new Logger.WithoutInfo
                                (fun _ => num 0))).
  { split; [exists [], []; reflexivity|].
    split; [unfold predictor_ok; simpl; lia|].
    split; [exists true, true, true, true, true; reflexivity|].
    intros n; reflexivity. }
  split; [split; [reflexivity|exact U]|].
  destruct (run_resolves_when_well_formed branchTrain (VBool true)
              (construct DefenceToolkit.new Logger.WithoutInfo
                         (fun _ => num 0))
              eq_refl U)
    as (result & sim' & events & E & U' & _ & _ & Hlg & view & Hev).
  exists result, sim', events. split; [exact E|]. split; [exact U'|].
  rewrite Hev, Hlg. reflexivity.
Defined.

(** X23. The [mispredict] a run reports is the predictor's miss on the
    trigger: the prediction made after the training outcomes, in order,
    compared with the trigger.  The summary follows it, the predictor
    ends trained on the outcomes and then on the trigger, there is one
    training result for each element of the training array, and one
    prime result for each of the [training.length + 2] addresses, of
    which mock memory has 32. *)
Theorem run_reports_the_predictors_miss (pattern defended : value)
    (sim : t) :
  malformed pattern || bad_flag defended = false -> usable sim ->
  exists result,
    fst (fst (run pattern defended sim)) = Return result
    /\ ScenarioResult.mispredict result
       = negb (Bool.eqb
                 (predicts (trained (training_of pattern) (predictor sim)))
                 (truthy (trigger_of pattern)))
    /\ ScenarioResult.summary result
       = (if ScenarioResult.mispredict result
          then "Speculative path observed" else "No speculation observed")
    /\ predictor (final (run pattern defended sim))
       = trained (training_of pattern ++ [trigger_of pattern])
                 (predictor sim)
    /\ List.length (ScenarioResult.trainingResults result)
       = List.length (array_elems (prop pattern "training"))
    /\ List.length (ScenarioResult.primeResults result)
       = Nat.min (List.length (array_elems (prop pattern "training")) + 2)
                 32.
Proof.
  intros Hwf Hsim.
  destruct (run_completes pattern defended sim Hwf Hsim)
    as (result & sim' & events & E & _ & _ & _ & _ & HP & _ & Hm & Hs
        & Hpl & Htl & _).
  exists result. rewrite E. unfold final. cbn [fst snd].
  repeat split; assumption.
Qed.

Lemma run_reports_the_predictors_miss_witness :
  (malformed branchTrain || bad_flag VUndefined = false /\ usable fresh)
  /\ exists result,
       fst (fst (run branchTrain VUndefined fresh)) = Return result
       /\ ScenarioResult.mispredict result = true.
Proof.
  assert (U : usable fresh).
  { split; [exists [], []; reflexivity|].
    split; [unfold predictor_ok; simpl; lia|].
    split; [exists true, true, true, true, true; reflexivity|].
    intros n; reflexivity. }
  split; [split; [reflexivity|exact U]|].
  destruct (run_reports_the_predictors_miss branchTrain VUndefined fresh
              eq_refl U) as (result & E & Hm & _).
  exists result. split; [exact E|]. rewrite Hm. reflexivity.
Defined.

(** X24. The measurements of a run are numbers: the three phases
    [prime], [speculate], [probe], in this order, none of them NaN,
    whatever the toggles and the random readings.  The [speculate]
    phase that [applyDefences] halves is always there, so the NaN it
    invents for a record without that phase cannot arise in a run.  The
    anomaly report is present exactly
    when the run is defended and the detection toggle is on. *)
Theorem run_measures_numbers (pattern defended : value) (sim : t) :
  malformed pattern || bad_flag defended = false -> usable sim ->
  exists result,
    fst (fst (run pattern defended sim)) = Return result
    /\ map fst (ScenarioResult.measurements result)
       = ["prime"; "speculate"; "probe"]
    /\ Forall (fun kv => Num.isNaN (snd kv) = false)
              (ScenarioResult.measurements result)
    /\ (ScenarioResult.detection result = None
        <-> active defended sim "detection" = false).
Proof.
  intros Hwf Hsim.
  destruct (run_completes pattern defended sim Hwf Hsim)
    as (result & sim' & events & E & _ & _ & _ & _ & _ & _ & _ & _
        & _ & _ & Hk & Hn & Hd & _).
  exists result. rewrite E. repeat split; try assumption; apply Hd.
Qed.

Lemma run_measures_numbers_witness :
  (malformed branchTrain || bad_flag (VBool true) = false /\ usable fresh)
  /\ exists result,
       fst (fst (run branchTrain (VBool true) fresh)) = Return result
       /\ map fst (ScenarioResult.measurements result)
          = ["prime"; "speculate"; "probe"].
Proof.
  assert (U : usable fresh).
  { split; [exists [], []; reflexivity|].
    split; [unfold predictor_ok; simpl; lia|].
    split; [exists true, true, true, true, true; reflexivity|].
    intros n; reflexivity. }
  split; [split; [reflexivity|exact U]|].
  destruct (run_measures_numbers branchTrain (VBool true) fresh eq_refl U)
    as (result & E & Hk & _).
  exists result. split; [exact E|exact Hk].
Defined.

(** X25. A baseline run, with [defended] false or left out, does not
    depend on the toolkit or on chance: whatever the five toggles are,
    it draws no random reading, reports no anomaly, and its
    measurements are 60 for [prime], the clamped double latency of the
    speculative access for [speculate], and the clamped mean latency of
    the probes for [probe]. *)
Theorem baseline_run_ignores_toolkit_and_chance (pattern defended : value)
    (sim : t) :
  malformed pattern || bad_flag defended = false -> usable sim ->
  defended_on defended = false ->
  exists result,
    fst (fst (run pattern defended sim)) = Return result
    /\ random (final (run pattern defended sim)) = random sim
    /\ ScenarioResult.detection result = None
    /\ ScenarioResult.measurements result = baseTiming result.
Proof.
  intros Hwf Hsim Hoff.
  destruct (run_completes pattern defended sim Hwf Hsim)
    as (result & sim' & events & E & _ & _ & _ & _ & _ & Hr & _ & _
        & _ & _ & _ & _ & Hd & Hbase).
  unfold active in Hr, Hd, Hbase. rewrite Hoff in Hr, Hd, Hbase.
  exists result. rewrite E. unfold final. cbn [fst snd].
  split; [reflexivity|]. split; [exact Hr|].
  split; [now apply Hd|]. now apply Hbase.
Qed.

Lemma baseline_run_ignores_toolkit_and_chance_witness :
  (malformed branchTrain || bad_flag (VBool false) = false
   /\ usable fresh /\ defended_on (VBool false) = false)
  /\ exists result,
       fst (fst (run branchTrain (VBool false) fresh)) = Return result
       /\ ScenarioResult.detection result = None.
Proof.
  assert (U : usable fresh).
  { split; [exists [], []; reflexivity|].
    split; [unfold predictor_ok; simpl; lia|].
    split; [exists true, true, true, true, true; reflexivity|].
    intros n; reflexivity. }
  split; [split; [reflexivity|split; [exact U|reflexivity]]|].
  destruct (baseline_run_ignores_toolkit_and_chance branchTrain
              (VBool false) fresh eq_refl U eq_refl)
    as (result & E & _ & Hd & _).
  exists result. split; [exact E|exact Hd].
Defined.

(** X26. A run draws random readings only for jitter: none when the
    jitter is not active, three when the constant-time toggle is active
    with it (one for each artificial delay), six otherwise (three more
    in [applyDefences]). *)
Theorem run_draws_for_jitter_only (pattern defended : value) (sim : t) :
  malformed pattern || bad_flag defended = false -> usable sim ->
  random (final (run pattern defended sim))
  = drained (if active defended sim "jitter"
             then (if active defended sim "constantTime" then 3 else 6)
             else 0)%nat
            (random sim).
Proof.
  intros Hwf Hsim.
  destruct (run_completes pattern defended sim Hwf Hsim)
    as (result & sim' & events & E & _ & _ & _ & _ & _ & Hr & _).
  rewrite E. exact Hr.
Qed.

Lemma run_draws_for_jitter_only_witness :
  (malformed branchTrain || bad_flag (VBool true) = false /\ usable fresh)
  /\ random (final (run branchTrain (VBool true) fresh))
     = drained 3 (random fresh).
Proof.
  assert (U : usable fresh).
  { split; [exists [], []; reflexivity|].
    split; [unfold predictor_ok; simpl; lia|].
    split; [exists true, true, true, true, true; reflexivity|].
    intros n; reflexivity. }
  split; [split; [reflexivity|exact U]|].
  exact (run_draws_for_jitter_only branchTrain (VBool true) fresh
           eq_refl U).
Defined.

Lemma two_equal_outcomes_predict (this : BranchPredictor.t)
    (first second : value) :
  predictor_ok this -> truthy first = truthy second ->
  predicts (learn (learn this first) second) = truthy first.
Proof.
  intros (Ht & Hc & _) Heq. rewrite !learn_eq. unfold predicts.
  cbn [BranchPredictor.threshold BranchPredictor.counter].
  rewrite Ht, <- Heq.
  destruct (truthy first); [apply Z.leb_le|apply Z.leb_gt]; lia.
Qed.

(** X27. Two equal outcomes at the end of the training decide what a
    run reports, whatever the simulator has seen before and whatever
    the rest of the training is: the predictor then answers with that
    outcome, so [mispredict] is true exactly when the trigger differs
    from it. *)
Theorem training_tail_decides_mispredict (pattern defended : value)
    (sim : t) (earlier : list value) (outcome : bool) :
  malformed pattern || bad_flag defended = false -> usable sim ->
  training_of pattern = (earlier ++ [VBool outcome; VBool outcome])%list ->
  exists result,
    fst (fst (run pattern defended sim)) = Return result
    /\ ScenarioResult.mispredict result
       = xorb outcome (truthy (trigger_of pattern)).
Proof.
  intros Hwf Hsim Htail.
  destruct (run_completes pattern defended sim Hwf Hsim)
    as (result & sim' & events & E & _ & _ & _ & _ & _ & _ & Hm & _).
  exists result. rewrite E. split; [reflexivity|].
  rewrite Hm, Htail.
  change (earlier ++ [VBool outcome; VBool outcome])%list
    with (earlier ++ [VBool outcome] ++ [VBool outcome])%list.
  rewrite app_assoc, !trained_snoc.
  rewrite two_equal_outcomes_predict.
  - cbn [truthy]. now destruct outcome, (truthy (trigger_of pattern)).
  - apply trained_ok, Hsim.
  - reflexivity.
Qed.

Lemma training_tail_decides_mispredict_witness :
  (malformed branchTrain || bad_flag (VBool true) = false
   /\ usable fresh
   /\ training_of branchTrain
      = ([VBool true; VBool true] ++ [VBool true; VBool true])%list)
  /\ exists result,
       fst (fst (run branchTrain (VBool true) fresh)) = Return result
       /\ ScenarioResult.mispredict result = true.
Proof.
  assert (U : usable fresh).
  { split; [exists [], []; reflexivity|].
    split; [unfold predictor_ok; simpl; lia|].
    split; [exists true, true, true, true, true; reflexivity|].
    intros n; reflexivity. }
  split; [split; [reflexivity|split; [exact U|reflexivity]]|].
  exact (training_tail_decides_mispredict branchTrain (VBool true) fresh
           [VBool true; VBool true] true eq_refl U eq_refl).
Defined.

End RunnerResults.
